(** * confsec-js: the N-API boundary layer [native/src/confsec.cc]

    A shallow embedding of the fifteen wrapper functions exported by the
    addon, together with the small amount of C, C++ and N-API semantics
    they rely on: C strings, IEEE-754 doubles carrying handles, native
    memory blocks with their allocator and lifetime, and the engine
    ([libconfsec.h]) as an interface the wrappers are parametrised by. *)

From Stdlib Require Import ZArith Lia List String Ascii.
From Stdlib Require Import Floats.SpecFloat.
From Stdlib Require Import Strings.Byte.
From stdpp Require Import base option list gmap.

Open Scope Z_scope.

(** ** Numbers

    A JavaScript number is an IEEE-754 binary64 value.  [spec_float] is the
    Standard Library's specification of such values; [prec = 53] and
    [emax = 1024] select binary64. *)

Module Double.

Definition prec : Z := 53.
Definition emax : Z := 1024.

(** [static_cast<double>(n)] for an integer [n]: conversion with rounding
    to nearest, ties to even. *)
Definition of_Z (n : Z) : spec_float := binary_normalize prec emax n 0 false.

(** The integer part of a double, rounding toward zero; [None] for
    infinities and NaN. *)
Definition trunc (d : spec_float) : option Z :=
  match d with
  | S754_zero _ => Some 0
  | S754_finite s m e =>
      let a := match e with
               | Zneg k => Z.pos m / 2 ^ Z.pos k
               | _ => Z.pos m * 2 ^ e
               end in
      Some (if s then - a else a)
  | S754_infinity _ | S754_nan => None
  end.

(** [static_cast<uintptr_t>(d)] on a 64-bit target.  The conversion
    truncates toward zero; when the truncated value does not fit the
    destination type the behaviour is undefined, which is [None] here. *)
Definition to_uintptr (d : spec_float) : option Z :=
  match trunc d with
  | Some t => if (0 <=? t) && (t <? 2 ^ 64) then Some t else None
  | None => None
  end.

(** [Napi::Number::Int32Value]: non-finite values give zero, anything
    else is truncated and reduced to the bottom 32 bits, read as a
    signed integer. *)
Definition to_int32 (d : spec_float) : Z :=
  match trunc d with
  | Some t => (t + 2 ^ 31) mod 2 ^ 32 - 2 ^ 31
  | None => 0
  end.

(** The handle a caller gets back when it passes [h] out as a number and
    hands that number in again. *)
Definition round_trip (h : Z) : option Z := to_uintptr (of_Z h).

End Double.


(** ** C strings

    A [char*] is modelled by the bytes of the memory block it points to,
    from the pointer to the end of the block. *)

Module CString.

Definition NUL : byte := x00.

(** The string a C function reads at a pointer: the bytes before the
    first zero byte.  A block with no zero byte has no such string and
    reading it runs off the block. *)
Fixpoint c_str (mem : list byte) : option (list byte) :=
  match mem with
  | [] => None
  | b :: rest =>
      if Byte.eqb b NUL then Some []
      else match c_str rest with
           | Some s => Some (b :: s)
           | None => None
           end
  end.

Definition strlen (mem : list byte) : option nat :=
  match c_str mem with
  | Some s => Some (length s)
  | None => None
  end.

(** The memory image of a string object holding [s]: its bytes followed
    by a terminator.  This is what [std::string::c_str] points to. *)
Definition terminated (s : list byte) : list byte := s ++ [NUL].

(** What [strcpy] writes to its destination. *)
Definition strcpy (src : list byte) : option (list byte) :=
  match c_str src with
  | Some s => Some (terminated s)
  | None => None
  end.

Definition nul_free (s : list byte) : bool :=
  forallb (fun b => negb (Byte.eqb b NUL)) s.

(** The part of [s] that survives a passage through a C string: its
    bytes before the first zero byte, all of it when there is none. *)
Fixpoint until_nul (s : list byte) : list byte :=
  match s with
  | [] => []
  | b :: rest => if Byte.eqb b NUL then [] else b :: until_nul rest
  end.

End CString.

(** ** JavaScript strings and UTF-8

    A JavaScript string is a sequence of 16-bit code units (UTF-16, in
    which a surrogate may stand alone).  N-API moves text across the
    boundary as UTF-8: [Napi::String::Utf8Value] encodes, writing U+FFFD
    for a surrogate that is not part of a pair, and [Napi::String::New]
    and [Napi::Error::New] decode, writing U+FFFD for every maximal
    ill-formed sequence of bytes. *)

Definition js_string : Type := list Z.
Bind Scope string_scope with js_string.

(** The string of a literal, one code unit per character. *)
Definition js (s : string) : js_string :=
  map (fun a => Z.of_N (N_of_ascii a)) (list_ascii_of_string s).
Coercion js : string >-> js_string.

Module UTF8.

Definition to_Z (b : byte) : Z := Z.of_N (Byte.to_N b).

Definition of_Z (z : Z) : byte :=
  match Byte.of_N (Z.to_N z) with
  | Some b => b
  | None => x00
  end.

(** U+FFFD, the replacement character. *)
Definition replacement : Z := 0xFFFD.

Definition is_high (u : Z) : bool := (0xD800 <=? u) && (u <=? 0xDBFF).
Definition is_low (u : Z) : bool := (0xDC00 <=? u) && (u <=? 0xDFFF).

(** The bytes of one code point. *)
Definition encode_scalar (c : Z) : list Z :=
  if c <? 0x80 then [c]
  else if c <? 0x800 then [0xC0 + c / 64; 0x80 + c mod 64]
  else if c <? 0x10000 then
    [0xE0 + c / 4096; 0x80 + (c / 64) mod 64; 0x80 + c mod 64]
  else
    [0xF0 + c / 262144; 0x80 + (c / 4096) mod 64; 0x80 + (c / 64) mod 64;
     0x80 + c mod 64].

(** A high surrogate followed by a low one is one code point above
    U+FFFF; any other surrogate is written as U+FFFD. *)
Fixpoint encode_units (s : list Z) : list Z :=
  match s with
  | [] => []
  | u :: rest =>
      if is_high u then
        match rest with
        | l :: rest' =>
            if is_low l then
              encode_scalar (0x10000 + (u - 0xD800) * 1024 + (l - 0xDC00))
              ++ encode_units rest'
            else encode_scalar replacement ++ encode_units rest
        | [] => encode_scalar replacement
        end
      else if is_low u then encode_scalar replacement ++ encode_units rest
      else encode_scalar u ++ encode_units rest
  end.

Definition encode (s : js_string) : list byte := map of_Z (encode_units s).

Definition continuation (b : Z) : bool := (0x80 <=? b) && (b <=? 0xBF).

(** The range of the second byte after the lead byte [b0] of a sequence
    of three or four bytes: narrower after E0, ED, F0 and F4, which
    rules out overlong forms, surrogates and code points above
    U+10FFFF. *)
Definition second_low (b0 : Z) : Z :=
  if b0 =? 0xE0 then 0xA0 else if b0 =? 0xF0 then 0x90 else 0x80.
Definition second_high (b0 : Z) : Z :=
  if b0 =? 0xED then 0x9F else if b0 =? 0xF4 then 0x8F else 0xBF.

Definition units_of_scalar (c : Z) : list Z :=
  if c <? 0x10000 then [c]
  else [0xD800 + (c - 0x10000) / 1024; 0xDC00 + (c - 0x10000) mod 1024].

(** Decoding never fails: a byte that cannot start or continue a
    sequence ends the sequence read so far, which is replaced as a whole
    by one U+FFFD, and decoding goes on from that byte. *)
Fixpoint decode_bytes (bs : list Z) : list Z :=
  match bs with
  | [] => []
  | b0 :: r0 =>
      if b0 <? 0x80 then b0 :: decode_bytes r0
      else if (0xC2 <=? b0) && (b0 <=? 0xDF) then
        match r0 with
        | b1 :: r1 =>
            if continuation b1 then
              ((b0 - 0xC0) * 64 + (b1 - 0x80)) :: decode_bytes r1
            else replacement :: decode_bytes r0
        | [] => [replacement]
        end
      else if (0xE0 <=? b0) && (b0 <=? 0xEF) then
        match r0 with
        | b1 :: r1 =>
            if (second_low b0 <=? b1) && (b1 <=? second_high b0) then
              match r1 with
              | b2 :: r2 =>
                  if continuation b2 then
                    ((b0 - 0xE0) * 4096 + (b1 - 0x80) * 64 + (b2 - 0x80))
                    :: decode_bytes r2
                  else replacement :: decode_bytes r1
              | [] => [replacement]
              end
            else replacement :: decode_bytes r0
        | [] => [replacement]
        end
      else if (0xF0 <=? b0) && (b0 <=? 0xF4) then
        match r0 with
        | b1 :: r1 =>
            if (second_low b0 <=? b1) && (b1 <=? second_high b0) then
              match r1 with
              | b2 :: r2 =>
                  if continuation b2 then
                    match r2 with
                    | b3 :: r3 =>
                        if continuation b3 then
                          units_of_scalar
                            ((b0 - 0xF0) * 262144 + (b1 - 0x80) * 4096
                             + (b2 - 0x80) * 64 + (b3 - 0x80))
                          ++ decode_bytes r3
                        else replacement :: decode_bytes r2
                    | [] => [replacement]
                    end
                  else replacement :: decode_bytes r1
              | [] => [replacement]
              end
            else replacement :: decode_bytes r0
        | [] => [replacement]
        end
      else replacement :: decode_bytes r0
  end.

Definition decode (bs : list byte) : js_string := decode_bytes (map to_Z bs).

(** A string with every code unit in range and no surrogate outside a
    pair: the strings that UTF-8 can carry. *)
Fixpoint well_formed (s : js_string) : bool :=
  match s with
  | [] => true
  | u :: rest =>
      if is_high u then
        match rest with
        | l :: rest' => is_low l && well_formed rest'
        | [] => false
        end
      else negb (is_low u) && (0 <=? u) && (u <? 0x10000) && well_formed rest
  end.

(** A code point that is not a surrogate. *)
Definition scalar (c : Z) : Prop :=
  0 <= c < 0x110000 /\ ~ (0xD800 <= c <= 0xDFFF).

(** A string without the character U+0000. *)
Definition nul_free (s : js_string) : bool :=
  forallb (fun u => negb (u =? 0)) s.

End UTF8.

(** ** JavaScript values *)

Inductive ErrorClass := Napi_Error | Napi_TypeError.

Record JSException :=
  JSError { error_class : ErrorClass; message : js_string }.

#[warnings="-register-all"]
Inductive JSValue :=
| JSUndefined
| JSNull
| JSBoolean (b : bool)
| JSNumber (d : spec_float)
| JSString (s : js_string)
| JSArray (elements : list JSValue)
| JSBuffer (data : list byte)
| JSObject.

Definition IsString (v : JSValue) : bool :=
  match v with JSString _ => true | _ => false end.
Definition IsNumber (v : JSValue) : bool :=
  match v with JSNumber _ => true | _ => false end.
Definition IsArray (v : JSValue) : bool :=
  match v with JSArray _ => true | _ => false end.
Definition IsNull (v : JSValue) : bool :=
  match v with JSNull => true | _ => false end.
Definition IsBuffer (v : JSValue) : bool :=
  match v with JSBuffer _ => true | _ => false end.

(** [info[i]] of a [Napi::CallbackInfo]: the i-th argument, [undefined]
    past the end. *)
Definition info_at (info : list JSValue) (i : nat) : JSValue :=
  nth i info JSUndefined.

(** The number of characters (code points) of a string given by its UTF-8
    bytes: every byte except the continuation bytes [10xxxxxx] starts
    one. *)
Definition utf8_characters (bs : list byte) : nat :=
  length (filter (fun b => negb ((128 <=? Z.of_N (Byte.to_N b)) && (Z.of_N (Byte.to_N b) <? 192))) bs).

(** ** Native memory

    Every block records who allocated it and whether, and how, it was
    released.  A pointer is the index of its block. *)

Inductive Allocator := ByEngine | ByNewArray | ByStdString | ByJSRuntime.

Inductive Release := ConfsecFree | NativeFree | DeleteArray | Destructor.

Inductive BlockState := Live | Released (how : Release).

Record Block := {
  content : list byte;
  allocator : Allocator;
  state : BlockState
}.

Inductive cptr := nullptr | Ptr (a : nat).

Definition is_null (p : cptr) : bool :=
  match p with nullptr => true | Ptr _ => false end.

(** What a callee can read through a pointer it is handed. *)
Inductive ArgView := ANull | ADangling | AData (bs : list byte).

Definition view (hp : list Block) (p : cptr) : ArgView :=
  match p with
  | nullptr => ANull
  | Ptr a =>
      match hp !! a with
      | Some b => match state b with
                  | Live => AData (content b)
                  | Released _ => ADangling
                  end
      | None => ADangling
      end
  end.

Definition alloc (by_ : Allocator) (bs : list byte) (hp : list Block)
  : cptr * list Block :=
  (Ptr (length hp), hp ++ [{| content := bs; allocator := by_; state := Live |}]).

Definition mark_released (how : Release) (a : nat) (hp : list Block)
  : option (list Block) :=
  match hp !! a with
  | Some b => match state b with
              | Live => Some (<[a := {| content := content b;
                                        allocator := allocator b;
                                        state := Released how |}]> hp)
              | Released _ => None
              end
  | None => None
  end.

(** The release function that matches each allocator. *)
Definition matching (by_ : Allocator) : Release :=
  match by_ with
  | ByEngine => ConfsecFree
  | ByNewArray => DeleteArray
  | ByStdString => Destructor
  | ByJSRuntime => Destructor
  end.

(** ** The engine interface ([libconfsec.h])

    The header is not part of the sources, so the engine is a parameter: a
    state and one transition per entry point.  A pointer argument reaches
    the engine as the [ArgView] of what it points to; a returned [char*]
    is the content of a block the engine allocated, [None] for a null
    pointer.  The second component of every reply is the [char** err]
    out-parameter. *)

Definition Reply (A : Type) : Type := A * option (list byte).

Record Engine := {
  EState : Type;
  Confsec_ClientCreate :
    ArgView -> Z -> Z -> list ArgView -> nat -> ArgView ->
    EState -> Reply Z * EState;
  Confsec_ClientDestroy : Z -> EState -> Reply unit * EState;
  Confsec_ClientGetDefaultCreditAmountPerRequest :
    Z -> EState -> Reply Z * EState;
  Confsec_ClientGetMaxCandidateNodes : Z -> EState -> Reply Z * EState;
  Confsec_ClientGetDefaultNodeTags :
    Z -> EState -> Reply (list (list byte) * nat) * EState;
  Confsec_ClientSetDefaultNodeTags :
    Z -> list ArgView -> nat -> EState -> Reply unit * EState;
  Confsec_ClientGetWalletStatus :
    Z -> EState -> Reply (option (list byte)) * EState;
  Confsec_ClientDoRequest :
    Z -> ArgView -> nat -> EState -> Reply Z * EState;
  Confsec_ResponseDestroy : Z -> EState -> Reply unit * EState;
  Confsec_ResponseGetMetadata :
    Z -> EState -> Reply (option (list byte)) * EState;
  Confsec_ResponseIsStreaming : Z -> EState -> Reply bool * EState;
  Confsec_ResponseGetBody :
    Z -> EState -> Reply (option (list byte)) * EState;
  Confsec_ResponseGetStream : Z -> EState -> Reply Z * EState;
  Confsec_ResponseStreamGetNext :
    Z -> EState -> Reply (option (list byte)) * EState;
  Confsec_ResponseStreamDestroy : Z -> EState -> Reply unit * EState
}.

Inductive EntryPoint :=
| EP_ClientCreate
| EP_ClientDestroy
| EP_ClientGetDefaultCreditAmountPerRequest
| EP_ClientGetMaxCandidateNodes
| EP_ClientGetDefaultNodeTags
| EP_ClientSetDefaultNodeTags
| EP_ClientGetWalletStatus
| EP_ClientDoRequest
| EP_ResponseDestroy
| EP_ResponseGetMetadata
| EP_ResponseIsStreaming
| EP_ResponseGetBody
| EP_ResponseGetStream
| EP_ResponseStreamGetNext
| EP_ResponseStreamDestroy.

(** One record per engine call: what was passed and what came back. *)

Inductive Arg :=
| ArgHandle (h : Z)
| ArgInt (n : Z)
| ArgSize (n : nat)
| ArgPtr (v : ArgView)
| ArgPtrs (vs : list ArgView).

Inductive RetView :=
| RVoid
| RHandle (h : Z)
| RInt (n : Z)
| RBool (b : bool)
| RStr (p : option (list byte))
| RTags (tags : list (list byte)) (count : nat).

Record CallRecord := {
  cr_entry : EntryPoint;
  cr_args : list Arg;
  cr_ret : RetView;
  cr_err : option (list byte)
}.

(** ** The state a wrapper runs in, and its outcomes *)

Record World (E : Engine) := {
  engine_state : EState E;
  heap : list Block;
  calls : list CallRecord   (* most recent first *)
}.
Arguments engine_state {E}.
Arguments heap {E}.
Arguments calls {E}.

(** A wrapper returns a value, returns with a JavaScript exception pending
    (the caller sees it thrown), or runs into behaviour C++ leaves
    undefined. *)
Inductive Outcome (A : Type) :=
| Returns (a : A)
| Throws (e : JSException)
| UndefinedBehaviour.
Arguments Returns {A}.
Arguments Throws {A}.
Arguments UndefinedBehaviour {A}.

Definition M (E : Engine) (A : Type) : Type := World E -> Outcome A * World E.

#[global] Instance M_ret (E : Engine) : MRet (M E) :=
  fun A a w => (Returns a, w).

#[global] Instance M_bind (E : Engine) : MBind (M E) :=
  fun A B k m w =>
    match m w with
    | (Returns a, w') => k a w'
    | (Throws e, w') => (Throws e, w')
    | (UndefinedBehaviour, w') => (UndefinedBehaviour, w')
    end.

Section Boundary.

Context {E : Engine}.

Definition throw {A} (c : ErrorClass) (msg : js_string) : M E A :=
  fun w => (Throws (JSError c msg), w).

Definition undefined_behaviour {A} : M E A :=
  fun w => (UndefinedBehaviour, w).

Definition defined {A} (o : option A) : M E A :=
  match o with
  | Some a => mret a
  | None => undefined_behaviour
  end.

(** *** Memory operations *)

Definition allocate (by_ : Allocator) (bs : list byte) : M E cptr :=
  fun w =>
    let '(p, hp) := alloc by_ bs (heap w) in
    (Returns p, {| engine_state := engine_state w; heap := hp;
                   calls := calls w |}).

(** Reading through a pointer: defined only for a live block. *)
Definition load (p : cptr) : M E (list byte) :=
  fun w =>
    match view (heap w) p with
    | AData bs => (Returns bs, w)
    | _ => (UndefinedBehaviour, w)
    end.

(** Releasing the block at [p] with [how]; releasing a null pointer does
    nothing, releasing a block twice is undefined. *)
Definition release (how : Release) (p : cptr) : M E unit :=
  fun w =>
    match p with
    | nullptr => (Returns tt, w)
    | Ptr a =>
        match mark_released how a (heap w) with
        | Some hp => (Returns tt, {| engine_state := engine_state w;
                                     heap := hp; calls := calls w |})
        | None => (UndefinedBehaviour, w)
        end
    end.

Definition free : cptr -> M E unit := release NativeFree.
Definition Confsec_Free : cptr -> M E unit := release ConfsecFree.
Definition delete_array : cptr -> M E unit := release DeleteArray.

(** A [std::string] local holding [bs], alive for [body]: its buffer is
    released by the destructor when the enclosing block is left, however
    it is left.  [body] gets what [c_str()] returns. *)
Definition scoped_string {A} (bs : list byte) (body : cptr -> M E A)
  : M E A :=
  fun w =>
    let '(p, hp) := alloc ByStdString (CString.terminated bs) (heap w) in
    let '(o, w') := body p {| engine_state := engine_state w; heap := hp;
                              calls := calls w |} in
    match release Destructor p w' with
    | (Returns _, w'') => (o, w'')
    | (_, w'') => (UndefinedBehaviour, w'')
    end.

(** [new char[n + 1]] followed by [strcpy] from [src]. *)
Definition new_strcpy (src : cptr) : M E cptr :=
  bytes ← load src;
  image ← defined (CString.strcpy bytes);
  allocate ByNewArray image.

(** *** N-API conversions *)

(** [v.As<Napi::String>().Utf8Value()]: the UTF-8 encoding of a string.
    The wrappers apply it to a value that they have not checked in one
    place only, the elements of a tag array; there it "throws if not a
    string", in the words of line 24, which is what a build with C++
    exceptions does (a build without them goes on with the empty
    string).  The properties below that involve a tag array are stated
    for arrays of strings, where the build makes no difference. *)
Definition Utf8Value (v : JSValue) : M E (list byte) :=
  match v with
  | JSString s => mret (UTF8.encode s)
  | _ => throw Napi_TypeError "A string was expected"
  end.

(** [v.As<Napi::Number>().DoubleValue()] and [Int32Value()]. *)
Definition DoubleValue (v : JSValue) : M E spec_float :=
  match v with
  | JSNumber d => mret d
  | _ => throw Napi_TypeError "A number was expected"
  end.

Definition Int32Value (v : JSValue) : M E Z :=
  d ← DoubleValue v;
  mret (Double.to_int32 d).

(** [static_cast<uintptr_t>(v.As<Napi::Number>().DoubleValue())]. *)
Definition handle_of (v : JSValue) : M E Z :=
  d ← DoubleValue v;
  defined (Double.to_uintptr d).

(** [Napi::String::New(env, p)] for a [const char* p]: the C string at
    [p], decoded as UTF-8.  A null pointer is refused with an exception
    (no property below depends on its text). *)
Definition String_New (p : cptr) : M E JSValue :=
  match p with
  | nullptr => throw Napi_Error "Invalid argument"
  | _ =>
      bytes ← load p;
      s ← defined (CString.c_str bytes);
      mret (JSString (UTF8.decode s))
  end.

(** [Napi::Buffer<char>::Copy(env, p, strlen(p))]. *)
Definition Buffer_Copy_strlen (p : cptr) : M E JSValue :=
  bytes ← load p;
  n ← defined (CString.strlen bytes);
  mret (JSBuffer (take n bytes)).

(** *** Calling the engine *)

Definition materialise (b : option (list byte)) : M E cptr :=
  match b with
  | Some bs => allocate ByEngine bs
  | None => mret nullptr
  end.

(** Runs one entry point: the engine state advances, the call is
    recorded, and the error message, if any, becomes an engine-owned
    block. *)
Definition engine_call {A} (entry : EntryPoint) (args : list Arg)
    (ret_view : A -> RetView) (f : EState E -> Reply A * EState E)
  : M E (A * cptr) :=
  fun w =>
    let '((r, e), st) := f (engine_state w) in
    let w' := {| engine_state := st; heap := heap w;
                 calls := {| cr_entry := entry; cr_args := args;
                             cr_ret := ret_view r; cr_err := e |}
                          :: calls w |} in
    match materialise e w' with
    | (Returns err, w'') => (Returns (r, err), w'')
    | (_, w'') => (UndefinedBehaviour, w'')
    end.

(** The view of a pointer in the current heap. *)
Definition view_of (p : cptr) : M E ArgView :=
  fun w => (Returns (view (heap w) p), w).

Fixpoint views_of (ps : list cptr) : M E (list ArgView) :=
  match ps with
  | [] => mret []
  | p :: rest =>
      v ← view_of p;
      vs ← views_of rest;
      mret (v :: vs)
  end.

Fixpoint materialise_all (bs : list (list byte)) : M E (list cptr) :=
  match bs with
  | [] => mret []
  | b :: rest =>
      p ← allocate ByEngine b;
      ps ← materialise_all rest;
      mret (p :: ps)
  end.

(** *** Helpers of [confsec.cc] *)

(** The [HANDLE_ERROR] macro: with a message set, raise it as an
    [Error], release it with [free] and leave the wrapper.  The text of
    the [Error] is [string(err)], the C string at [err], decoded as UTF-8
    by [Napi::Error::New]. *)
Definition HANDLE_ERROR (err : cptr) : M E unit :=
  match err with
  | nullptr => mret tt
  | _ =>
      bytes ← load err;
      msg ← defined (CString.c_str bytes);
      free err;;
      throw Napi_Error (UTF8.decode msg)
  end.

Fixpoint JSArrayToCStringArray (jsArray : list JSValue) : M E (list cptr) :=
  match jsArray with
  | [] => mret []
  | element :: rest =>
      str ← Utf8Value element;
      cstr ← scoped_string str new_strcpy;
      result ← JSArrayToCStringArray rest;
      mret (cstr :: result)
  end.

Fixpoint FreeCStringArray (arr : list cptr) : M E unit :=
  match arr with
  | [] => mret tt
  | str :: rest => delete_array str;; FreeCStringArray rest
  end.

Definition As_Array (v : JSValue) : M E (list JSValue) :=
  match v with
  | JSArray elements => mret elements
  | _ => throw Napi_TypeError "An array was expected"
  end.

(** [requestBuffer.Data()] and [requestBuffer.Length()]: the backing
    store belongs to the JavaScript runtime and outlives the call.  An
    empty buffer has no backing store: its [Data()] is a null pointer. *)
Definition Buffer_Data (v : JSValue) : M E (cptr * nat) :=
  match v with
  | JSBuffer [] => mret (nullptr, O)
  | JSBuffer data =>
      p ← allocate ByJSRuntime data;
      mret (p, length data)
  | _ => throw Napi_TypeError "A buffer was expected"
  end.

(** *** The wrappers *)

Definition ConfsecClientCreate (info : list JSValue) : M E JSValue :=
  if (length info <? 5)%nat then
    throw Napi_TypeError "Expected 5 arguments"
  else if negb (IsString (info_at info 0)) then
    throw Napi_TypeError "API key must be a string"
  else if negb (IsNumber (info_at info 1)) then
    throw Napi_TypeError "Concurrent requests target must be a number"
  else if negb (IsNumber (info_at info 2)) then
    throw Napi_TypeError "Max candidate nodes must be a number"
  else if negb (IsArray (info_at info 3)) then
    throw Napi_TypeError "Default node tags must be an array"
  else if negb (IsString (info_at info 4)) && negb (IsNull (info_at info 4)) then
    throw Napi_TypeError "Environment must be a string or null"
  else
    apiKeyStr ← Utf8Value (info_at info 0);
    scoped_string apiKeyStr (fun apiKey =>
      concurrentRequestsTarget ← Int32Value (info_at info 1);
      maxCandidateNodes ← Int32Value (info_at info 2);
      defaultNodeTagsArray ← As_Array (info_at info 3);
      defaultNodeTags ← JSArrayToCStringArray defaultNodeTagsArray;
      env_param ←
        (if IsString (info_at info 4) then
           envStr ← Utf8Value (info_at info 4);
           scoped_string envStr new_strcpy
         else mret nullptr);
      apiKey_v ← view_of apiKey;
      tags_v ← views_of defaultNodeTags;
      env_v ← view_of env_param;
      '(handle, err) ←
        engine_call EP_ClientCreate
          [ArgPtr apiKey_v; ArgInt concurrentRequestsTarget;
           ArgInt maxCandidateNodes; ArgPtrs tags_v;
           ArgSize (length defaultNodeTags); ArgPtr env_v]
          RHandle
          (Confsec_ClientCreate E apiKey_v concurrentRequestsTarget
             maxCandidateNodes tags_v (length defaultNodeTags) env_v);
      FreeCStringArray defaultNodeTags;;
      (if is_null env_param then mret tt else delete_array env_param);;
      HANDLE_ERROR err;;
      if handle =? 0 then
        throw Napi_Error "Unexpected error creating client"
      else mret (JSNumber (Double.of_Z handle))).

Definition ConfsecClientDestroy (info : list JSValue) : M E JSValue :=
  if (length info <? 1)%nat || negb (IsNumber (info_at info 0)) then
    throw Napi_TypeError "Expected handle as number"
  else
    handle ← handle_of (info_at info 0);
    '(_, err) ←
      engine_call EP_ClientDestroy [ArgHandle handle] (fun _ => RVoid)
        (Confsec_ClientDestroy E handle);
    HANDLE_ERROR err;;
    mret JSUndefined.

Definition ConfsecClientGetDefaultCreditAmountPerRequest
    (info : list JSValue) : M E JSValue :=
  if (length info <? 1)%nat || negb (IsNumber (info_at info 0)) then
    throw Napi_TypeError "Expected handle as number"
  else
    handle ← handle_of (info_at info 0);
    '(defaultCreditAmount, err) ←
      engine_call EP_ClientGetDefaultCreditAmountPerRequest
        [ArgHandle handle] RInt
        (Confsec_ClientGetDefaultCreditAmountPerRequest E handle);
    HANDLE_ERROR err;;
    mret (JSNumber (Double.of_Z defaultCreditAmount)).

Definition ConfsecClientGetMaxCandidateNodes (info : list JSValue)
  : M E JSValue :=
  if (length info <? 1)%nat || negb (IsNumber (info_at info 0)) then
    throw Napi_TypeError "Expected handle as number"
  else
    handle ← handle_of (info_at info 0);
    '(maxCandidateNodes, err) ←
      engine_call EP_ClientGetMaxCandidateNodes [ArgHandle handle] RInt
        (Confsec_ClientGetMaxCandidateNodes E handle);
    HANDLE_ERROR err;;
    mret (JSNumber (Double.of_Z maxCandidateNodes)).

(** The loop filling [result[i]] for [i] from [i] up to [i + n]. *)
Fixpoint tags_to_strings (defaultNodeTags : list cptr) (i n : nat)
  : M E (list JSValue) :=
  match n with
  | O => mret []
  | S n' =>
      p ← defined (defaultNodeTags !! i);
      s ← String_New p;
      rest ← tags_to_strings defaultNodeTags (S i) n';
      mret (s :: rest)
  end.

Definition ConfsecClientGetDefaultNodeTags (info : list JSValue)
  : M E JSValue :=
  if (length info <? 1)%nat || negb (IsNumber (info_at info 0)) then
    throw Napi_TypeError "Expected handle as number"
  else
    handle ← handle_of (info_at info 0);
    '((tags, defaultNodeTagsCount), err) ←
      engine_call EP_ClientGetDefaultNodeTags [ArgHandle handle]
        (fun r => RTags (fst r) (snd r))
        (Confsec_ClientGetDefaultNodeTags E handle);
    defaultNodeTags ← materialise_all tags;
    HANDLE_ERROR err;;
    result ← tags_to_strings defaultNodeTags 0 defaultNodeTagsCount;
    mret (JSArray result).

Definition ConfsecClientSetDefaultNodeTags (info : list JSValue)
  : M E JSValue :=
  if (length info <? 2)%nat || negb (IsNumber (info_at info 0))
     || negb (IsArray (info_at info 1)) then
    throw Napi_TypeError "Expected handle as number and tags as array"
  else
    handle ← handle_of (info_at info 0);
    defaultNodeTagsArray ← As_Array (info_at info 1);
    defaultNodeTags ← JSArrayToCStringArray defaultNodeTagsArray;
    tags_v ← views_of defaultNodeTags;
    '(_, err) ←
      engine_call EP_ClientSetDefaultNodeTags
        [ArgHandle handle; ArgPtrs tags_v; ArgSize (length defaultNodeTags)]
        (fun _ => RVoid)
        (Confsec_ClientSetDefaultNodeTags E handle tags_v
           (length defaultNodeTags));
    FreeCStringArray defaultNodeTags;;
    HANDLE_ERROR err;;
    mret JSUndefined.

Definition ConfsecClientGetWalletStatus (info : list JSValue)
  : M E JSValue :=
  if (length info <? 1)%nat || negb (IsNumber (info_at info 0)) then
    throw Napi_TypeError "Expected handle as number"
  else
    handle ← handle_of (info_at info 0);
    '(ret, err) ←
      engine_call EP_ClientGetWalletStatus [ArgHandle handle] RStr
        (Confsec_ClientGetWalletStatus E handle);
    walletStatus ← materialise ret;
    HANDLE_ERROR err;;
    result ← String_New walletStatus;
    Confsec_Free walletStatus;;
    mret result.

(** Lines 237-248: the request pointer and length, from a string or
    from a buffer.  [requestStr] is a local of the [if] block. *)
Definition request_of (payload : JSValue) : M E (cptr * nat) :=
  if IsString payload then
    requestStr ← Utf8Value payload;
    scoped_string requestStr (fun c_str =>
      mret (c_str, length requestStr))
  else
    Buffer_Data payload.

Definition ConfsecClientDoRequest (info : list JSValue) : M E JSValue :=
  if (length info <? 2)%nat || negb (IsNumber (info_at info 0))
     || (negb (IsString (info_at info 1))
         && negb (IsBuffer (info_at info 1))) then
    throw Napi_TypeError
      "Expected handle as number and request as string or buffer"
  else
    handle ← handle_of (info_at info 0);
    '(request, requestLength) ← request_of (info_at info 1);
    request_v ← view_of request;
    '(responseHandle, err) ←
      engine_call EP_ClientDoRequest
        [ArgHandle handle; ArgPtr request_v; ArgSize requestLength]
        RHandle
        (Confsec_ClientDoRequest E handle request_v requestLength);
    HANDLE_ERROR err;;
    if responseHandle =? 0 then
      throw Napi_Error "Unexpected request failure"
    else mret (JSNumber (Double.of_Z responseHandle)).

Definition ConfsecResponseDestroy (info : list JSValue) : M E JSValue :=
  if (length info <? 1)%nat || negb (IsNumber (info_at info 0)) then
    throw Napi_TypeError "Expected handle as number"
  else
    handle ← handle_of (info_at info 0);
    '(_, err) ←
      engine_call EP_ResponseDestroy [ArgHandle handle] (fun _ => RVoid)
        (Confsec_ResponseDestroy E handle);
    HANDLE_ERROR err;;
    mret JSUndefined.

Definition ConfsecResponseGetMetadata (info : list JSValue) : M E JSValue :=
  if (length info <? 1)%nat || negb (IsNumber (info_at info 0)) then
    throw Napi_TypeError "Expected handle as number"
  else
    handle ← handle_of (info_at info 0);
    '(ret, err) ←
      engine_call EP_ResponseGetMetadata [ArgHandle handle] RStr
        (Confsec_ResponseGetMetadata E handle);
    metadata ← materialise ret;
    HANDLE_ERROR err;;
    if is_null metadata then
      throw Napi_Error "Unexpected error getting request metadata"
    else
      result ← Buffer_Copy_strlen metadata;
      Confsec_Free metadata;;
      mret result.

Definition ConfsecResponseIsStreaming (info : list JSValue) : M E JSValue :=
  if (length info <? 1)%nat || negb (IsNumber (info_at info 0)) then
    throw Napi_TypeError "Expected handle as number"
  else
    handle ← handle_of (info_at info 0);
    '(isStreaming, err) ←
      engine_call EP_ResponseIsStreaming [ArgHandle handle] RBool
        (Confsec_ResponseIsStreaming E handle);
    HANDLE_ERROR err;;
    mret (JSBoolean isStreaming).

Definition ConfsecResponseGetBody (info : list JSValue) : M E JSValue :=
  if (length info <? 1)%nat || negb (IsNumber (info_at info 0)) then
    throw Napi_TypeError "Expected handle as number"
  else
    handle ← handle_of (info_at info 0);
    '(ret, err) ←
      engine_call EP_ResponseGetBody [ArgHandle handle] RStr
        (Confsec_ResponseGetBody E handle);
    body ← materialise ret;
    HANDLE_ERROR err;;
    if is_null body then
      throw Napi_Error "Unexpected error getting request body"
    else
      result ← Buffer_Copy_strlen body;
      Confsec_Free body;;
      mret result.

Definition ConfsecResponseGetStream (info : list JSValue) : M E JSValue :=
  if (length info <? 1)%nat || negb (IsNumber (info_at info 0)) then
    throw Napi_TypeError "Expected handle as number"
  else
    handle ← handle_of (info_at info 0);
    '(streamHandle, err) ←
      engine_call EP_ResponseGetStream [ArgHandle handle] RHandle
        (Confsec_ResponseGetStream E handle);
    HANDLE_ERROR err;;
    if streamHandle =? 0 then
      throw Napi_Error "Unexpected error getting response stream"
    else mret (JSNumber (Double.of_Z streamHandle)).

Definition ConfsecResponseStreamGetNext (info : list JSValue)
  : M E JSValue :=
  if (length info <? 1)%nat || negb (IsNumber (info_at info 0)) then
    throw Napi_TypeError "Expected handle as number"
  else
    handle ← handle_of (info_at info 0);
    '(ret, err) ←
      engine_call EP_ResponseStreamGetNext [ArgHandle handle] RStr
        (Confsec_ResponseStreamGetNext E handle);
    chunk ← materialise ret;
    HANDLE_ERROR err;;
    if is_null chunk then
      mret JSNull
    else
      result ← Buffer_Copy_strlen chunk;
      Confsec_Free chunk;;
      mret result.

Definition ConfsecResponseStreamDestroy (info : list JSValue)
  : M E JSValue :=
  if (length info <? 1)%nat || negb (IsNumber (info_at info 0)) then
    throw Napi_TypeError "Expected handle as number"
  else
    handle ← handle_of (info_at info 0);
    '(_, err) ←
      engine_call EP_ResponseStreamDestroy [ArgHandle handle]
        (fun _ => RVoid)
        (Confsec_ResponseStreamDestroy E handle);
    HANDLE_ERROR err;;
    mret JSUndefined.

End Boundary.

(** *** Module initialisation: the exported names *)

Inductive Export :=
| confsecClientCreate
| confsecClientDestroy
| confsecClientGetDefaultCreditAmountPerRequest
| confsecClientGetMaxCandidateNodes
| confsecClientGetDefaultNodeTags
| confsecClientSetDefaultNodeTags
| confsecClientGetWalletStatus
| confsecClientDoRequest
| confsecResponseDestroy
| confsecResponseGetMetadata
| confsecResponseIsStreaming
| confsecResponseGetBody
| confsecResponseGetStream
| confsecResponseStreamGetNext
| confsecResponseStreamDestroy.

Definition Init {E : Engine} (name : Export) : list JSValue -> M E JSValue :=
  match name with
  | confsecClientCreate => ConfsecClientCreate
  | confsecClientDestroy => ConfsecClientDestroy
  | confsecClientGetDefaultCreditAmountPerRequest =>
      ConfsecClientGetDefaultCreditAmountPerRequest
  | confsecClientGetMaxCandidateNodes => ConfsecClientGetMaxCandidateNodes
  | confsecClientGetDefaultNodeTags => ConfsecClientGetDefaultNodeTags
  | confsecClientSetDefaultNodeTags => ConfsecClientSetDefaultNodeTags
  | confsecClientGetWalletStatus => ConfsecClientGetWalletStatus
  | confsecClientDoRequest => ConfsecClientDoRequest
  | confsecResponseDestroy => ConfsecResponseDestroy
  | confsecResponseGetMetadata => ConfsecResponseGetMetadata
  | confsecResponseIsStreaming => ConfsecResponseIsStreaming
  | confsecResponseGetBody => ConfsecResponseGetBody
  | confsecResponseGetStream => ConfsecResponseGetStream
  | confsecResponseStreamGetNext => ConfsecResponseStreamGetNext
  | confsecResponseStreamDestroy => ConfsecResponseStreamDestroy
  end.


(** ** Engines to run the wrappers against *)

(** A scripted engine, for exercising the wrappers on replies of our
    choosing: it has no state, and every entry point answers with the same
    handle, payload and error message. *)
Definition scripted (handle : Z) (payload err : option (list byte)) : Engine :=
  {| EState := unit;
     Confsec_ClientCreate := fun _ _ _ _ _ _ st => ((handle, err), st);
     Confsec_ClientDestroy := fun _ st => ((tt, err), st);
     Confsec_ClientGetDefaultCreditAmountPerRequest :=
       fun _ st => ((0, err), st);
     Confsec_ClientGetMaxCandidateNodes := fun _ st => ((0, err), st);
     Confsec_ClientGetDefaultNodeTags := fun _ st => ((([], O), err), st);
     Confsec_ClientSetDefaultNodeTags := fun _ _ _ st => ((tt, err), st);
     Confsec_ClientGetWalletStatus := fun _ st => ((payload, err), st);
     Confsec_ClientDoRequest := fun _ _ _ st => ((handle, err), st);
     Confsec_ResponseDestroy := fun _ st => ((tt, err), st);
     Confsec_ResponseGetMetadata := fun _ st => ((payload, err), st);
     Confsec_ResponseIsStreaming := fun _ st => ((false, err), st);
     Confsec_ResponseGetBody := fun _ st => ((payload, err), st);
     Confsec_ResponseGetStream := fun _ st => ((handle, err), st);
     Confsec_ResponseStreamGetNext := fun _ st => ((payload, err), st);
     Confsec_ResponseStreamDestroy := fun _ st => ((tt, err), st) |}.

(** The world a wrapper starts in: nothing allocated, nothing called. *)
Definition fresh {E : Engine} (st : EState E) : World E :=
  {| engine_state := st; heap := []; calls := [] |}.

Definition scripted_world (handle : Z) (payload err : option (list byte))
  : World (scripted handle payload err) :=
  fresh (E := scripted handle payload err) tt.

Module SpecEngine.

(** Modelled from the spec: the engine behind [libconfsec.h], which is
    not part of the sources.  Sections 3, 4 and 6 of the specification
    give its resource table, the three kinds of resource and what each
    entry point does; what the specification leaves opaque (routing,
    credit pricing, the wallet) is the [Backend] parameter. *)

Record Client := {
  apiKey : list byte;
  concurrentRequestsTarget : Z;
  maxCandidateNodes : Z;
  defaultNodeTags : list (list byte);
  environment : option (list byte)
}.

Record Response := {
  isStreaming : bool;
  metadata : list byte;
  body : list byte;
  chunks : list (list byte)
}.

Inductive Resource :=
| RClient (c : Client)
| RResponse (r : Response)
| RStream (remaining : list (list byte)).

Record Backend := {
  serve : list byte -> Response + list byte;
  credit_per_request : Z;
  wallet_status : list byte
}.

Record State := {
  table : gmap Z Resource;
  next_handle : Z
}.

Definition empty : State := {| table := ∅; next_handle := 1 |}.

Definition register (r : Resource) (st : State) : Z * State :=
  (next_handle st,
   {| table := <[next_handle st := r]> (table st);
      next_handle := next_handle st + 1 |}).

Definition unregister (h : Z) (st : State) : State :=
  {| table := delete h (table st); next_handle := next_handle st |}.

Definition client_at (h : Z) (st : State) : option Client :=
  match table st !! h with Some (RClient c) => Some c | _ => None end.

Definition response_at (h : Z) (st : State) : option Response :=
  match table st !! h with Some (RResponse r) => Some r | _ => None end.

Definition stream_at (h : Z) (st : State) : option (list (list byte)) :=
  match table st !! h with Some (RStream cs) => Some cs | _ => None end.

(** The engine reads a [char*] argument as a C string. *)
Definition read_c_str (v : ArgView) : option (list byte) :=
  match v with
  | AData bs => CString.c_str bs
  | _ => None
  end.

Fixpoint read_c_strs (vs : list ArgView) : option (list (list byte)) :=
  match vs with
  | [] => Some []
  | v :: rest =>
      match read_c_str v, read_c_strs rest with
      | Some s, Some ss => Some (s :: ss)
      | _, _ => None
      end
  end.

Definition ok {A} (a : A) (st : State) : Reply A * State := ((a, None), st).

Definition fail {A} (a : A) (msg : string) (st : State)
  : Reply A * State :=
  ((a, Some (CString.terminated (UTF8.encode msg))), st).

Section WithBackend.

Variable B : Backend.

Definition ClientCreate (key : ArgView) (target nodes : Z)
    (tags : list ArgView) (count : nat) (env : ArgView) (st : State)
  : Reply Z * State :=
  match read_c_str key, read_c_strs (take count tags) with
  | Some k, Some ts =>
      if (length k =? 0)%nat || (target <=? 0) || (nodes <=? 0) then
        fail 0 "invalid configuration" st
      else
        match env with
        | ADangling => fail 0 "invalid configuration" st
        | _ =>
            let '(h, st') :=
              register (RClient {| apiKey := k;
                                   concurrentRequestsTarget := target;
                                   maxCandidateNodes := nodes;
                                   defaultNodeTags := ts;
                                   environment := read_c_str env |}) st in
            ok h st'
        end
  | _, _ => fail 0 "invalid configuration" st
  end.

Definition ClientDestroy (h : Z) (st : State) : Reply unit * State :=
  match client_at h st with
  | Some _ => ok tt (unregister h st)
  | None => fail tt "invalid handle" st
  end.

Definition ClientGetDefaultCreditAmountPerRequest (h : Z) (st : State)
  : Reply Z * State :=
  match client_at h st with
  | Some _ => ok (credit_per_request B) st
  | None => fail 0 "invalid handle" st
  end.

Definition ClientGetMaxCandidateNodes (h : Z) (st : State)
  : Reply Z * State :=
  match client_at h st with
  | Some c => ok (maxCandidateNodes c) st
  | None => fail 0 "invalid handle" st
  end.

(** Modelled from the spec: [ClientGetDefaultNodeTags] of the engine,
    which is not in the sources.  Section 4.1: it reflects the current
    value, including values set by [SetDefaultNodeTags]. *)
Definition ClientGetDefaultNodeTags (h : Z) (st : State)
  : Reply (list (list byte) * nat) * State :=
  match client_at h st with
  | Some c =>
      ok (map CString.terminated (defaultNodeTags c),
          length (defaultNodeTags c)) st
  | None => fail ([], O) "invalid handle" st
  end.

(** Modelled from the spec: [ClientSetDefaultNodeTags] of the engine,
    which is not in the sources.  Section 4.1: it replaces the entire tag
    sequence, it does not merge. *)
Definition ClientSetDefaultNodeTags (h : Z) (tags : list ArgView)
    (count : nat) (st : State) : Reply unit * State :=
  match client_at h st, read_c_strs (take count tags) with
  | Some c, Some ts =>
      ok tt {| table :=
                 <[h := RClient {| apiKey := apiKey c;
                                   concurrentRequestsTarget :=
                                     concurrentRequestsTarget c;
                                   maxCandidateNodes := maxCandidateNodes c;
                                   defaultNodeTags := ts;
                                   environment := environment c |}]>
                   (table st);
               next_handle := next_handle st |}
  | Some _, None => fail tt "invalid tags" st
  | None, _ => fail tt "invalid handle" st
  end.

Definition ClientGetWalletStatus (h : Z) (st : State)
  : Reply (option (list byte)) * State :=
  match client_at h st with
  | Some _ => ok (Some (CString.terminated (wallet_status B))) st
  | None => fail None "invalid handle" st
  end.

Definition ClientDoRequest (h : Z) (request : ArgView) (len : nat)
    (st : State) : Reply Z * State :=
  match client_at h st, request with
  | Some _, AData bs =>
      match serve B (take len bs) with
      | inl r => let '(rh, st') := register (RResponse r) st in ok rh st'
      | inr msg =>
          ((0, Some (CString.terminated msg)), st)
      end
  | Some _, _ => fail 0 "invalid request" st
  | None, _ => fail 0 "invalid handle" st
  end.

Definition ResponseDestroy (h : Z) (st : State) : Reply unit * State :=
  match response_at h st with
  | Some _ => ok tt (unregister h st)
  | None => fail tt "invalid handle" st
  end.

Definition ResponseGetMetadata (h : Z) (st : State)
  : Reply (option (list byte)) * State :=
  match response_at h st with
  | Some r => ok (Some (CString.terminated (metadata r))) st
  | None => fail None "invalid handle" st
  end.

Definition ResponseIsStreaming (h : Z) (st : State)
  : Reply bool * State :=
  match response_at h st with
  | Some r => ok (isStreaming r) st
  | None => fail false "invalid handle" st
  end.

Definition ResponseGetBody (h : Z) (st : State)
  : Reply (option (list byte)) * State :=
  match response_at h st with
  | Some r =>
      if isStreaming r then fail None "response is streaming" st
      else ok (Some (CString.terminated (body r))) st
  | None => fail None "invalid handle" st
  end.

Definition ResponseGetStream (h : Z) (st : State) : Reply Z * State :=
  match response_at h st with
  | Some r =>
      if isStreaming r then
        let '(sh, st') := register (RStream (chunks r)) st in ok sh st'
      else fail 0 "response is not streaming" st
  | None => fail 0 "invalid handle" st
  end.

(** The end of the stream is a null chunk with no error, and stays. *)
Definition ResponseStreamGetNext (h : Z) (st : State)
  : Reply (option (list byte)) * State :=
  match stream_at h st with
  | Some (c :: rest) =>
      ok (Some (CString.terminated c))
         {| table := <[h := RStream rest]> (table st);
            next_handle := next_handle st |}
  | Some [] => ok None st
  | None => fail None "invalid handle" st
  end.

Definition ResponseStreamDestroy (h : Z) (st : State)
  : Reply unit * State :=
  match stream_at h st with
  | Some _ => ok tt (unregister h st)
  | None => fail tt "invalid handle" st
  end.

(** Modelled from the spec: the engine as a whole, one transition per
    entry point of section 6. *)
Definition engine : Engine :=
  {| EState := State;
     Confsec_ClientCreate := ClientCreate;
     Confsec_ClientDestroy := ClientDestroy;
     Confsec_ClientGetDefaultCreditAmountPerRequest :=
       ClientGetDefaultCreditAmountPerRequest;
     Confsec_ClientGetMaxCandidateNodes := ClientGetMaxCandidateNodes;
     Confsec_ClientGetDefaultNodeTags := ClientGetDefaultNodeTags;
     Confsec_ClientSetDefaultNodeTags := ClientSetDefaultNodeTags;
     Confsec_ClientGetWalletStatus := ClientGetWalletStatus;
     Confsec_ClientDoRequest := ClientDoRequest;
     Confsec_ResponseDestroy := ResponseDestroy;
     Confsec_ResponseGetMetadata := ResponseGetMetadata;
     Confsec_ResponseIsStreaming := ResponseIsStreaming;
     Confsec_ResponseGetBody := ResponseGetBody;
     Confsec_ResponseGetStream := ResponseGetStream;
     Confsec_ResponseStreamGetNext := ResponseStreamGetNext;
     Confsec_ResponseStreamDestroy := ResponseStreamDestroy |}.

End WithBackend.

End SpecEngine.

(** The world [w] with another heap. *)
Definition with_heap {E : Engine} (hp : list Block) (w : World E) : World E :=
  {| engine_state := engine_state w; heap := hp; calls := calls w |}.

(** A block as [release] leaves it. *)
Definition released (how : Release) (b : Block) : Block :=
  {| content := content b; allocator := allocator b; state := Released how |}.

(** ** What the claims speak about *)

(** The arguments an export accepts, by number and kind: a handle is a
    number, tags are an array, a request is a string or a buffer, the
    environment is a string or null. *)
Definition well_formed (name : Export) (info : list JSValue) : bool :=
  match name with
  | confsecClientCreate =>
      (5 <=? length info)%nat
      && IsString (info_at info 0)
      && IsNumber (info_at info 1)
      && IsNumber (info_at info 2)
      && IsArray (info_at info 3)
      && (IsString (info_at info 4) || IsNull (info_at info 4))
  | confsecClientSetDefaultNodeTags =>
      (2 <=? length info)%nat
      && IsNumber (info_at info 0)
      && IsArray (info_at info 1)
  | confsecClientDoRequest =>
      (2 <=? length info)%nat
      && IsNumber (info_at info 0)
      && (IsString (info_at info 1) || IsBuffer (info_at info 1))
  | _ =>
      (1 <=? length info)%nat && IsNumber (info_at info 0)
  end.

(** The five kinds of failure of section 7 of the specification. *)
Inductive ErrorKind :=
| ConfigurationError
| InvalidHandleError
| RequestError
| StreamError
| InternalError.

(** The blocks [JSArrayToCStringArray] leaves behind for the strings [ss]
    and the pointers it returns, when it starts with [base] blocks
    allocated: per string, the temporary [str], already destroyed, and
    the copy made with [new char[]], in state [st]. *)
Definition tag_blocks (st : BlockState) (ss : list (list byte)) : list Block :=
  flat_map (fun s =>
    [ {| content := CString.terminated s; allocator := ByStdString;
         state := Released Destructor |};
      {| content := CString.terminated (CString.until_nul s);
         allocator := ByNewArray; state := st |} ]) ss.

Fixpoint tag_ptrs (base : nat) (ss : list (list byte)) : list cptr :=
  match ss with
  | [] => []
  | _ :: rest => Ptr (S base) :: tag_ptrs (S (S base)) rest
  end.

(** The strings of an array all of whose elements are strings. *)
Fixpoint strings_of (l : list JSValue) : option (list (list byte)) :=
  match l with
  | [] => Some []
  | JSString s :: rest =>
      match strings_of rest with
      | Some ss => Some (UTF8.encode s :: ss)
      | None => None
      end
  | _ :: _ => None
  end.

(** Small values for examples. *)
Definition number (n : Z) : JSValue := JSNumber (Double.of_Z n).

Definition c_string (s : js_string) : list byte :=
  CString.terminated (UTF8.encode s).

(** ** Worlds for examples *)

(** A backend that answers every request with a buffered response whose
    body is the request. *)
Definition echo : SpecEngine.Backend :=
  {| SpecEngine.serve := fun request =>
       inl {| SpecEngine.isStreaming := false;
              SpecEngine.metadata := [];
              SpecEngine.body := request;
              SpecEngine.chunks := [] |};
     SpecEngine.credit_per_request := 1;
     SpecEngine.wallet_status := [] |}.

(** The world after [Create("key123", 10, 5, ["tag1"], null)]: one client,
    with handle 1. *)
Definition one_client : World (SpecEngine.engine echo) :=
  (ConfsecClientCreate
     [JSString "key123"; number 10; number 5; JSArray [JSString "tag1"];
      JSNull]
     (fresh (E := SpecEngine.engine echo) SpecEngine.empty)).2.

(** The text [a], a zero byte, [b]. *)
Definition a_nul_b : js_string := [97; 0; 98].

(** The one character U+00E9, which takes two bytes in UTF-8. *)
Definition e_acute : js_string := [0xE9].

(** A high surrogate on its own: a JavaScript string that is not
    well-formed UTF-16. *)
Definition lone_surrogate : js_string := [0xD800].

(** The bytes [b], [FF], [d]: not well-formed UTF-8. *)
Definition b_ff_d : list byte := [x62; xff; x64].

(** The blocks of a heap that the engine allocated. *)
Definition engine_blocks (hp : list Block) : list Block :=
  List.filter (fun b => match allocator b with
                        | ByEngine => true
                        | _ => false
                        end) hp.

(** What the engine sees of the environment argument of
    [ConfsecClientCreate]: nothing for null, the copy made of a string. *)
Definition env_view (env : JSValue) : ArgView :=
  match env with
  | JSString s =>
      AData (CString.terminated (CString.until_nul (UTF8.encode s)))
  | _ => ANull
  end.

(** What the engine sees of a tag copied by [JSArrayToCStringArray]. *)
Definition tag_view (s : list byte) : ArgView :=
  AData (CString.terminated (CString.until_nul s)).

(** How a wrapper that returns a handle ends, given the engine's reply:
    [HANDLE_ERROR] first, then the test for a zero handle. *)
Definition handle_outcome (unexpected : js_string) (handle : Z)
    (err : option (list byte)) : Outcome JSValue :=
  match err with
  | Some blk =>
      match CString.c_str blk with
      | Some msg => Throws (JSError Napi_Error (UTF8.decode msg))
      | None => UndefinedBehaviour
      end
  | None =>
      if handle =? 0 then Throws (JSError Napi_Error unexpected)
      else Returns (JSNumber (Double.of_Z handle))
  end.

(** How a wrapper that returns nothing ends. *)
Definition void_outcome (err : option (list byte)) : Outcome JSValue :=
  match err with
  | Some blk =>
      match CString.c_str blk with
      | Some msg => Throws (JSError Napi_Error (UTF8.decode msg))
      | None => UndefinedBehaviour
      end
  | None => Returns JSUndefined
  end.

(** A block the engine hands out. *)
Definition engine_block (bs : list byte) : Block :=
  {| content := bs; allocator := ByEngine; state := Live |}.

(** What the loop of [ConfsecClientGetDefaultNodeTags] reads from the
    engine's array [tags] at positions [i], ..., [i + n - 1]; [None] when
    it runs past the array or reads an unterminated string. *)
Fixpoint read_tags (tags : list (list byte)) (i n : nat)
  : option (list JSValue) :=
  match n with
  | O => Some []
  | S n' =>
      match tags !! i with
      | Some blk =>
          match CString.c_str blk with
          | Some s =>
              match read_tags tags (S i) n' with
              | Some r => Some (JSString (UTF8.decode s) :: r)
              | None => None
              end
          | None => None
          end
      | None => None
      end
  end.

(** How [ConfsecClientGetDefaultNodeTags] ends, given the engine's reply. *)
Definition tags_outcome (tags : list (list byte)) (count : nat)
    (err : option (list byte)) : Outcome JSValue :=
  match err with
  | Some blk =>
      match CString.c_str blk with
      | Some msg => Throws (JSError Napi_Error (UTF8.decode msg))
      | None => UndefinedBehaviour
      end
  | None =>
      match read_tags tags 0 count with
      | Some r => Returns (JSArray r)
      | None => UndefinedBehaviour
      end
  end.

(** ** Reasoning about wrappers

    [wp m Q w]: running [m] from the world [w] ends in an outcome and a
    world that satisfy [Q]; [bindQ k Q] is what the first half of a
    sequence has to establish for the whole to establish [Q]. *)

Definition wp {E : Engine} {A} (m : M E A) (Q : Outcome A -> World E -> Prop)
    (w : World E) : Prop :=
  Q (m w).1 (m w).2.

Definition bindQ {E : Engine} {A B} (k : A -> M E B) (Q : Outcome B -> World E -> Prop)
  : Outcome A -> World E -> Prop :=
  fun o w =>
    match o with
    | Returns a => wp (k a) Q w
    | Throws e => Q (Throws e) w
    | UndefinedBehaviour => Q UndefinedBehaviour w
    end.

(** ** What the further properties speak about *)


(** The first argument of a handle-taking export is a number whose
    integer part does not fit [uintptr_t]: NaN, an infinity, a negative
    number at or below -1, or a number at or above [2^64]. *)
Definition handle_out_of_range (name : Export) (info : list JSValue) : bool :=
  match name with
  | confsecClientCreate => false
  | _ =>
      match info_at info 0 with
      | JSNumber d =>
          match Double.to_uintptr d with
          | Some _ => false
          | None => true
          end
      | _ => false
      end
  end.

(** The elements of the tag array of the two exports that take one. *)
Definition tags_argument (name : Export) (info : list JSValue)
  : list JSValue :=
  match name with
  | confsecClientCreate =>
      match info_at info 3 with JSArray l => l | _ => [] end
  | confsecClientSetDefaultNodeTags =>
      match info_at info 1 with JSArray l => l | _ => [] end
  | _ => []
  end.

(** Memory the wrapper itself allocates: [new char[]] copies and the
    buffers of [std::string] locals. *)
Definition wrapper_owned (b : Block) : bool :=
  match allocator b with
  | ByNewArray | ByStdString => true
  | ByEngine | ByJSRuntime => false
  end.

(** Every wrapper-owned block of [ext] has been released, by the function
    that matches its allocator. *)
Definition all_released (ext : list Block) : Prop :=
  Forall (fun b => wrapper_owned b = true ->
                   state b = Released (matching (allocator b))) ext.

(** What is left of the engine's error message once [HANDLE_ERROR] has
    run: the block, released with [free] when its text could be read. *)
Definition err_blocks (e : option (list byte)) : list Block :=
  match e with
  | Some blk =>
      [ match CString.c_str blk with
        | Some _ => released NativeFree (engine_block blk)
        | None => engine_block blk
        end ]
  | None => []
  end.

(** What [ConfsecClientCreate] leaves of the environment argument: for a
    string, the temporary [envStr] and the copy [env_param], both
    released. *)
Definition env_blocks (env : JSValue) : list Block :=
  match env with
  | JSString s => tag_blocks (Released DeleteArray) [UTF8.encode s]
  | _ => []
  end.




(** How a wrapper that returns an integer or a flag ends. *)
Definition value_outcome (v : JSValue) (err : option (list byte))
  : Outcome JSValue :=
  match err with
  | Some blk =>
      match CString.c_str blk with
      | Some msg => Throws (JSError Napi_Error (UTF8.decode msg))
      | None => UndefinedBehaviour
      end
  | None => Returns v
  end.

(** The world after a wrapper that made one engine call: the engine's
    new state, the blocks [ext] added at the end of the heap, and the
    call on top of the log. *)
Definition after_call {E : Engine} (w : World E) (st : EState E)
    (ext : list Block) (rec : CallRecord) : World E :=
  {| engine_state := st; heap := heap w ++ ext; calls := rec :: calls w |}.

(** What the engine sees of a request buffer, and the block behind it:
    an empty buffer has neither. *)
Definition buffer_view (data : list byte) : ArgView :=
  match data with
  | [] => ANull
  | _ => AData data
  end.


(** The run [run], started in [w], ended with the engine's error raised:
    the caller gets an [Error] whose text is the message [msg] decoded as
    UTF-8, the engine was called once, through [entry], reported the
    message block [blk], and is left in the state [st] of its reply. *)
Definition raises {E : Engine} (w : World E) (entry : EntryPoint)
    (blk msg : list byte) (st : EState E)
    (run : Outcome JSValue * World E) : Prop :=
  run.1 = Throws (JSError Napi_Error (UTF8.decode msg))
  /\ engine_state run.2 = st
  /\ exists rec,
       calls run.2 = rec :: calls w
       /\ cr_entry rec = entry /\ cr_err rec = Some blk.

(** An engine that answers [Confsec_ClientCreate] with a handle that
    tells what it was handed as environment: 1 for a null pointer, 2 for
    a pointer to the empty string, 3 for a pointer to anything else. *)
Definition env_probe : Engine :=
  {| EState := unit;
     Confsec_ClientCreate := fun _ _ _ _ _ env st =>
       ((match env with
         | ANull => 1
         | AData [b] => if Byte.eqb b CString.NUL then 2 else 3
         | _ => 3
         end, None), st);
     Confsec_ClientDestroy := fun _ st => ((tt, None), st);
     Confsec_ClientGetDefaultCreditAmountPerRequest :=
       fun _ st => ((0, None), st);
     Confsec_ClientGetMaxCandidateNodes := fun _ st => ((0, None), st);
     Confsec_ClientGetDefaultNodeTags := fun _ st => ((([], O), None), st);
     Confsec_ClientSetDefaultNodeTags := fun _ _ _ st => ((tt, None), st);
     Confsec_ClientGetWalletStatus := fun _ st => ((None, None), st);
     Confsec_ClientDoRequest := fun _ _ _ st => ((0, None), st);
     Confsec_ResponseDestroy := fun _ st => ((tt, None), st);
     Confsec_ResponseGetMetadata := fun _ st => ((None, None), st);
     Confsec_ResponseIsStreaming := fun _ st => ((false, None), st);
     Confsec_ResponseGetBody := fun _ st => ((None, None), st);
     Confsec_ResponseGetStream := fun _ st => ((0, None), st);
     Confsec_ResponseStreamGetNext := fun _ st => ((None, None), st);
     Confsec_ResponseStreamDestroy := fun _ st => ((tt, None), st) |}.

(** * Part II: properties *)

(** *** Facts about binary digits used by the conversion *)

Lemma digits2_pos_iter_xO (m d : positive) :
  digits2_pos (Pos.iter xO m d) = (digits2_pos m + d)%positive.
Proof.
  induction d as [|d IH] using Pos.peano_ind.
  - simpl. lia.
  - rewrite Pos.iter_succ. simpl. rewrite IH. lia.
Qed.

Lemma Zpos_iter_xO (m d : positive) :
  Z.pos (Pos.iter xO m d) = Z.pos m * 2 ^ Z.pos d.
Proof.
  induction d as [|d IH] using Pos.peano_ind.
  - simpl. lia.
  - rewrite Pos.iter_succ, Pos2Z.inj_xO, IH, Pos2Z.inj_succ.
    rewrite Z.pow_succ_r by lia. lia.
Qed.


Lemma digits2_pos_lower (m : positive) :
  2 ^ (Z.pos (digits2_pos m) - 1) <= Z.pos m.
Proof.
  induction m as [m IH|m IH|]; simpl digits2_pos.
  - rewrite Pos2Z.inj_succ.
    replace (Z.succ (Z.pos (digits2_pos m)) - 1)
      with (Z.succ (Z.pos (digits2_pos m) - 1)) by lia.
    rewrite Z.pow_succ_r by lia. lia.
  - rewrite Pos2Z.inj_succ.
    replace (Z.succ (Z.pos (digits2_pos m)) - 1)
      with (Z.succ (Z.pos (digits2_pos m) - 1)) by lia.
    rewrite Z.pow_succ_r by lia. lia.
  - simpl. lia.
Qed.

Lemma digits2_pos_le_prec (m : positive) :
  Z.pos m < 2 ^ 53 -> Z.pos (digits2_pos m) <= 53.
Proof.
  intros Hm.
  destruct (Z_le_gt_dec (Z.pos (digits2_pos m)) 53) as [|Hgt]; [assumption|].
  pose proof (digits2_pos_lower m) as Hlo.
  assert (2 ^ 53 <= 2 ^ (Z.pos (digits2_pos m) - 1))
    by (apply Z.pow_le_mono_r; lia).
  lia.
Qed.

(** A mantissa that already has 53 digits passes through the rounding step
    of the conversion unchanged. *)
Lemma binary_round_aux_full (m : positive) (e : Z) :
  Z.pos (digits2_pos m) = 53 -> -1074 <= e <= 971 ->
  binary_round_aux 53 1024 false (Z.pos m) e loc_Exact = S754_finite false m e.
Proof.
  intros Hd He.
  unfold binary_round_aux, shr_fexp, Zdigits2, fexp, emin.
  rewrite Hd.
  replace (Z.max (53 + e - 53) (3 - 1024 - 53) - e) with 0 by lia.
  cbn [shr shr_record_of_loc shr_m loc_of_shr_record round_nearest_even].
  cbn [Zdigits2]. rewrite Hd.
  replace (Z.max (53 + e - 53) (3 - 1024 - 53) - e) with 0 by lia.
  cbn [shr shr_record_of_loc shr_m].
  replace (e <=? 1024 - 53) with true by (symmetry; apply Z.leb_le; lia).
  reflexivity.
Qed.

(** The double nearest to a positive integer below [2^53] has the
    integer's own digits as mantissa, shifted up to 53 digits. *)
Lemma of_Z_small (m : positive) :
  Z.pos m < 2 ^ 53 ->
  exists m' e, Double.of_Z (Z.pos m) = S754_finite false m' e
               /\ Double.trunc (S754_finite false m' e) = Some (Z.pos m).
Proof.
  intros Hm.
  pose proof (digits2_pos_le_prec m Hm) as Hd.
  unfold Double.of_Z, Double.prec, Double.emax, binary_normalize, binary_round.
  unfold shl_align, fexp, emin.
  destruct (Z.eq_dec (Z.pos (digits2_pos m)) 53) as [Heq|Hne].
  - rewrite Heq. cbn [Z.add Z.sub Z.max].
    replace (Z.max (53 + 0 - 53) (3 - 1024 - 53) - 0) with 0 by lia.
    rewrite binary_round_aux_full by (assumption || lia).
    exists m, 0. split; [reflexivity|]. simpl. f_equal. lia.
  - remember (Z.pos (digits2_pos m)) as dg eqn:Hdg.
    assert (Hpos : 0 < dg) by lia.
    replace (Z.max (dg + 0 - 53) (3 - 1024 - 53) - 0) with (dg - 53) by lia.
    destruct (dg - 53) as [|k|k] eqn:Hk; try lia.
    rewrite binary_round_aux_full.
    + eexists _, _. split; [reflexivity|].
      assert (Hkk : Z.neg k = - Z.pos k) by lia.
      replace (Z.max (dg + 0 - 53) (3 - 1024 - 53)) with (Z.neg k) by lia.
      cbn [Double.trunc]. rewrite Zpos_iter_xO.
      rewrite Z.div_mul by (apply Z.pow_nonzero; lia). reflexivity.
    + rewrite digits2_pos_iter_xO, Pos2Z.inj_add. lia.
    + lia.
Qed.

(** ** Rules for the primitives *)

Section Logic.

Context {E : Engine}.

Implicit Types w : World E.

Lemma wp_elim {A} (m : M E A) Q w o w' :
  wp m Q w -> m w = (o, w') -> Q o w'.
Proof. unfold wp. intros H Hm. rewrite Hm in H. exact H. Qed.


Lemma wp_run {A} (m : M E A) Q w o w' :
  m w = (o, w') -> Q o w' -> wp m Q w.
Proof. unfold wp. intros ->. auto. Qed.

Lemma wp_bind {A B} (m : M E A) (k : A -> M E B) Q w :
  wp m (bindQ k Q) w -> wp (m ≫= k) Q w.
Proof.
  unfold wp, bindQ, mbind, M_bind.
  destruct (m w) as [[a|e|] w1]; simpl; auto.
Qed.

Lemma wp_ret {A} (a : A) Q w : Q (Returns a) w -> wp (mret a) Q w.
Proof. auto. Qed.

Lemma wp_throw {A} c msg (Q : Outcome A -> World E -> Prop) w :
  Q (Throws (JSError c msg)) w -> wp (throw c msg) Q w.
Proof. auto. Qed.

Lemma wp_ub {A} (Q : Outcome A -> World E -> Prop) w :
  Q UndefinedBehaviour w -> wp undefined_behaviour Q w.
Proof. auto. Qed.

Lemma wp_defined {A} (x : option A) Q w :
  match x with
  | Some a => Q (Returns a) w
  | None => Q UndefinedBehaviour w
  end ->
  wp (defined x) Q w.
Proof. destruct x; auto. Qed.

Lemma wp_allocate by_ bs Q w :
  Q (Returns (Ptr (length (heap w))))
    (with_heap (heap w ++ [{| content := bs; allocator := by_;
                              state := Live |}]) w) ->
  wp (allocate by_ bs) Q w.
Proof. auto. Qed.

Lemma wp_load p Q w :
  match view (heap w) p with
  | AData bs => Q (Returns bs) w
  | _ => Q UndefinedBehaviour w
  end ->
  wp (load p) Q w.
Proof. unfold wp, load. destruct (view (heap w) p); auto. Qed.

Lemma wp_view_of p (Q : Outcome ArgView -> World E -> Prop) w :
  Q (Returns (view (heap w) p)) w -> wp (view_of p) Q w.
Proof. auto. Qed.

Lemma wp_release how p Q w :
  match p with
  | nullptr => Q (Returns tt) w
  | Ptr a =>
      match mark_released how a (heap w) with
      | Some hp => Q (Returns tt) (with_heap hp w)
      | None => Q UndefinedBehaviour w
      end
  end ->
  wp (release how p) Q w.
Proof.
  unfold wp, release. destruct p; auto.
  destruct (mark_released how a (heap w)); auto.
Qed.

Lemma wp_materialise b Q w :
  match b with
  | Some bs =>
      Q (Returns (Ptr (length (heap w))))
        (with_heap (heap w ++ [{| content := bs; allocator := ByEngine;
                                  state := Live |}]) w)
  | None => Q (Returns nullptr) w
  end ->
  wp (materialise b) Q w.
Proof. destruct b; auto. Qed.

(** The engine's reply is arbitrary: the rule hands it to the
    continuation together with the record of the call. *)
Lemma wp_engine_call {A} entry args (rv : A -> RetView) f Q w :
  (forall r e st, f (engine_state w) = ((r, e), st) ->
     let w1 := {| engine_state := st; heap := heap w;
                  calls := {| cr_entry := entry; cr_args := args;
                              cr_ret := rv r; cr_err := e |} :: calls w |} in
     match e with
     | Some bs =>
         Q (Returns (r, Ptr (length (heap w))))
           (with_heap (heap w ++ [{| content := bs; allocator := ByEngine;
                                     state := Live |}]) w1)
     | None => Q (Returns (r, nullptr)) w1
     end) ->
  wp (engine_call entry args rv f) Q w.
Proof.
  intros H. unfold wp, engine_call.
  destruct (f (engine_state w)) as [[r e] st] eqn:Hf.
  specialize (H r e st eq_refl). destruct e; exact H.
Qed.

Lemma wp_scoped_string {A} bs (body : cptr -> M E A) Q w :
  wp (body (Ptr (length (heap w))))
     (fun o w1 =>
        match mark_released Destructor (length (heap w)) (heap w1) with
        | Some hp => Q o (with_heap hp w1)
        | None => Q UndefinedBehaviour w1
        end)
     (with_heap (heap w ++ [{| content := CString.terminated bs;
                               allocator := ByStdString;
                               state := Live |}]) w) ->
  wp (scoped_string bs body) Q w.
Proof.
  unfold wp, scoped_string, alloc, with_heap. cbn [fst snd].
  match goal with
  | |- context [body ?p ?w0] => destruct (body p w0) as [o w1]
  end.
  cbn [fst snd]. unfold release.
  destruct (mark_released Destructor (length (heap w)) (heap w1)); auto.
Qed.

End Logic.

(** *** Pointers into the part of the heap a wrapper has added *)

Lemma view_app_r (hp ext : list Block) (k : nat) :
  view (hp ++ ext) (Ptr (length hp + k)) = view ext (Ptr k).
Proof.
  unfold view. rewrite lookup_app_r by lia.
  replace (length hp + k - length hp)%nat with k by lia. reflexivity.
Qed.

Lemma view_app_r0 (hp ext : list Block) :
  view (hp ++ ext) (Ptr (length hp)) = view ext (Ptr 0).
Proof.
  rewrite <- (view_app_r hp ext 0). do 2 f_equal. lia.
Qed.

Lemma mark_released_app_r how (hp ext : list Block) (k : nat) :
  mark_released how (length hp + k) (hp ++ ext)
  = (fun x => hp ++ x) <$> mark_released how k ext.
Proof.
  unfold mark_released. rewrite lookup_app_r by lia.
  replace (length hp + k - length hp)%nat with k by lia.
  destruct (ext !! k) as [b|] eqn:Hb; [|reflexivity].
  destruct (state b); [|reflexivity]. simpl. f_equal.
  rewrite insert_app_r. reflexivity.
Qed.

Lemma mark_released_app_r0 how (hp ext : list Block) :
  mark_released how (length hp) (hp ++ ext)
  = (fun x => hp ++ x) <$> mark_released how 0 ext.
Proof.
  rewrite <- (mark_released_app_r how hp ext 0). f_equal. lia.
Qed.

Lemma mark_released_mid how (pre post : list Block) (b : Block) :
  state b = Live ->
  mark_released how (length pre) (pre ++ b :: post)
  = Some (pre ++ released how b :: post).
Proof.
  intros Hb. rewrite mark_released_app_r0. unfold mark_released. simpl.
  rewrite Hb. reflexivity.
Qed.

Lemma view_mid (pre post : list Block) (b : Block) :
  state b = Live ->
  view (pre ++ b :: post) (Ptr (length pre)) = AData (content b).
Proof.
  intros Hb. rewrite view_app_r0. simpl. rewrite Hb. reflexivity.
Qed.

(** *** C strings *)

Lemma c_str_app_nul (s rest : list byte) :
  CString.c_str (s ++ CString.NUL :: rest) = Some (CString.until_nul s).
Proof.
  induction s as [|b s IH]; simpl.
  - reflexivity.
  - destruct (Byte.eqb b CString.NUL); [reflexivity|].
    rewrite IH. reflexivity.
Qed.

Lemma c_str_terminated (s : list byte) :
  CString.c_str (CString.terminated s) = Some (CString.until_nul s).
Proof. apply c_str_app_nul. Qed.

Lemma until_nul_nul_free (s : list byte) :
  CString.nul_free s = true -> CString.until_nul s = s.
Proof.
  induction s as [|b s IH]; simpl; [reflexivity|].
  destruct (Byte.eqb b CString.NUL); simpl; [discriminate|].
  intros H. rewrite IH by assumption. reflexivity.
Qed.

Lemma until_nul_idem (s : list byte) :
  CString.until_nul (CString.until_nul s) = CString.until_nul s.
Proof.
  induction s as [|b s IH]; simpl; [reflexivity|].
  destruct (Byte.eqb b CString.NUL) eqn:Hb; simpl; [reflexivity|].
  rewrite Hb, IH. reflexivity.
Qed.

Lemma c_str_prefix (mem s : list byte) :
  CString.c_str mem = Some s -> take (length s) mem = s.
Proof.
  revert s. induction mem as [|b mem IH]; simpl; intros s H; [discriminate|].
  destruct (Byte.eqb b CString.NUL).
  - inversion H. reflexivity.
  - destruct (CString.c_str mem) as [s'|]; [|discriminate].
    inversion H; subst. simpl. f_equal. apply IH. reflexivity.
Qed.

Lemma strcpy_terminated (s : list byte) :
  CString.strcpy (CString.terminated s)
  = Some (CString.terminated (CString.until_nul s)).
Proof. unfold CString.strcpy. rewrite c_str_terminated. reflexivity. Qed.

(** *** UTF-8 *)

Ltac dlia := Z.div_mod_to_equations; lia.

Lemma to_of_Z (z : Z) : 0 <= z < 256 -> UTF8.to_Z (UTF8.of_Z z) = z.
Proof.
  intros Hz. unfold UTF8.to_Z, UTF8.of_Z.
  destruct (Byte.of_N (Z.to_N z)) as [b|] eqn:Hb.
  - apply Byte.to_of_N in Hb. rewrite Hb. lia.
  - apply Byte.of_N_None_iff in Hb. lia.
Qed.

Lemma ltb_true (a b : Z) : a < b -> (a <? b) = true.
Proof. apply Z.ltb_lt. Qed.
Lemma ltb_false (a b : Z) : b <= a -> (a <? b) = false.
Proof. apply Z.ltb_ge. Qed.
Lemma leb_true (a b : Z) : a <= b -> (a <=? b) = true.
Proof. apply Z.leb_le. Qed.
Lemma leb_false (a b : Z) : b < a -> (a <=? b) = false.
Proof. apply Z.leb_gt. Qed.

Lemma between_true (lo x hi : Z) :
  lo <= x <= hi -> (lo <=? x) && (x <=? hi) = true.
Proof. intros. rewrite !leb_true by lia. reflexivity. Qed.

Lemma between_false (lo x hi : Z) :
  x < lo \/ hi < x -> (lo <=? x) && (x <=? hi) = false.
Proof.
  intros [H|H].
  - rewrite (leb_false lo x) by lia. reflexivity.
  - rewrite (leb_false x hi) by lia. apply andb_false_r.
Qed.

(** Well-formed sequences of one to four bytes. *)

Lemma decode_bytes_1 (b0 : Z) (r : list Z) :
  b0 < 0x80 -> UTF8.decode_bytes (b0 :: r) = b0 :: UTF8.decode_bytes r.
Proof. intros H. cbn [UTF8.decode_bytes]. rewrite ltb_true by lia. reflexivity. Qed.

Lemma decode_bytes_2 (b0 b1 : Z) (r : list Z) :
  0xC2 <= b0 <= 0xDF -> 0x80 <= b1 <= 0xBF ->
  UTF8.decode_bytes (b0 :: b1 :: r)
  = ((b0 - 0xC0) * 64 + (b1 - 0x80)) :: UTF8.decode_bytes r.
Proof.
  intros H0 H1. cbn [UTF8.decode_bytes].
  rewrite (ltb_false b0) by lia. rewrite (between_true _ b0) by lia.
  unfold UTF8.continuation. rewrite (between_true _ b1) by lia. reflexivity.
Qed.

Lemma decode_bytes_3 (b0 b1 b2 : Z) (r : list Z) :
  0xE0 <= b0 <= 0xEF ->
  UTF8.second_low b0 <= b1 <= UTF8.second_high b0 ->
  0x80 <= b2 <= 0xBF ->
  UTF8.decode_bytes (b0 :: b1 :: b2 :: r)
  = ((b0 - 0xE0) * 4096 + (b1 - 0x80) * 64 + (b2 - 0x80))
    :: UTF8.decode_bytes r.
Proof.
  intros H0 H1 H2. cbn [UTF8.decode_bytes].
  rewrite (ltb_false b0) by lia. rewrite (between_false 0xC2 b0) by lia.
  rewrite (between_true _ b0) by lia.
  rewrite (between_true _ b1) by lia.
  unfold UTF8.continuation. rewrite (between_true _ b2) by lia. reflexivity.
Qed.

Lemma decode_bytes_4 (b0 b1 b2 b3 : Z) (r : list Z) :
  0xF0 <= b0 <= 0xF4 ->
  UTF8.second_low b0 <= b1 <= UTF8.second_high b0 ->
  0x80 <= b2 <= 0xBF ->
  0x80 <= b3 <= 0xBF ->
  UTF8.decode_bytes (b0 :: b1 :: b2 :: b3 :: r)
  = UTF8.units_of_scalar
      ((b0 - 0xF0) * 262144 + (b1 - 0x80) * 4096 + (b2 - 0x80) * 64
       + (b3 - 0x80))
    ++ UTF8.decode_bytes r.
Proof.
  intros H0 H1 H2 H3. cbn [UTF8.decode_bytes].
  rewrite (ltb_false b0) by lia. rewrite (between_false 0xC2 b0) by lia.
  rewrite (between_false 0xE0 b0) by lia.
  rewrite (between_true _ b0) by lia.
  rewrite (between_true _ b1) by lia.
  unfold UTF8.continuation. rewrite (between_true _ b2) by lia.
  rewrite (between_true _ b3) by lia. reflexivity.
Qed.

Lemma second_low_spec (b0 : Z) :
  UTF8.second_low b0
  = if Z.eq_dec b0 0xE0 then 0xA0 else if Z.eq_dec b0 0xF0 then 0x90 else 0x80.
Proof.
  unfold UTF8.second_low.
  destruct (Z.eq_dec b0 0xE0) as [->|H1]; [reflexivity|].
  rewrite (proj2 (Z.eqb_neq _ _) H1).
  destruct (Z.eq_dec b0 0xF0) as [->|H2]; [reflexivity|].
  rewrite (proj2 (Z.eqb_neq _ _) H2). reflexivity.
Qed.

Lemma second_high_spec (b0 : Z) :
  UTF8.second_high b0
  = if Z.eq_dec b0 0xED then 0x9F else if Z.eq_dec b0 0xF4 then 0x8F else 0xBF.
Proof.
  unfold UTF8.second_high.
  destruct (Z.eq_dec b0 0xED) as [->|H1]; [reflexivity|].
  rewrite (proj2 (Z.eqb_neq _ _) H1).
  destruct (Z.eq_dec b0 0xF4) as [->|H2]; [reflexivity|].
  rewrite (proj2 (Z.eqb_neq _ _) H2). reflexivity.
Qed.

Lemma encode_scalar_range (c : Z) :
  0 <= c < 0x110000 -> Forall (fun b => 0 <= b < 256) (UTF8.encode_scalar c).
Proof.
  intros Hc. unfold UTF8.encode_scalar.
  destruct (c <? 128) eqn:H1; [|destruct (c <? 2048) eqn:H2;
                                  [|destruct (c <? 65536) eqn:H3]];
    try apply Z.ltb_lt in H1; try apply Z.ltb_ge in H1;
    try apply Z.ltb_lt in H2; try apply Z.ltb_ge in H2;
    try apply Z.ltb_lt in H3; try apply Z.ltb_ge in H3;
    repeat constructor; dlia.
Qed.

Lemma decode_encode_scalar (c : Z) (rest : list Z) :
  UTF8.scalar c ->
  UTF8.decode_bytes (UTF8.encode_scalar c ++ rest)
  = UTF8.units_of_scalar c ++ UTF8.decode_bytes rest.
Proof.
  intros [Hc Hs]. unfold UTF8.encode_scalar, UTF8.units_of_scalar.
  destruct (Z_lt_dec c 0x80) as [H1|H1].
  { rewrite (ltb_true c 0x80) by lia. rewrite (ltb_true c 0x10000) by lia.
    cbn [app]. apply decode_bytes_1. lia. }
  rewrite (ltb_false c 0x80) by lia.
  destruct (Z_lt_dec c 0x800) as [H2|H2].
  { rewrite (ltb_true c 0x800) by lia. rewrite (ltb_true c 0x10000) by lia.
    cbn [app]. rewrite decode_bytes_2 by dlia. f_equal. dlia. }
  rewrite (ltb_false c 0x800) by lia.
  destruct (Z_lt_dec c 0x10000) as [H3|H3].
  { rewrite (ltb_true c 0x10000) by lia.
    cbn [app]. rewrite decode_bytes_3.
    - f_equal. dlia.
    - dlia.
    - rewrite second_low_spec, second_high_spec.
      destruct (Z.eq_dec (0xE0 + c / 4096) 0xE0);
        destruct (Z.eq_dec (0xE0 + c / 4096) 0xED);
        try destruct (Z.eq_dec (0xE0 + c / 4096) 0xF0);
        try destruct (Z.eq_dec (0xE0 + c / 4096) 0xF4); dlia.
    - dlia. }
  rewrite (ltb_false c 0x10000) by lia.
  cbn [app]. rewrite decode_bytes_4.
  - replace ((0xF0 + c / 262144 - 0xF0) * 262144
             + (0x80 + (c / 4096) mod 64 - 0x80) * 4096
             + (0x80 + (c / 64) mod 64 - 0x80) * 64
             + (0x80 + c mod 64 - 0x80)) with c by dlia.
    unfold UTF8.units_of_scalar. rewrite (ltb_false c 0x10000) by lia.
    reflexivity.
  - dlia.
  - rewrite second_low_spec, second_high_spec.
    destruct (Z.eq_dec (0xF0 + c / 262144) 0xE0);
      destruct (Z.eq_dec (0xF0 + c / 262144) 0xED);
      try destruct (Z.eq_dec (0xF0 + c / 262144) 0xF0);
      try destruct (Z.eq_dec (0xF0 + c / 262144) 0xF4); dlia.
  - dlia.
  - dlia.
Qed.

Lemma encode_scalar_positive (c : Z) :
  0 < c < 0x110000 -> Forall (fun b => 0 < b < 256) (UTF8.encode_scalar c).
Proof.
  intros Hc. unfold UTF8.encode_scalar.
  destruct (c <? 128) eqn:H1; [|destruct (c <? 2048) eqn:H2;
                                  [|destruct (c <? 65536) eqn:H3]];
    try apply Z.ltb_lt in H1; try apply Z.ltb_ge in H1;
    try apply Z.ltb_lt in H2; try apply Z.ltb_ge in H2;
    try apply Z.ltb_lt in H3; try apply Z.ltb_ge in H3;
    repeat constructor; dlia.
Qed.

Lemma is_high_spec (u : Z) : UTF8.is_high u = true <-> 0xD800 <= u <= 0xDBFF.
Proof. unfold UTF8.is_high. rewrite andb_true_iff, !Z.leb_le. tauto. Qed.

Lemma is_low_spec (u : Z) : UTF8.is_low u = true <-> 0xDC00 <= u <= 0xDFFF.
Proof. unfold UTF8.is_low. rewrite andb_true_iff, !Z.leb_le. tauto. Qed.

Lemma is_high_false (u : Z) :
  UTF8.is_high u = false <-> ~ (0xD800 <= u <= 0xDBFF).
Proof. rewrite <- is_high_spec. destruct (UTF8.is_high u); intuition congruence. Qed.

Lemma is_low_false (u : Z) :
  UTF8.is_low u = false <-> ~ (0xDC00 <= u <= 0xDFFF).
Proof. rewrite <- is_low_spec. destruct (UTF8.is_low u); intuition congruence. Qed.

(** Induction two code units at a time. *)
Lemma units_ind (P : list Z -> Prop) :
  P [] ->
  (forall u, P [u]) ->
  (forall u l rest, P rest -> P (l :: rest) -> P (u :: l :: rest)) ->
  forall s, P s.
Proof.
  intros H0 H1 H2.
  assert (H : forall s, P s /\ forall u, P (u :: s)).
  { induction s as [|l s [IH1 IH2]].
    - split; [exact H0|exact H1].
    - split; [apply IH2|]. intros u. apply H2; [exact IH1|apply IH2]. }
  intros s. apply H.
Qed.

Lemma encode_units_step (u : Z) (rest : list Z) :
  UTF8.encode_units (u :: rest)
  = if UTF8.is_high u then
      match rest with
      | l :: rest' =>
          if UTF8.is_low l then
            UTF8.encode_scalar (0x10000 + (u - 0xD800) * 1024 + (l - 0xDC00))
            ++ UTF8.encode_units rest'
          else UTF8.encode_scalar UTF8.replacement ++ UTF8.encode_units rest
      | [] => UTF8.encode_scalar UTF8.replacement
      end
    else if UTF8.is_low u then
      UTF8.encode_scalar UTF8.replacement ++ UTF8.encode_units rest
    else UTF8.encode_scalar u ++ UTF8.encode_units rest.
Proof. reflexivity. Qed.

Lemma well_formed_step (u : Z) (rest : list Z) :
  UTF8.well_formed (u :: rest)
  = if UTF8.is_high u then
      match rest with
      | l :: rest' => UTF8.is_low l && UTF8.well_formed rest'
      | [] => false
      end
    else negb (UTF8.is_low u) && (0 <=? u) && (u <? 0x10000)
         && UTF8.well_formed rest.
Proof. reflexivity. Qed.

(** What a well-formed string is encoded to: bytes, none of them zero
    unless the string holds U+0000, that decode to the string. *)
Lemma encode_units_spec (s : list Z) :
  UTF8.well_formed s = true ->
  Forall (fun b => 0 <= b < 256) (UTF8.encode_units s)
  /\ (UTF8.nul_free s = true ->
      Forall (fun b => 0 < b < 256) (UTF8.encode_units s))
  /\ UTF8.decode_bytes (UTF8.encode_units s) = s.
Proof.
  induction s as [| u | u l rest IHrest IHl] using units_ind.
  - intros _. repeat split; constructor.
  - cbn [UTF8.well_formed UTF8.encode_units UTF8.nul_free forallb].
    destruct (UTF8.is_high u) eqn:Hh; [discriminate|].
    apply is_high_false in Hh.
    destruct (UTF8.is_low u) eqn:Hl; [discriminate|].
    apply is_low_false in Hl.
    rewrite !andb_true_r. cbn [negb andb]. rewrite andb_true_iff.
    rewrite Z.leb_le, Z.ltb_lt. intros [Hu0 Hu1].
    rewrite app_nil_r. split; [|split].
    + apply encode_scalar_range. lia.
    + rewrite negb_true_iff, Z.eqb_neq. intros Hz.
      apply encode_scalar_positive. lia.
    + rewrite <- (app_nil_r (UTF8.encode_scalar u)).
      rewrite decode_encode_scalar by (split; lia).
      unfold UTF8.units_of_scalar. rewrite ltb_true by lia. reflexivity.
  - rewrite (encode_units_step u (l :: rest)),
      (well_formed_step u (l :: rest)).
    change (UTF8.nul_free (u :: l :: rest))
      with (negb (u =? 0) && UTF8.nul_free (l :: rest)).
    destruct (UTF8.is_high u) eqn:Hh.
    + apply is_high_spec in Hh.
      destruct (UTF8.is_low l) eqn:Hl; [|discriminate].
      apply is_low_spec in Hl. cbn [andb]. intros Hwf.
      destruct (IHrest Hwf) as (Hr & Hp & Hd).
      split; [|split].
      * apply Forall_app. split; [apply encode_scalar_range; lia|exact Hr].
      * cbn [UTF8.nul_free forallb]. rewrite !andb_true_iff.
        intros [_ [_ Hnf]].
        apply Forall_app. split; [apply encode_scalar_positive; lia|].
        apply Hp. exact Hnf.
      * rewrite decode_encode_scalar by (split; lia). rewrite Hd.
        unfold UTF8.units_of_scalar. rewrite ltb_false by lia.
        cbn [app]. f_equal; [dlia|]. f_equal. dlia.
    + apply is_high_false in Hh.
      destruct (UTF8.is_low u) eqn:Hlu; [discriminate|].
      apply is_low_false in Hlu. cbn [negb andb].
      rewrite !andb_true_iff, Z.leb_le, Z.ltb_lt. intros [[Hu0 Hu1] Hwf].
      destruct (IHl Hwf) as (Hr & Hp & Hd).
      split; [|split].
      * apply Forall_app. split; [apply encode_scalar_range; lia|exact Hr].
      * rewrite negb_true_iff, Z.eqb_neq. intros [Hz Hnf].
        apply Forall_app. split; [apply encode_scalar_positive; lia|].
        apply Hp. exact Hnf.
      * rewrite decode_encode_scalar by (split; lia). rewrite Hd.
        unfold UTF8.units_of_scalar. rewrite ltb_true by lia. reflexivity.
Qed.

Lemma map_to_of_Z (l : list Z) :
  Forall (fun b => 0 <= b < 256) l -> map UTF8.to_Z (map UTF8.of_Z l) = l.
Proof.
  induction 1 as [|b l Hb _ IH]; [reflexivity|].
  cbn [map]. rewrite to_of_Z by assumption. rewrite IH. reflexivity.
Qed.

(** Encoding then decoding a well-formed string gives it back. *)
Lemma decode_encode (s : js_string) :
  UTF8.well_formed s = true -> UTF8.decode (UTF8.encode s) = s.
Proof.
  intros Hwf. destruct (encode_units_spec s Hwf) as (Hr & _ & Hd).
  unfold UTF8.decode, UTF8.encode. rewrite map_to_of_Z by assumption.
  exact Hd.
Qed.

Lemma of_Z_not_NUL (z : Z) : 0 < z < 256 -> UTF8.of_Z z <> CString.NUL.
Proof.
  intros Hz Heq. assert (H : UTF8.to_Z (UTF8.of_Z z) = 0)
    by (rewrite Heq; reflexivity).
  rewrite to_of_Z in H by lia. lia.
Qed.

(** A well-formed string without U+0000 has no zero byte in UTF-8. *)
Lemma encode_nul_free (s : js_string) :
  UTF8.well_formed s = true -> UTF8.nul_free s = true ->
  CString.nul_free (UTF8.encode s) = true.
Proof.
  intros Hwf Hnf. destruct (encode_units_spec s Hwf) as (_ & Hp & _).
  specialize (Hp Hnf). unfold CString.nul_free, UTF8.encode.
  induction Hp as [|b l Hb _ IH]; [reflexivity|].
  cbn [map forallb]. rewrite IH, andb_true_r.
  apply negb_true_iff.
  destruct (Byte.eqb (UTF8.of_Z b) CString.NUL) eqn:Heq; [|reflexivity].
  apply Byte.byte_dec_bl in Heq. destruct (of_Z_not_NUL b Hb Heq).
Qed.

(** *** The loops over tag arrays *)

Section Loops.

Context {E : Engine}.

Lemma run_bind_returns {A B} (m : M E A) (k : A -> M E B) w a w1 :
  m w = (Returns a, w1) -> (m ≫= k) w = k a w1.
Proof. intros H. unfold mbind, M_bind. rewrite H. reflexivity. Qed.

Lemma run_bind_throws {A B} (m : M E A) (k : A -> M E B) w e w1 :
  m w = (Throws e, w1) -> (m ≫= k) w = (Throws e, w1).
Proof. intros H. unfold mbind, M_bind. rewrite H. reflexivity. Qed.

Lemma run_ret_bind {A B} (a : A) (k : A -> M E B) w :
  (mret a ≫= k) w = k a w.
Proof. reflexivity. Qed.

Lemma view_of_bind {B} (p : cptr) (k : ArgView -> M E B) w :
  (view_of p ≫= k) w = k (view (heap w) p) w.
Proof. reflexivity. Qed.

Lemma length_app2 {A} (l : list A) (a b : A) :
  length (l ++ [a; b]) = S (S (length l)).
Proof. rewrite length_app. simpl. lia. Qed.

(** One iteration of [JSArrayToCStringArray] on a string: the temporary
    is gone when the iteration ends, the copy stays. *)
Lemma scoped_copy_run (bytes : list byte) (w : World E) :
  scoped_string bytes new_strcpy w
  = (Returns (Ptr (S (length (heap w)))),
     with_heap (heap w ++ tag_blocks Live [bytes]) w).
Proof.
  unfold scoped_string, alloc, new_strcpy, mbind, M_bind, load, defined.
  cbn [heap with_heap]. rewrite view_app_r0. cbn [view lookup list_lookup state content].
  rewrite strcpy_terminated. unfold mret, M_ret, allocate, alloc.
  cbn [heap]. unfold release. cbn [heap].
  rewrite <- app_assoc. cbn [app].
  rewrite mark_released_app_r0. cbn.
  rewrite length_app. cbn. replace (length (heap w) + 1)%nat with (S (length (heap w))) by lia.
  reflexivity.
Qed.

Lemma JSArrayToCStringArray_run (l : list JSValue) (w : World E) :
  match strings_of l with
  | Some ss =>
      JSArrayToCStringArray l w
      = (Returns (tag_ptrs (length (heap w)) ss),
         with_heap (heap w ++ tag_blocks Live ss) w)
  | None =>
      exists ext,
        JSArrayToCStringArray l w
        = (Throws (JSError Napi_TypeError "A string was expected"),
           with_heap (heap w ++ ext) w)
  end.
Proof.
  revert w. induction l as [|v l IH]; intros w.
  - simpl. unfold mret, M_ret, with_heap. rewrite app_nil_r.
    destruct w; reflexivity.
  - destruct v;
      try (simpl; exists []; rewrite app_nil_r; destruct w; reflexivity).
    simpl strings_of. cbn [JSArrayToCStringArray Utf8Value].
    rewrite run_ret_bind.
    rewrite (run_bind_returns _ _ _ _ _ (scoped_copy_run _ w)).
    specialize (IH (with_heap (heap w ++ tag_blocks Live [UTF8.encode s]) w)).
    destruct (strings_of l) as [ss|].
    + rewrite (run_bind_returns _ _ _ _ _ IH). unfold mret, M_ret.
      cbn [heap with_heap tag_ptrs]. simpl tag_blocks at 1. rewrite length_app2.
      f_equal. unfold with_heap. cbn [engine_state calls heap].
      rewrite <- app_assoc. reflexivity.
    + destruct IH as [ext IH]. rewrite (run_bind_throws _ _ _ _ _ IH).
      exists (tag_blocks Live [UTF8.encode s] ++ ext).
      unfold with_heap. cbn [engine_state calls heap].
      rewrite <- app_assoc. reflexivity.
Qed.


Lemma release_at how (n : nat) (pre post : list Block) (b : Block)
    (w : World E) :
  heap w = pre ++ b :: post -> n = length pre -> state b = Live ->
  release how (Ptr n) w
  = (Returns tt, with_heap (pre ++ released how b :: post) w).
Proof.
  intros Hw -> Hb. unfold release. rewrite Hw.
  rewrite mark_released_mid by assumption. reflexivity.
Qed.

Lemma view_at (n : nat) (pre post : list Block) (b : Block) (hp : list Block) :
  hp = pre ++ b :: post -> n = length pre -> state b = Live ->
  view hp (Ptr n) = AData (content b).
Proof. intros -> -> Hb. apply view_mid. assumption. Qed.

Lemma FreeCStringArray_run (ss : list (list byte)) :
  forall (pre post : list Block) (w : World E),
    heap w = pre ++ tag_blocks Live ss ++ post ->
    FreeCStringArray (tag_ptrs (length pre) ss) w
    = (Returns tt,
       with_heap (pre ++ tag_blocks (Released DeleteArray) ss ++ post) w).
Proof.
  induction ss as [|s ss IH]; intros pre post w Hw.
  - simpl in *. unfold mret, M_ret, with_heap. rewrite <- Hw.
    destruct w; reflexivity.
  - cbn [tag_ptrs FreeCStringArray].
    erewrite run_bind_returns; cycle 1.
    { unfold delete_array.
      eapply (release_at _ _ (pre ++ [_]) (tag_blocks Live ss ++ post)).
      - rewrite Hw. simpl tag_blocks. rewrite <- app_assoc. reflexivity.
      - rewrite length_app. simpl. lia.
      - reflexivity. }
    replace (S (S (length pre)))
      with (length (pre ++ tag_blocks (Released DeleteArray) [s]))
      by (rewrite !length_app; simpl; lia).
    rewrite (IH _ post).
    + unfold with_heap. cbn [engine_state calls heap]. simpl tag_blocks.
      rewrite <- !app_assoc. reflexivity.
    + cbn [heap with_heap]. simpl tag_blocks. rewrite <- !app_assoc.
      reflexivity.
Qed.

Lemma views_of_run (ss : list (list byte)) :
  forall (pre post : list Block) (w : World E),
    heap w = pre ++ tag_blocks Live ss ++ post ->
    views_of (tag_ptrs (length pre) ss) w
    = (Returns (map (fun s => AData (CString.terminated (CString.until_nul s)))
                    ss), w).
Proof.
  induction ss as [|s ss IH]; intros pre post w Hw.
  - reflexivity.
  - cbn [tag_ptrs views_of].
    rewrite view_of_bind.
    erewrite (view_at _ (pre ++ [_]) (tag_blocks Live ss ++ post));
      [ | rewrite Hw; simpl tag_blocks; rewrite <- app_assoc; reflexivity
        | rewrite length_app; simpl; lia
        | reflexivity ].
    replace (S (S (length pre)))
      with (length (pre ++ tag_blocks Live [s]))
      by (rewrite !length_app; simpl; lia).
    erewrite run_bind_returns; cycle 1.
    { apply (IH _ post). rewrite Hw. simpl tag_blocks.
      rewrite <- !app_assoc. reflexivity. }
    reflexivity.
Qed.

End Loops.

(** *** Stepping through a wrapper *)

Ltac heap_norm :=
  cbn [with_heap heap engine_state calls];
  repeat rewrite <- app_assoc;
  repeat rewrite length_app;
  cbn [app length];
  repeat rewrite <- Nat.add_assoc;
  cbn [Nat.add];
  repeat first [ rewrite view_app_r0 | rewrite mark_released_app_r0
               | rewrite view_app_r | rewrite mark_released_app_r ];
  cbn [view mark_released lookup list_lookup state content allocator
       fmap option_fmap option_map insert list_insert released].

Ltac wp_step :=
  lazymatch goal with
  | |- wp (mbind _ _) _ _ => apply wp_bind
  | |- wp (mret _) _ _ => apply wp_ret
  | |- wp (throw _ _) _ _ => apply wp_throw
  | |- wp undefined_behaviour _ _ => apply wp_ub
  | |- wp (defined _) _ _ => apply wp_defined
  | |- wp (allocate _ _) _ _ => apply wp_allocate
  | |- wp (materialise _) _ _ => apply wp_materialise
  | |- wp (load _) _ _ => apply wp_load; heap_norm
  | |- wp (view_of _) _ _ => apply wp_view_of; heap_norm
  | |- wp (release _ _) _ _ => apply wp_release; heap_norm
  | |- wp (free _) _ _ => apply wp_release; heap_norm
  | |- wp (Confsec_Free _) _ _ => apply wp_release; heap_norm
  | |- wp (delete_array _) _ _ => apply wp_release; heap_norm
  | |- wp (engine_call _ _ _ _) _ _ =>
      let Heq := fresh "Hcall" in
      apply wp_engine_call; intros ? ? ? Heq; cbn zeta;
      try (lazymatch type of Heq with
           | ?l = _ =>
               match goal with
               | Hr : l = _ |- _ =>
                   tryif constr_eq Hr Heq then fail
                   else (rewrite Hr in Heq; inversion Heq; subst; clear Heq)
               end
           end)
  | |- wp (scoped_string _ _) _ _ => apply wp_scoped_string
  | |- wp (handle_of _) _ _ => unfold handle_of
  | |- wp (DoubleValue _) _ _ => unfold DoubleValue
  | |- wp (Int32Value _) _ _ => unfold Int32Value
  | |- wp (Utf8Value _) _ _ => unfold Utf8Value
  | |- wp (As_Array _) _ _ => unfold As_Array
  | |- wp (Buffer_Data _) _ _ => unfold Buffer_Data
  | |- wp (HANDLE_ERROR _) _ _ => unfold HANDLE_ERROR
  | |- wp (Buffer_Copy_strlen _) _ _ =>
      unfold Buffer_Copy_strlen, CString.strlen
  | |- wp (String_New _) _ _ => unfold String_New
  | |- wp (new_strcpy _) _ _ => unfold new_strcpy
  | |- bindQ _ _ _ _ => cbn [bindQ]
  | |- wp (request_of _) _ _ => unfold request_of
  | |- match ?x with _ => _ end =>
      first [ progress heap_norm | destruct x eqn:? ]
  | |- wp (match ?x with _ => _ end) _ _ => destruct x eqn:?
  | |- wp (let '(_, _) := ?x in _) _ _ => destruct x
  end;
  cbn beta iota; cbn [with_heap heap engine_state calls is_null].

Ltac wp_start H Q :=
  let o := lazymatch type of H with _ = (?o, _) => o end in
  let w' := lazymatch type of H with _ = (_, ?w') => w' end in
  pattern o, w';
  lazymatch goal with
  | |- ?P o w' => set (Q := P); eapply wp_elim; [|exact H]; clear H
  end.

Ltac wp_done :=
  intros;
  repeat match goal with
         | H : Some _ = Some _ |- _ => inversion H; subst; clear H
         | H : None = Some _ |- _ => discriminate H
         | H : Some _ = None |- _ => discriminate H
         | H : ?x = Some _, H' : ?x = Some _ |- _ =>
             rewrite H in H'; inversion H'; subst; clear H'
         | H : ?x = Some _, H' : ?x = None |- _ =>
             rewrite H in H'; discriminate H'
         | H : CString.c_str ?l = Some _,
           H' : context [CString.c_str ?l] |- _ =>
             rewrite H in H'
         end;
  try congruence;
  try (match goal with
       | H : CString.c_str ?l = Some ?s |- context [take (length ?s) ?l] =>
           rewrite (c_str_prefix l s H)
       end; reflexivity).

(** *** Validation *)

Lemma handle_check_rejects (info : list JSValue) :
  (1 <=? length info)%nat && IsNumber (info_at info 0) = false ->
  (length info <? 1)%nat || negb (IsNumber (info_at info 0)) = true.
Proof.
  rewrite Nat.ltb_antisym, <- negb_andb. intros ->. reflexivity.
Qed.

(** *** The wrappers that marshal a tag array *)

Section TagWrappers.

Context {E : Engine}.

Lemma length_tag_ptrs (base : nat) (ss : list (list byte)) :
  length (tag_ptrs base ss) = length ss.
Proof.
  revert base. induction ss as [|s ss IH]; intros base; simpl; auto.
Qed.

Lemma length_tag_blocks st (ss : list (list byte)) :
  length (tag_blocks st ss) = (2 * length ss)%nat.
Proof. induction ss as [|s ss IH]; simpl in *; lia. Qed.

Lemma wp_JSArrayToCStringArray (l : list JSValue) Q (w : World E) :
  match strings_of l with
  | Some ss =>
      Q (Returns (tag_ptrs (length (heap w)) ss))
        (with_heap (heap w ++ tag_blocks Live ss) w)
  | None =>
      forall ext,
        Q (Throws (JSError Napi_TypeError "A string was expected"))
          (with_heap (heap w ++ ext) w)
  end ->
  wp (JSArrayToCStringArray l) Q w.
Proof.
  intros H. pose proof (JSArrayToCStringArray_run l w) as Hrun.
  destruct (strings_of l) as [ss|].
  - eapply wp_run; eauto.
  - destruct Hrun as [ext Hrun]. eapply wp_run; eauto.
Qed.

Lemma wp_views_of (ss : list (list byte)) (base : nat)
    (pre post : list Block) Q (w : World E) :
  heap w = pre ++ tag_blocks Live ss ++ post ->
  base = length pre ->
  Q (Returns (map tag_view ss)) w ->
  wp (views_of (tag_ptrs base ss)) Q w.
Proof.
  intros Hw -> HQ. eapply wp_run; [apply (views_of_run ss pre post w Hw)|].
  exact HQ.
Qed.

Lemma wp_FreeCStringArray (ss : list (list byte)) (base : nat)
    (pre post : list Block) Q (w : World E) :
  heap w = pre ++ tag_blocks Live ss ++ post ->
  base = length pre ->
  Q (Returns tt)
    (with_heap (pre ++ tag_blocks (Released DeleteArray) ss ++ post) w) ->
  wp (FreeCStringArray (tag_ptrs base ss)) Q w.
Proof.
  intros Hw -> HQ.
  eapply wp_run; [apply (FreeCStringArray_run ss pre post w Hw)|].
  exact HQ.
Qed.

Lemma wp_view_at (n : nat) (pre post : list Block) (b : Block)
    (Q : Outcome ArgView -> World E -> Prop) (w : World E) :
  heap w = pre ++ b :: post -> n = length pre -> state b = Live ->
  Q (Returns (AData (content b))) w ->
  wp (view_of (Ptr n)) Q w.
Proof.
  intros Hw Hn Hb HQ. apply wp_view_of.
  rewrite (view_at n pre post b (heap w) Hw Hn Hb). exact HQ.
Qed.

Lemma wp_load_at (n : nat) (pre post : list Block) (b : Block)
    (Q : Outcome (list byte) -> World E -> Prop) (w : World E) :
  heap w = pre ++ b :: post -> n = length pre -> state b = Live ->
  Q (Returns (content b)) w ->
  wp (load (Ptr n)) Q w.
Proof.
  intros Hw Hn Hb HQ. apply wp_load.
  rewrite (view_at n pre post b (heap w) Hw Hn Hb). exact HQ.
Qed.

Lemma wp_release_at how (n : nat) (pre post : list Block) (b : Block)
    (Q : Outcome unit -> World E -> Prop) (w : World E) :
  heap w = pre ++ b :: post -> n = length pre -> state b = Live ->
  Q (Returns tt) (with_heap (pre ++ released how b :: post) w) ->
  wp (release how (Ptr n)) Q w.
Proof.
  intros Hw Hn Hb HQ.
  eapply wp_run; [apply (release_at how n pre post b w Hw Hn Hb)|].
  exact HQ.
Qed.

Lemma wp_scoped_copy (bytes : list byte) Q (w : World E) :
  Q (Returns (Ptr (S (length (heap w)))))
    (with_heap (heap w ++ tag_blocks Live [bytes]) w) ->
  wp (scoped_string bytes new_strcpy) Q w.
Proof. intros HQ. eapply wp_run; [apply scoped_copy_run|]. exact HQ. Qed.

End TagWrappers.

Ltac heap_eq :=
  cbn [heap with_heap tag_blocks flat_map]; repeat rewrite <- app_assoc;
  cbn [app]; rewrite ?app_nil_r; reflexivity.

Ltac len_eq :=
  cbn [heap with_heap]; repeat rewrite length_app; cbn [length];
  repeat rewrite length_app; repeat rewrite length_tag_blocks;
  cbn [length]; lia.

Section CreateRule.

Context {E : Engine}.


End CreateRule.

Section TagRules.

Context {E : Engine}.

Lemma wp_ConfsecClientSetDefaultNodeTags (d : spec_float)
    (tags : list JSValue) (rest : list JSValue)
    (Q : Outcome JSValue -> World E -> Prop) (w : World E) :
  match Double.to_uintptr d with
  | None => Q UndefinedBehaviour w
  | Some h =>
      match strings_of tags with
      | None =>
          forall hp,
            Q (Throws (JSError Napi_TypeError "A string was expected"))
              (with_heap hp w)
      | Some ss =>
          forall e st hp,
            Confsec_ClientSetDefaultNodeTags E h (map tag_view ss) (length ss)
              (engine_state w) = ((tt, e), st) ->
            Q (void_outcome e)
              {| engine_state := st; heap := hp;
                 calls :=
                   {| cr_entry := EP_ClientSetDefaultNodeTags;
                      cr_args := [ArgHandle h; ArgPtrs (map tag_view ss);
                                  ArgSize (length ss)];
                      cr_ret := RVoid; cr_err := e |} :: calls w |}
      end
  end ->
  wp (ConfsecClientSetDefaultNodeTags (JSNumber d :: JSArray tags :: rest))
     Q w.
Proof.
  intros HQ.
  unfold ConfsecClientSetDefaultNodeTags.
  cbn [length Nat.ltb Nat.leb info_at nth IsNumber IsArray negb orb].
  apply wp_bind. unfold handle_of. apply wp_bind. apply wp_ret.
  cbn [bindQ]. apply wp_defined.
  destruct (Double.to_uintptr d) as [h|]; [|exact HQ].
  cbn [bindQ]. repeat wp_step.
  apply wp_JSArrayToCStringArray.
  destruct (strings_of tags) as [ss|].
  2:{ intros ext. cbn [bindQ]. apply HQ. }
  cbn [bindQ]. apply wp_bind.
  eapply (wp_views_of ss _ (heap w) []); [heap_eq|reflexivity|].
  cbn [bindQ]. apply wp_bind. apply wp_engine_call.
  intros [] e st Hcall. cbn zeta.
  rewrite length_tag_ptrs in *.
  specialize (HQ e st). unfold void_outcome in HQ.
  destruct e as [blk|]; cbn [bindQ with_heap heap engine_state calls].
  - apply wp_bind.
    eapply (wp_FreeCStringArray ss _ (heap w) [_]); [heap_eq|len_eq|].
    cbn [bindQ]. apply wp_bind. unfold HANDLE_ERROR. apply wp_bind.
    eapply (wp_load_at _ (heap w ++ tag_blocks (Released DeleteArray) ss) []);
      [heap_eq|len_eq|reflexivity|].
    cbn [bindQ content]. apply wp_bind. apply wp_defined.
    destruct (CString.c_str blk) as [msg|].
    + cbn [bindQ]. apply wp_bind. unfold free.
      eapply (wp_release_at _ _
                (heap w ++ tag_blocks (Released DeleteArray) ss) []);
        [heap_eq|len_eq|reflexivity|].
      cbn [bindQ]. apply wp_throw. cbn [bindQ with_heap heap].
      apply HQ. exact Hcall.
    + cbn [bindQ with_heap heap]. apply HQ. exact Hcall.
  - apply wp_bind.
    eapply (wp_FreeCStringArray ss _ (heap w) []); [heap_eq|len_eq|].
    cbn [bindQ]. apply wp_bind. unfold HANDLE_ERROR. apply wp_ret.
    cbn [bindQ]. apply wp_ret. cbn [with_heap heap].
    apply HQ. exact Hcall.
Qed.

Lemma materialise_all_run (bs : list (list byte)) (w : World E) :
  materialise_all bs w
  = (Returns (map Ptr (seq (length (heap w)) (length bs))),
     with_heap (heap w ++ map engine_block bs) w).
Proof.
  revert w. induction bs as [|b bs IH]; intros w.
  - simpl. unfold mret, M_ret, with_heap. rewrite app_nil_r.
    destruct w; reflexivity.
  - cbn [materialise_all].
    rewrite (run_bind_returns _ _ w (Ptr (length (heap w)))
               (with_heap (heap w ++ [engine_block b]) w) eq_refl).
    rewrite (run_bind_returns _ _ _ _ _ (IH _)).
    unfold mret, M_ret, with_heap. cbn [heap engine_state calls length seq map].
    rewrite length_app. cbn [length].
    replace (length (heap w) + 1)%nat with (S (length (heap w))) by lia.
    rewrite <- app_assoc. reflexivity.
Qed.

Lemma String_New_run (a : nat) (blk : list byte) (w : World E) :
  view (heap w) (Ptr a) = AData blk ->
  String_New (Ptr a) w
  = (match CString.c_str blk with
     | Some s => Returns (JSString (UTF8.decode s))
     | None => UndefinedBehaviour
     end, w).
Proof.
  intros Hview. unfold String_New, mbind, M_bind, load. rewrite Hview.
  destruct (CString.c_str blk); reflexivity.
Qed.

Lemma tags_to_strings_run (tags : list (list byte)) (pre post : list Block)
    (w : World E) :
  heap w = pre ++ map engine_block tags ++ post ->
  forall n i,
    tags_to_strings (map Ptr (seq (length pre) (length tags))) i n w
    = (match read_tags tags i n with
       | Some r => Returns r
       | None => UndefinedBehaviour
       end, w).
Proof.
  intros Hw. induction n as [|n IH]; intros i.
  - reflexivity.
  - cbn [tags_to_strings read_tags].
    rewrite list_lookup_fmap.
    destruct (tags !! i) as [blk|] eqn:Hi.
    + assert (Hlt : (i < length tags)%nat) by (eapply lookup_lt_Some; eauto).
      rewrite lookup_seq_lt by assumption.
      cbn [fmap option_fmap option_map defined].
      rewrite run_ret_bind.
      assert (Hview : view (heap w) (Ptr (length pre + i)) = AData blk).
      { rewrite Hw, view_app_r. unfold view.
        rewrite lookup_app_l by (rewrite length_map; assumption).
        rewrite list_lookup_fmap, Hi. reflexivity. }
      pose proof (String_New_run (length pre + i) blk w Hview) as Hnew.
      destruct (CString.c_str blk) as [s|].
      * rewrite (run_bind_returns _ _ _ _ _ Hnew).
        unfold mbind, M_bind.
        rewrite IH. destruct (read_tags tags (S i) n); reflexivity.
      * unfold mbind, M_bind. rewrite Hnew. reflexivity.
    + rewrite lookup_seq_ge
        by (apply lookup_ge_None in Hi; assumption).
      reflexivity.
Qed.

Lemma wp_ConfsecClientGetDefaultNodeTags (d : spec_float)
    (rest : list JSValue) (Q : Outcome JSValue -> World E -> Prop)
    (w : World E) :
  match Double.to_uintptr d with
  | None => Q UndefinedBehaviour w
  | Some h =>
      forall tags count e st hp,
        Confsec_ClientGetDefaultNodeTags E h (engine_state w)
        = (((tags, count), e), st) ->
        Q (tags_outcome tags count e)
          {| engine_state := st; heap := hp;
             calls :=
               {| cr_entry := EP_ClientGetDefaultNodeTags;
                  cr_args := [ArgHandle h];
                  cr_ret := RTags tags count; cr_err := e |} :: calls w |}
  end ->
  wp (ConfsecClientGetDefaultNodeTags (JSNumber d :: rest)) Q w.
Proof.
  intros HQ.
  unfold ConfsecClientGetDefaultNodeTags.
  cbn [length Nat.ltb Nat.leb info_at nth IsNumber negb orb].
  apply wp_bind. unfold handle_of. apply wp_bind. apply wp_ret.
  cbn [bindQ]. apply wp_defined.
  destruct (Double.to_uintptr d) as [h|]; [|exact HQ].
  cbn [bindQ]. apply wp_bind. apply wp_engine_call.
  intros [tags count] e st Hcall. cbn zeta.
  specialize (HQ tags count e st). unfold tags_outcome in HQ.
  destruct e as [blk|]; cbn [bindQ with_heap heap engine_state calls fst snd].
  - apply wp_bind. eapply wp_run; [apply materialise_all_run|].
    cbn [bindQ with_heap heap]. apply wp_bind. unfold HANDLE_ERROR.
    apply wp_bind.
    eapply (wp_load_at _ (heap w) (map engine_block tags));
      [heap_eq|reflexivity|reflexivity|].
    cbn [bindQ content]. apply wp_bind. apply wp_defined.
    destruct (CString.c_str blk) as [msg|].
    + cbn [bindQ]. apply wp_bind. unfold free.
      eapply (wp_release_at _ _ (heap w) (map engine_block tags));
        [heap_eq|reflexivity|reflexivity|].
      cbn [bindQ]. apply wp_throw. cbn [bindQ with_heap heap].
      apply HQ. exact Hcall.
    + cbn [bindQ with_heap heap]. apply HQ. exact Hcall.
  - apply wp_bind. eapply wp_run; [apply materialise_all_run|].
    cbn [bindQ with_heap heap]. apply wp_bind. unfold HANDLE_ERROR.
    apply wp_ret. cbn [bindQ]. apply wp_bind.
    eapply wp_run;
      [apply (tags_to_strings_run tags (heap w) []); heap_eq|].
    destruct (read_tags tags 0 count) as [r|]; cbn [bindQ].
    + apply wp_ret. apply HQ. exact Hcall.
    + apply HQ. exact Hcall.
Qed.

End TagRules.

(** *** The shape of well-formed arguments *)

Lemma create_shape (info : list JSValue) :
  well_formed confsecClientCreate info = true ->
  exists k c m tags env rest,
    info = JSString k :: JSNumber c :: JSNumber m :: JSArray tags
             :: env :: rest
    /\ IsString env || IsNull env = true.
Proof.
  destruct info as [|v0 [|v1 [|v2 [|v3 [|v4 rest]]]]];
    try discriminate.
  cbn [well_formed length Nat.leb info_at nth].
  destruct v0; try discriminate. destruct v1; try discriminate.
  destruct v2; try discriminate. destruct v3; try discriminate.
  cbn [IsString IsNumber IsArray andb]. intros H.
  eexists _, _, _, _, _, _. split; [reflexivity|exact H].
Qed.

Lemma set_tags_shape (info : list JSValue) :
  well_formed confsecClientSetDefaultNodeTags info = true ->
  exists d tags rest, info = JSNumber d :: JSArray tags :: rest.
Proof.
  destruct info as [|v0 [|v1 rest]]; try discriminate.
  cbn [well_formed length Nat.leb info_at nth].
  destruct v0; try discriminate. destruct v1; try discriminate.
  intros _. eexists _, _, _. reflexivity.
Qed.

Lemma handle_shape (info : list JSValue) :
  (1 <=? length info)%nat && IsNumber (info_at info 0) = true ->
  exists d rest, info = JSNumber d :: rest.
Proof.
  destruct info as [|v0 rest]; try discriminate.
  cbn [length Nat.leb info_at nth].
  destruct v0; try discriminate.
  intros _. eexists _, _. reflexivity.
Qed.

Lemma malformed_rejected (E : Engine) (name : Export) (info : list JSValue)
    (w : World E) :
  well_formed name info = false ->
  exists msg, Init name info w = (Throws (JSError Napi_TypeError msg), w).
Proof.
  intros H.
  destruct name; cbn [well_formed] in H; cbn [Init];
    try (eexists;
         unfold ConfsecClientDestroy,
           ConfsecClientGetDefaultCreditAmountPerRequest,
           ConfsecClientGetMaxCandidateNodes, ConfsecClientGetDefaultNodeTags,
           ConfsecClientGetWalletStatus, ConfsecResponseDestroy,
           ConfsecResponseGetMetadata, ConfsecResponseIsStreaming,
           ConfsecResponseGetBody, ConfsecResponseGetStream,
           ConfsecResponseStreamGetNext, ConfsecResponseStreamDestroy;
         rewrite (handle_check_rejects info H); reflexivity).
  - unfold ConfsecClientCreate.
    rewrite (Nat.ltb_antisym 5 (length info)).
    destruct (5 <=? length info)%nat; cbn [negb]; [|eexists; reflexivity].
    destruct (IsString (info_at info 0)); cbn [negb]; [|eexists; reflexivity].
    destruct (IsNumber (info_at info 1)); cbn [negb]; [|eexists; reflexivity].
    destruct (IsNumber (info_at info 2)); cbn [negb]; [|eexists; reflexivity].
    destruct (IsArray (info_at info 3)); cbn [negb]; [|eexists; reflexivity].
    destruct (IsString (info_at info 4)), (IsNull (info_at info 4));
      try discriminate H.
    eexists; reflexivity.
  - unfold ConfsecClientSetDefaultNodeTags.
    rewrite (Nat.ltb_antisym 2 (length info)).
    destruct (2 <=? length info)%nat, (IsNumber (info_at info 0)),
      (IsArray (info_at info 1)); try discriminate H; eexists; reflexivity.
  - unfold ConfsecClientDoRequest.
    rewrite (Nat.ltb_antisym 2 (length info)).
    destruct (2 <=? length info)%nat, (IsNumber (info_at info 0)),
      (IsString (info_at info 1)), (IsBuffer (info_at info 1));
      try discriminate H; eexists; reflexivity.
Qed.



(** *** Integers as doubles *)

(** The two facts above, for either sign. *)
Lemma binary_round_aux_full_signed (s : bool) (m : positive) (e : Z) :
  Z.pos (digits2_pos m) = 53 -> -1074 <= e <= 971 ->
  binary_round_aux 53 1024 s (Z.pos m) e loc_Exact = S754_finite s m e.
Proof.
  intros Hd He.
  unfold binary_round_aux, shr_fexp, Zdigits2, fexp, emin.
  rewrite Hd.
  replace (Z.max (53 + e - 53) (3 - 1024 - 53) - e) with 0 by lia.
  cbn [shr shr_record_of_loc shr_m loc_of_shr_record round_nearest_even].
  cbn [Zdigits2]. rewrite Hd.
  replace (Z.max (53 + e - 53) (3 - 1024 - 53) - e) with 0 by lia.
  cbn [shr shr_record_of_loc shr_m].
  replace (e <=? 1024 - 53) with true by (symmetry; apply Z.leb_le; lia).
  reflexivity.
Qed.

Lemma binary_round_small (s : bool) (m : positive) :
  Z.pos m < 2 ^ 53 ->
  exists m' e, binary_round 53 1024 s m 0 = S754_finite s m' e
               /\ Double.trunc (S754_finite false m' e) = Some (Z.pos m).
Proof.
  intros Hm.
  pose proof (digits2_pos_le_prec m Hm) as Hd.
  unfold binary_round.
  unfold shl_align, fexp, emin.
  destruct (Z.eq_dec (Z.pos (digits2_pos m)) 53) as [Heq|Hne].
  - rewrite Heq. cbn [Z.add Z.sub Z.max].
    replace (Z.max (53 + 0 - 53) (3 - 1024 - 53) - 0) with 0 by lia.
    rewrite binary_round_aux_full_signed by (assumption || lia).
    exists m, 0. split; [reflexivity|]. simpl. f_equal. lia.
  - remember (Z.pos (digits2_pos m)) as dg eqn:Hdg.
    assert (Hpos : 0 < dg) by lia.
    replace (Z.max (dg + 0 - 53) (3 - 1024 - 53) - 0) with (dg - 53) by lia.
    destruct (dg - 53) as [|k|k] eqn:Hk; try lia.
    rewrite binary_round_aux_full_signed.
    + eexists _, _. split; [reflexivity|].
      assert (Hkk : Z.neg k = - Z.pos k) by lia.
      replace (Z.max (dg + 0 - 53) (3 - 1024 - 53)) with (Z.neg k) by lia.
      cbn [Double.trunc]. rewrite Zpos_iter_xO.
      rewrite Z.div_mul by (apply Z.pow_nonzero; lia). reflexivity.
    + rewrite digits2_pos_iter_xO, Pos2Z.inj_add. lia.
    + lia.
Qed.

(** An integer of magnitude below [2^53] is a double, exactly. *)
Lemma trunc_of_Z (n : Z) :
  - 2 ^ 53 < n < 2 ^ 53 -> Double.trunc (Double.of_Z n) = Some n.
Proof.
  intros Hn. destruct n as [|m|m].
  - reflexivity.
  - destruct (binary_round_small false m) as (m' & e & Hof & Htr); [lia|].
    unfold Double.of_Z, Double.prec, Double.emax, binary_normalize.
    rewrite Hof. exact Htr.
  - destruct (binary_round_small true m) as (m' & e & Hof & Htr); [lia|].
    unfold Double.of_Z, Double.prec, Double.emax, binary_normalize.
    rewrite Hof. cbn [Double.trunc] in *. inversion Htr as [Ha].
    rewrite Ha. reflexivity.
Qed.


(** *** Arrays of strings *)

Lemma strings_of_map (T : list js_string) :
  strings_of (map JSString T) = Some (map UTF8.encode T).
Proof.
  induction T as [|s T IH]; [reflexivity|].
  cbn [map strings_of]. rewrite IH. reflexivity.
Qed.

Lemma strings_of_all (l : list JSValue) :
  forallb IsString l = true -> exists ss, strings_of l = Some ss.
Proof.
  induction l as [|v l IH]; [eexists; reflexivity|].
  cbn [forallb]. destruct v; try discriminate. cbn [IsString andb].
  intros H. destruct (IH H) as [ss Hss]. cbn [strings_of]. rewrite Hss.
  eexists; reflexivity.
Qed.

(** *** Released blocks *)

Lemma all_released_tag_blocks (ss : list (list byte)) :
  all_released (tag_blocks (Released DeleteArray) ss).
Proof.
  unfold all_released.
  induction ss as [|s ss IH]; [constructor|].
  cbn [tag_blocks flat_map app].
  constructor; [reflexivity|]. constructor; [reflexivity|]. exact IH.
Qed.

Lemma all_released_err_blocks (e : option (list byte)) :
  all_released (err_blocks e).
Proof.
  unfold all_released, err_blocks.
  destruct e as [blk|]; [|constructor].
  constructor; [|constructor].
  destruct (CString.c_str blk); discriminate.
Qed.

Lemma all_released_env_blocks (env : JSValue) :
  all_released (env_blocks env).
Proof.
  destruct env; cbn [env_blocks];
    first [ apply all_released_tag_blocks
          | unfold all_released; constructor ].
Qed.

Lemma all_released_app (a b : list Block) :
  all_released a -> all_released b -> all_released (a ++ b).
Proof. unfold all_released. intros. apply Forall_app; split; assumption. Qed.

(** *** What the tag loop reads *)

Lemma read_tags_take (ts : list (list byte)) :
  forall (n i : nat),
    (i + n <= length ts)%nat ->
    read_tags (map CString.terminated ts) i n
    = Some (map (fun t => JSString (UTF8.decode (CString.until_nul t)))
                (take n (drop i ts))).
Proof.
  induction n as [|n IH]; intros i Hi; [reflexivity|].
  cbn [read_tags]. rewrite list_lookup_fmap.
  destruct (ts !! i) as [t|] eqn:Ht.
  2:{ apply lookup_ge_None in Ht. lia. }
  cbn [fmap option_fmap option_map]. rewrite c_str_terminated.
  rewrite IH by lia. rewrite (drop_S _ _ _ Ht). reflexivity.
Qed.

Lemma read_tags_overrun (tags : list (list byte)) :
  forall (n i : nat),
    (length tags < i + n)%nat -> (0 < n)%nat ->
    read_tags tags i n = None.
Proof.
  induction n as [|n IH]; intros i Hi Hn; [lia|].
  cbn [read_tags].
  destruct (tags !! i) as [blk|] eqn:Hblk; [|reflexivity].
  apply lookup_lt_Some in Hblk.
  destruct (CString.c_str blk); [|reflexivity].
  rewrite IH by lia. reflexivity.
Qed.


(** *** The complete run of the wrappers that marshal or receive a tag
    array: outcome, engine state, memory and log *)

Ltac run_eq Q :=
  subst Q; cbn beta; unfold with_heap; cbn [heap engine_state calls];
  repeat rewrite <- app_assoc; cbn [app tag_blocks flat_map];
  rewrite ?app_nil_r; reflexivity.

Section Runs.

Context {E : Engine}.

Lemma ConfsecClientSetDefaultNodeTags_run (d : spec_float) (h : Z)
    (tags : list JSValue) (ss : list (list byte)) (rest : list JSValue)
    (w : World E) (e : option (list byte)) (st : EState E) :
  Double.to_uintptr d = Some h ->
  strings_of tags = Some ss ->
  Confsec_ClientSetDefaultNodeTags E h (map tag_view ss) (length ss)
    (engine_state w) = ((tt, e), st) ->
  ConfsecClientSetDefaultNodeTags (JSNumber d :: JSArray tags :: rest) w
  = (void_outcome e,
     {| engine_state := st;
        heap := heap w ++ tag_blocks (Released DeleteArray) ss
                  ++ err_blocks e;
        calls := {| cr_entry := EP_ClientSetDefaultNodeTags;
                    cr_args := [ArgHandle h; ArgPtrs (map tag_view ss);
                                ArgSize (length ss)];
                    cr_ret := RVoid; cr_err := e |} :: calls w |}).
Proof.
  intros Hd Hss Hreply.
  destruct (ConfsecClientSetDefaultNodeTags
              (JSNumber d :: JSArray tags :: rest) w) as [o w'] eqn:Hrun.
  wp_start Hrun Q.
  unfold ConfsecClientSetDefaultNodeTags.
  cbn [length Nat.ltb Nat.leb info_at nth IsNumber IsArray negb orb].
  apply wp_bind. unfold handle_of. apply wp_bind. apply wp_ret.
  cbn [bindQ]. rewrite Hd. apply wp_ret.
  cbn [bindQ]. repeat wp_step.
  apply wp_JSArrayToCStringArray. rewrite Hss.
  cbn [bindQ]. apply wp_bind.
  eapply (wp_views_of ss _ (heap w) []); [heap_eq|reflexivity|].
  cbn [bindQ]. apply wp_bind. apply wp_engine_call.
  intros [] e0 st0 Hcall. cbn zeta.
  rewrite length_tag_ptrs in *.
  cbn [with_heap engine_state] in Hcall.
  rewrite Hreply in Hcall. inversion Hcall; subst e0 st0. clear Hcall.
  unfold void_outcome, err_blocks in Q.
  destruct e as [blk|]; cbn [bindQ with_heap heap engine_state calls].
  - apply wp_bind.
    eapply (wp_FreeCStringArray ss _ (heap w) [_]); [heap_eq|len_eq|].
    cbn [bindQ]. apply wp_bind. unfold HANDLE_ERROR. apply wp_bind.
    eapply (wp_load_at _ (heap w ++ tag_blocks (Released DeleteArray) ss) []);
      [heap_eq|len_eq|reflexivity|].
    cbn [bindQ content]. apply wp_bind. apply wp_defined.
    destruct (CString.c_str blk) as [msg|].
    + cbn [bindQ]. apply wp_bind. unfold free.
      eapply (wp_release_at _ _
                (heap w ++ tag_blocks (Released DeleteArray) ss) []);
        [heap_eq|len_eq|reflexivity|].
      cbn [bindQ]. apply wp_throw. run_eq Q.
    + cbn [bindQ with_heap heap]. run_eq Q.
  - apply wp_bind.
    eapply (wp_FreeCStringArray ss _ (heap w) []); [heap_eq|len_eq|].
    cbn [bindQ]. apply wp_bind. unfold HANDLE_ERROR. apply wp_ret.
    cbn [bindQ]. apply wp_ret. run_eq Q.
Qed.


Lemma ConfsecClientCreate_run (k : js_string) (c m : spec_float)
    (tags : list JSValue) (ss : list (list byte)) (env : JSValue)
    (rest : list JSValue) (w : World E)
    (handle : Z) (e : option (list byte)) (st : EState E) :
  IsString env || IsNull env = true ->
  strings_of tags = Some ss ->
  Confsec_ClientCreate E (AData (c_string k)) (Double.to_int32 c)
    (Double.to_int32 m) (map tag_view ss) (length ss) (env_view env)
    (engine_state w) = ((handle, e), st) ->
  ConfsecClientCreate
    (JSString k :: JSNumber c :: JSNumber m :: JSArray tags :: env :: rest) w
  = (handle_outcome "Unexpected error creating client" handle e,
     {| engine_state := st;
        heap := heap w
                  ++ {| content := c_string k; allocator := ByStdString;
                        state := Released Destructor |}
                  :: tag_blocks (Released DeleteArray) ss
                  ++ env_blocks env ++ err_blocks e;
        calls :=
          {| cr_entry := EP_ClientCreate;
             cr_args := [ArgPtr (AData (c_string k));
                         ArgInt (Double.to_int32 c);
                         ArgInt (Double.to_int32 m);
                         ArgPtrs (map tag_view ss);
                         ArgSize (length ss);
                         ArgPtr (env_view env)];
             cr_ret := RHandle handle; cr_err := e |} :: calls w |}).
Proof.
  intros Henv Hss Hreply.
  destruct (ConfsecClientCreate
    (JSString k :: JSNumber c :: JSNumber m :: JSArray tags :: env :: rest) w)
    as [o w'] eqn:Hrun.
  wp_start Hrun Q.
  unfold ConfsecClientCreate.
  cbn [length Nat.ltb Nat.leb info_at nth IsString IsNumber IsArray negb].
  rewrite <- negb_orb, Henv. cbn [negb].
  repeat wp_step.
  apply wp_JSArrayToCStringArray. cbn [heap with_heap]. rewrite Hss.
  set (K := {| content := CString.terminated (UTF8.encode k);
               allocator := ByStdString; state := Live |}).
  unfold handle_outcome, err_blocks, env_blocks, c_string in Q.
  cbn [bindQ]. apply wp_bind.
  destruct env; try discriminate Henv.
  - (* null *)
    cbn [IsString]. apply wp_ret. cbn [bindQ].
    apply wp_bind.
    eapply (wp_view_at _ (heap w) _ K); [heap_eq|reflexivity|reflexivity|].
    cbn [bindQ]. apply wp_bind.
    eapply (wp_views_of ss _ (heap w ++ [K]) []); [heap_eq|reflexivity|].
    cbn [bindQ]. do 2 wp_step. cbn [view bindQ].
    apply wp_bind. apply wp_engine_call. intros handle0 e0 st0 Hcall. cbn zeta.
    rewrite length_tag_ptrs in *.
    cbn [with_heap engine_state env_view] in Hcall, Hreply.
    unfold c_string in Hreply. subst K. cbn [content] in Hcall.
    set (K := {| content := CString.terminated (UTF8.encode k);
                 allocator := ByStdString; state := Live |}).
    rewrite Hreply in Hcall. inversion Hcall; subst handle0 e0 st0.
    clear Hcall.
    destruct e as [blk|]; cbn [bindQ with_heap heap engine_state calls].
    + apply wp_bind.
      eapply (wp_FreeCStringArray ss _ (heap w ++ [K]) [_]); [heap_eq|len_eq|].
      cbn [bindQ]. do 3 wp_step. apply wp_bind. unfold HANDLE_ERROR.
      apply wp_bind.
      eapply (wp_load_at _ (heap w ++ K :: tag_blocks (Released DeleteArray) ss) []);
        [heap_eq|len_eq|reflexivity|].
      cbn [bindQ content]. apply wp_bind. apply wp_defined.
      destruct (CString.c_str blk) as [msg|].
      * cbn [bindQ]. apply wp_bind. unfold free.
        eapply (wp_release_at _ _ (heap w ++ K :: tag_blocks (Released DeleteArray) ss) []);
          [heap_eq|len_eq|reflexivity|].
        cbn [bindQ]. apply wp_throw. cbn [bindQ with_heap heap].
        rewrite <- app_assoc. cbn [app].
        rewrite (mark_released_mid Destructor (heap w) _ K eq_refl).
        run_eq Q.
      * cbn [bindQ with_heap heap].
        rewrite <- app_assoc. cbn [app].
        rewrite (mark_released_mid Destructor (heap w) _ K eq_refl).
        run_eq Q.
    + apply wp_bind.
      eapply (wp_FreeCStringArray ss _ (heap w ++ [K]) []); [heap_eq|len_eq|].
      cbn [bindQ]. do 3 wp_step. apply wp_bind. unfold HANDLE_ERROR.
      apply wp_ret. cbn [bindQ].
      destruct (handle =? 0).
      * apply wp_throw. cbn [with_heap heap].
        rewrite <- app_assoc. cbn [app].
        rewrite (mark_released_mid Destructor (heap w) _ K eq_refl).
        run_eq Q.
      * apply wp_ret. cbn [with_heap heap].
        rewrite <- app_assoc. cbn [app].
        rewrite (mark_released_mid Destructor (heap w) _ K eq_refl).
        run_eq Q.
  - (* a string *)
    cbn [IsString]. apply wp_bind. apply wp_ret. cbn [bindQ].
    apply wp_scoped_copy. cbn [bindQ with_heap heap].
    apply wp_bind.
    eapply (wp_view_at _ (heap w) _ K); [heap_eq|reflexivity|reflexivity|].
    cbn [bindQ]. apply wp_bind.
    eapply (wp_views_of ss _ (heap w ++ [K]) (tag_blocks Live [_]));
      [heap_eq|reflexivity|].
    cbn [bindQ]. apply wp_bind.
    eapply (wp_view_at _ ((heap w ++ [K]) ++ tag_blocks Live ss ++ [_]) []);
      [heap_eq|len_eq|reflexivity|].
    cbn [bindQ content].
    apply wp_bind. apply wp_engine_call. intros handle0 e0 st0 Hcall. cbn zeta.
    rewrite length_tag_ptrs in *.
    cbn [with_heap engine_state env_view] in Hcall, Hreply.
    unfold c_string in Hreply. subst K. cbn [content] in Hcall.
    set (K := {| content := CString.terminated (UTF8.encode k);
                 allocator := ByStdString; state := Live |}).
    rewrite Hreply in Hcall. inversion Hcall; subst handle0 e0 st0.
    clear Hcall.
    destruct e as [blk|]; cbn [bindQ with_heap heap engine_state calls].
    + apply wp_bind.
      eapply (wp_FreeCStringArray ss _ (heap w ++ [K]) (tag_blocks Live [_] ++ [_]));
        [heap_eq|len_eq|].
      cbn [bindQ is_null]. apply wp_bind. unfold delete_array.
      eapply (wp_release_at _ _ ((heap w ++ [K]) ++ tag_blocks (Released DeleteArray) ss ++ [_]) [_]);
        [heap_eq|len_eq|reflexivity|].
      cbn [bindQ]. apply wp_bind. unfold HANDLE_ERROR.
      apply wp_bind.
      eapply (wp_load_at _ (((heap w ++ [K]) ++ tag_blocks (Released DeleteArray) ss ++ [_]) ++ [_]) []);
        [heap_eq|len_eq|reflexivity|].
      cbn [bindQ content]. apply wp_bind. apply wp_defined.
      destruct (CString.c_str blk) as [msg|].
      * cbn [bindQ]. apply wp_bind. unfold free.
        eapply (wp_release_at _ _ (((heap w ++ [K]) ++ tag_blocks (Released DeleteArray) ss ++ [_]) ++ [_]) []);
          [heap_eq|len_eq|reflexivity|].
        cbn [bindQ]. apply wp_throw. cbn [bindQ with_heap heap].
        repeat rewrite <- app_assoc. cbn [app].
        rewrite (mark_released_mid Destructor (heap w) _ K eq_refl).
        run_eq Q.
      * cbn [bindQ with_heap heap].
        repeat rewrite <- app_assoc. cbn [app].
        rewrite (mark_released_mid Destructor (heap w) _ K eq_refl).
        run_eq Q.
    + apply wp_bind.
      eapply (wp_FreeCStringArray ss _ (heap w ++ [K]) (tag_blocks Live [_]));
        [heap_eq|len_eq|].
      cbn [bindQ is_null]. apply wp_bind. unfold delete_array.
      eapply (wp_release_at _ _ ((heap w ++ [K]) ++ tag_blocks (Released DeleteArray) ss ++ [_]) []);
        [heap_eq|len_eq|reflexivity|].
      cbn [bindQ]. apply wp_bind. unfold HANDLE_ERROR.
      apply wp_ret. cbn [bindQ].
      destruct (handle =? 0).
      * apply wp_throw. cbn [with_heap heap].
        repeat rewrite <- app_assoc. cbn [app].
        rewrite (mark_released_mid Destructor (heap w) _ K eq_refl).
        run_eq Q.
      * apply wp_ret. cbn [with_heap heap].
        repeat rewrite <- app_assoc. cbn [app].
        rewrite (mark_released_mid Destructor (heap w) _ K eq_refl).
        run_eq Q.
Qed.

Lemma ConfsecClientGetDefaultNodeTags_run (d : spec_float) (h : Z)
    (rest : list JSValue) (w : World E) (tags : list (list byte))
    (count : nat) (e : option (list byte)) (st : EState E) :
  Double.to_uintptr d = Some h ->
  Confsec_ClientGetDefaultNodeTags E h (engine_state w)
  = (((tags, count), e), st) ->
  ConfsecClientGetDefaultNodeTags (JSNumber d :: rest) w
  = (tags_outcome tags count e,
     {| engine_state := st;
        heap := heap w ++ err_blocks e ++ map engine_block tags;
        calls := {| cr_entry := EP_ClientGetDefaultNodeTags;
                    cr_args := [ArgHandle h];
                    cr_ret := RTags tags count; cr_err := e |} :: calls w |}).
Proof.
  intros Hd Hreply.
  destruct (ConfsecClientGetDefaultNodeTags (JSNumber d :: rest) w)
    as [o w'] eqn:Hrun.
  wp_start Hrun Q.
  unfold ConfsecClientGetDefaultNodeTags.
  cbn [length Nat.ltb Nat.leb info_at nth IsNumber negb orb].
  apply wp_bind. unfold handle_of. apply wp_bind. apply wp_ret.
  cbn [bindQ]. rewrite Hd. apply wp_ret.
  cbn [bindQ]. apply wp_bind. apply wp_engine_call.
  intros [tags0 count0] e0 st0 Hcall. cbn zeta.
  rewrite Hreply in Hcall. inversion Hcall; subst tags0 count0 e0 st0.
  clear Hcall.
  unfold tags_outcome, err_blocks in Q.
  destruct e as [blk|]; cbn [bindQ with_heap heap engine_state calls fst snd].
  - apply wp_bind. eapply wp_run; [apply materialise_all_run|].
    cbn [bindQ with_heap heap]. apply wp_bind. unfold HANDLE_ERROR.
    apply wp_bind.
    eapply (wp_load_at _ (heap w) (map engine_block tags));
      [heap_eq|reflexivity|reflexivity|].
    cbn [bindQ content]. apply wp_bind. apply wp_defined.
    destruct (CString.c_str blk) as [msg|].
    + cbn [bindQ]. apply wp_bind. unfold free.
      eapply (wp_release_at _ _ (heap w) (map engine_block tags));
        [heap_eq|reflexivity|reflexivity|].
      cbn [bindQ]. apply wp_throw. run_eq Q.
    + cbn [bindQ with_heap heap]. run_eq Q.
  - apply wp_bind. eapply wp_run; [apply materialise_all_run|].
    cbn [bindQ with_heap heap]. apply wp_bind. unfold HANDLE_ERROR.
    apply wp_ret. cbn [bindQ]. apply wp_bind.
    eapply wp_run;
      [apply (tags_to_strings_run tags (heap w) []); heap_eq|].
    destruct (read_tags tags 0 count) as [r|]; cbn [bindQ].
    + apply wp_ret. run_eq Q.
    + run_eq Q.
Qed.

End Runs.


(** *** Stepping to the end of a wrapper *)

Ltac unfold_wrapper :=
  unfold ConfsecClientDestroy,
    ConfsecClientGetDefaultCreditAmountPerRequest,
    ConfsecClientGetMaxCandidateNodes, ConfsecClientGetWalletStatus,
    ConfsecClientDoRequest, ConfsecResponseDestroy,
    ConfsecResponseGetMetadata, ConfsecResponseIsStreaming,
    ConfsecResponseGetBody, ConfsecResponseGetStream,
    ConfsecResponseStreamGetNext, ConfsecResponseStreamDestroy.

(** The argument checks pass and the handle converts. *)
Ltac handle_ok Hd :=
  cbn [length Nat.ltb Nat.leb info_at nth IsNumber IsString IsBuffer
       negb orb andb];
  apply wp_bind; unfold handle_of; apply wp_bind; apply wp_ret;
  cbn [bindQ]; rewrite Hd; apply wp_ret; cbn [bindQ].

Ltac reply_subst :=
  repeat match goal with
         | Hc : context [engine_state (with_heap _ _)] |- _ =>
             cbn [engine_state with_heap] in Hc
         end;
  repeat match goal with
         | Hr : ?l = (_, _, _), Hc : ?l = (_, _, _) |- _ =>
             tryif constr_eq Hr Hc then fail
             else (rewrite Hr in Hc; inversion Hc; subst; clear Hc)
         end.

Ltac run_done Q :=
  subst Q; cbn beta; reply_subst;
  unfold after_call, value_outcome, void_outcome, handle_outcome,
    err_blocks, with_heap;
  cbn [heap engine_state calls];
  repeat match goal with
         | H : CString.c_str ?l = _ |- context [CString.c_str ?l] =>
             rewrite H
         | H : (?x =? 0) = _ |- context [?x =? 0] => rewrite H
         end;
  repeat rewrite <- app_assoc; cbn [app]; rewrite ?app_nil_r;
  try reflexivity.


(** * Part III: the claims *)

Ltac outcome_done Q :=
  subst Q; cbn beta; reply_subst;
  try match goal with
      | H : (0 =? 0) = false |- _ => discriminate H
      end;
  wp_done; try reflexivity.

(** C1.  When the engine reports success (no error message) but returns
    an impossible result, a zero handle or a null payload, the five
    creation-style and getter wrappers (ClientCreate, ClientDoRequest,
    ResponseGetStream, ResponseGetMetadata, ResponseGetBody) raise an
    [Error] with their own message; they do not return the zero handle or
    an empty value.  The reply is that of the engine's entry point at the
    arguments the wrapper hands it. *)
Theorem C1_contract_violation_raises
    (E : Engine) (w : World E) (d : spec_float) (h : Z)
    (rest : list JSValue) (st : EState E) :
  Double.to_uintptr d = Some h ->
  (forall (k : js_string) (c m : spec_float) (T : list js_string)
          (env : JSValue),
     IsString env || IsNull env = true ->
     Confsec_ClientCreate E (AData (c_string k)) (Double.to_int32 c)
       (Double.to_int32 m) (map tag_view (map UTF8.encode T)) (length T)
       (env_view env) (engine_state w) = ((0, None), st) ->
     (ConfsecClientCreate
        (JSString k :: JSNumber c :: JSNumber m :: JSArray (map JSString T)
           :: env :: rest) w).1
     = Throws (JSError Napi_Error "Unexpected error creating client"))
  /\ (forall data : list byte,
        Confsec_ClientDoRequest E h (buffer_view data) (length data)
          (engine_state w) = ((0, None), st) ->
        (ConfsecClientDoRequest (JSNumber d :: JSBuffer data :: rest) w).1
        = Throws (JSError Napi_Error "Unexpected request failure"))
  /\ (forall s : js_string,
        Confsec_ClientDoRequest E h ADangling (length (UTF8.encode s))
          (engine_state w) = ((0, None), st) ->
        (ConfsecClientDoRequest (JSNumber d :: JSString s :: rest) w).1
        = Throws (JSError Napi_Error "Unexpected request failure"))
  /\ (Confsec_ResponseGetStream E h (engine_state w) = ((0, None), st) ->
      (ConfsecResponseGetStream (JSNumber d :: rest) w).1
      = Throws (JSError Napi_Error
                  "Unexpected error getting response stream"))
  /\ (Confsec_ResponseGetMetadata E h (engine_state w)
      = ((None, None), st) ->
      (ConfsecResponseGetMetadata (JSNumber d :: rest) w).1
      = Throws (JSError Napi_Error
                  "Unexpected error getting request metadata"))
  /\ (Confsec_ResponseGetBody E h (engine_state w) = ((None, None), st) ->
      (ConfsecResponseGetBody (JSNumber d :: rest) w).1
      = Throws (JSError Napi_Error "Unexpected error getting request body")).
Proof.
  intros Hd.
  split; [|split; [|split; [|split; [|split]]]].
  - intros k c m T env Henv Hreply.
    rewrite <- (length_map UTF8.encode T) in Hreply.
    rewrite (ConfsecClientCreate_run k c m (map JSString T)
               (map UTF8.encode T) env rest w 0 None st Henv
               (strings_of_map T) Hreply).
    reflexivity.
  - intros data Hreply.
    destruct (ConfsecClientDoRequest (JSNumber d :: JSBuffer data :: rest) w)
      as [o w'] eqn:Hrun.
    cbn [fst]. wp_start Hrun Q. unfold_wrapper. handle_ok Hd.
    unfold request_of. cbn [IsString]. unfold Buffer_Data.
    destruct data as [|b data]; cbn [buffer_view length] in Hreply;
      repeat wp_step; outcome_done Q.
  - intros s Hreply.
    destruct (ConfsecClientDoRequest (JSNumber d :: JSString s :: rest) w)
      as [o w'] eqn:Hrun.
    cbn [fst]. wp_start Hrun Q. unfold_wrapper. handle_ok Hd.
    unfold request_of. cbn [IsString].
    repeat wp_step; outcome_done Q.
  - intros Hreply.
    destruct (ConfsecResponseGetStream (JSNumber d :: rest) w)
      as [o w'] eqn:Hrun.
    cbn [fst]. wp_start Hrun Q. unfold_wrapper. handle_ok Hd.
    repeat wp_step; outcome_done Q.
  - intros Hreply.
    destruct (ConfsecResponseGetMetadata (JSNumber d :: rest) w)
      as [o w'] eqn:Hrun.
    cbn [fst]. wp_start Hrun Q. unfold_wrapper. handle_ok Hd.
    repeat wp_step; outcome_done Q.
  - intros Hreply.
    destruct (ConfsecResponseGetBody (JSNumber d :: rest) w)
      as [o w'] eqn:Hrun.
    cbn [fst]. wp_start Hrun Q. unfold_wrapper. handle_ok Hd.
    repeat wp_step; outcome_done Q.
Qed.

Lemma C1_contract_violation_raises_witness :
  (ConfsecResponseGetBody [number 2] (scripted_world 0 None None)).1
  = Throws (JSError Napi_Error "Unexpected error getting request body")
  /\ (ConfsecClientCreate
        [JSString "key123"; number 10; number 5; JSArray []; JSNull]
        (scripted_world 0 None None)).1
     = Throws (JSError Napi_Error "Unexpected error creating client").
Proof.
  pose (H := C1_contract_violation_raises (scripted 0 None None)
               (scripted_world 0 None None) (Double.of_Z 2) 2 [] tt eq_refl).
  split.
  - exact (proj2 (proj2 (proj2 (proj2 (proj2 H)))) eq_refl).
  - exact (proj1 H "key123"%string (Double.of_Z 10) (Double.of_Z 5) [] JSNull
             eq_refl eq_refl).
Defined.

(** C2, as amended.  [ConfsecResponseGetBody] hands back the engine's body
    read as a NUL-terminated string: when the engine returns, with no
    error, a pointer to memory holding [payload], a zero byte and
    whatever follows, the caller gets the bytes of [payload] before its
    first zero byte; a payload with no zero byte is returned in full. *)
Theorem C2_get_body_up_to_first_zero_byte
    (E : Engine) (d : spec_float) (h : Z) (rest : list JSValue)
    (w : World E) (payload tail : list byte) (st : EState E) :
  Double.to_uintptr d = Some h ->
  Confsec_ResponseGetBody E h (engine_state w)
  = ((Some (payload ++ CString.NUL :: tail), None), st) ->
  let outcome := (ConfsecResponseGetBody (JSNumber d :: rest) w).1 in
  outcome = Returns (JSBuffer (CString.until_nul payload))
  /\ (CString.nul_free payload = true ->
      outcome = Returns (JSBuffer payload)).
Proof.
  intros Hd Hreply. cbn zeta.
  assert (Hout : (ConfsecResponseGetBody (JSNumber d :: rest) w).1
                 = Returns (JSBuffer (CString.until_nul payload))).
  { destruct (ConfsecResponseGetBody (JSNumber d :: rest) w)
      as [o w'] eqn:Hrun.
    cbn [fst]. wp_start Hrun Q. unfold ConfsecResponseGetBody.
    cbn [length Nat.ltb Nat.leb info_at nth IsNumber negb orb].
    apply wp_bind. unfold handle_of. apply wp_bind. apply wp_ret.
    cbn [bindQ]. rewrite Hd. apply wp_ret. cbn [bindQ].
    repeat wp_step; subst Q; cbn beta;
      repeat match goal with
             | H : context [CString.c_str (_ ++ CString.NUL :: _)] |- _ =>
                 rewrite c_str_app_nul in H
             end;
      wp_done.
    f_equal. f_equal. apply c_str_prefix. apply c_str_app_nul. }
  split; [exact Hout|].
  intros Hfree. rewrite Hout, (until_nul_nul_free _ Hfree). reflexivity.
Qed.


Lemma C2_get_body_up_to_first_zero_byte_witness :
  (ConfsecResponseGetBody [number 2]
     (scripted_world 0 (Some (c_string "hello")) None)).1
  = Returns (JSBuffer (UTF8.encode "hello")).
Proof.
  apply (proj2 (C2_get_body_up_to_first_zero_byte
                  (scripted 0 (Some (c_string "hello")) None)
                  (Double.of_Z 2) 2 []
                  (scripted_world 0 (Some (c_string "hello")) None)
                  (UTF8.encode "hello") [] tt eq_refl eq_refl)
               eq_refl).
Defined.


(** C2 as stated fails: a body with an embedded zero byte comes back cut
    at that byte. *)
Lemma C2_counterexample :
  (ConfsecResponseGetBody [number 2]
     (scripted_world 0 (Some (c_string a_nul_b)) None)).1
  = Returns (JSBuffer (UTF8.encode "a"))
  /\ JSBuffer (UTF8.encode "a")
     <> JSBuffer (UTF8.encode a_nul_b).
Proof.
  split; [vm_compute; reflexivity|discriminate].
Qed.

(** C3, evaluated where the code departs from it.  The message of an
    engine error is released by [HANDLE_ERROR] with the C library's
    [free], not with [Confsec_Free]; the strings of the tag list that
    [ConfsecClientGetDefaultNodeTags] receives are never released.  The
    wallet status, by contrast, is released with [Confsec_Free], the
    function that matches the engine's allocator. *)
Theorem C3_error_message_freed_natively_and_tags_never_released :
  heap (ConfsecClientDestroy [number 7]
          (scripted_world 0 None (Some (c_string "invalid handle")))).2
  = [ {| content := c_string "invalid handle"; allocator := ByEngine;
         state := Released NativeFree |} ]
  /\ engine_blocks
       (heap (ConfsecClientGetDefaultNodeTags [number 1] one_client).2)
     = [ {| content := c_string "tag1"; allocator := ByEngine;
            state := Live |} ]
  /\ engine_blocks
       (heap (ConfsecClientGetWalletStatus [number 1] one_client).2)
     = [ {| content := c_string ""; allocator := ByEngine;
            state := Released ConfsecFree |} ]
  /\ matching ByEngine = ConfsecFree.
Proof.
  repeat split; vm_compute; reflexivity.
Qed.


Ltac raises_done Q :=
  subst Q; cbn beta; reply_subst; wp_done;
  unfold raises; cbn [fst snd engine_state calls with_heap];
  (split; [reflexivity|]); (split; [reflexivity|]);
  eexists; (split; [reflexivity|]); split; reflexivity.

(** C4, as amended.  When the engine reports an error, whatever the
    export: the caller gets an [Error] whose text is the engine's message
    decoded as UTF-8, the engine has been called once (through the entry
    point of the export, at the arguments the wrapper marshals) and is
    left in the state of that one reply: nothing is retried.  The class
    is [Error] for every engine error, so the failure does not tell the
    five kinds apart.  A message that is the UTF-8 encoding of a
    well-formed string arrives as that string. *)
Theorem C4_engine_errors_surface_decoded
    (E : Engine) (w : World E) (d : spec_float) (h : Z)
    (rest : list JSValue) (blk msg : list byte) (st : EState E) :
  Double.to_uintptr d = Some h ->
  CString.c_str blk = Some msg ->
  (forall (k : js_string) (c m : spec_float) (T : list js_string)
          (env : JSValue) (handle : Z),
     IsString env || IsNull env = true ->
     Confsec_ClientCreate E (AData (c_string k)) (Double.to_int32 c)
       (Double.to_int32 m) (map tag_view (map UTF8.encode T)) (length T)
       (env_view env) (engine_state w) = ((handle, Some blk), st) ->
     raises w EP_ClientCreate blk msg st
       (ConfsecClientCreate
          (JSString k :: JSNumber c :: JSNumber m :: JSArray (map JSString T)
             :: env :: rest) w))
  /\ (Confsec_ClientDestroy E h (engine_state w) = ((tt, Some blk), st) ->
      raises w EP_ClientDestroy blk msg st
        (ConfsecClientDestroy (JSNumber d :: rest) w))
  /\ (forall n : Z,
        Confsec_ClientGetDefaultCreditAmountPerRequest E h (engine_state w)
        = ((n, Some blk), st) ->
        raises w EP_ClientGetDefaultCreditAmountPerRequest blk msg st
          (ConfsecClientGetDefaultCreditAmountPerRequest
             (JSNumber d :: rest) w))
  /\ (forall n : Z,
        Confsec_ClientGetMaxCandidateNodes E h (engine_state w)
        = ((n, Some blk), st) ->
        raises w EP_ClientGetMaxCandidateNodes blk msg st
          (ConfsecClientGetMaxCandidateNodes (JSNumber d :: rest) w))
  /\ (forall (tags : list (list byte)) (count : nat),
        Confsec_ClientGetDefaultNodeTags E h (engine_state w)
        = (((tags, count), Some blk), st) ->
        raises w EP_ClientGetDefaultNodeTags blk msg st
          (ConfsecClientGetDefaultNodeTags (JSNumber d :: rest) w))
  /\ (forall T : list js_string,
        Confsec_ClientSetDefaultNodeTags E h
          (map tag_view (map UTF8.encode T)) (length T) (engine_state w)
        = ((tt, Some blk), st) ->
        raises w EP_ClientSetDefaultNodeTags blk msg st
          (ConfsecClientSetDefaultNodeTags
             (JSNumber d :: JSArray (map JSString T) :: rest) w))
  /\ (forall p : option (list byte),
        Confsec_ClientGetWalletStatus E h (engine_state w)
        = ((p, Some blk), st) ->
        raises w EP_ClientGetWalletStatus blk msg st
          (ConfsecClientGetWalletStatus (JSNumber d :: rest) w))
  /\ (forall (data : list byte) (r : Z),
        Confsec_ClientDoRequest E h (buffer_view data) (length data)
          (engine_state w) = ((r, Some blk), st) ->
        raises w EP_ClientDoRequest blk msg st
          (ConfsecClientDoRequest (JSNumber d :: JSBuffer data :: rest) w))
  /\ (forall (s : js_string) (r : Z),
        Confsec_ClientDoRequest E h ADangling (length (UTF8.encode s))
          (engine_state w) = ((r, Some blk), st) ->
        raises w EP_ClientDoRequest blk msg st
          (ConfsecClientDoRequest (JSNumber d :: JSString s :: rest) w))
  /\ (Confsec_ResponseDestroy E h (engine_state w) = ((tt, Some blk), st) ->
      raises w EP_ResponseDestroy blk msg st
        (ConfsecResponseDestroy (JSNumber d :: rest) w))
  /\ (forall p : option (list byte),
        Confsec_ResponseGetMetadata E h (engine_state w)
        = ((p, Some blk), st) ->
        raises w EP_ResponseGetMetadata blk msg st
          (ConfsecResponseGetMetadata (JSNumber d :: rest) w))
  /\ (forall b : bool,
        Confsec_ResponseIsStreaming E h (engine_state w)
        = ((b, Some blk), st) ->
        raises w EP_ResponseIsStreaming blk msg st
          (ConfsecResponseIsStreaming (JSNumber d :: rest) w))
  /\ (forall p : option (list byte),
        Confsec_ResponseGetBody E h (engine_state w) = ((p, Some blk), st) ->
        raises w EP_ResponseGetBody blk msg st
          (ConfsecResponseGetBody (JSNumber d :: rest) w))
  /\ (forall s : Z,
        Confsec_ResponseGetStream E h (engine_state w)
        = ((s, Some blk), st) ->
        raises w EP_ResponseGetStream blk msg st
          (ConfsecResponseGetStream (JSNumber d :: rest) w))
  /\ (forall p : option (list byte),
        Confsec_ResponseStreamGetNext E h (engine_state w)
        = ((p, Some blk), st) ->
        raises w EP_ResponseStreamGetNext blk msg st
          (ConfsecResponseStreamGetNext (JSNumber d :: rest) w))
  /\ (Confsec_ResponseStreamDestroy E h (engine_state w)
      = ((tt, Some blk), st) ->
      raises w EP_ResponseStreamDestroy blk msg st
        (ConfsecResponseStreamDestroy (JSNumber d :: rest) w))
  /\ (forall s : js_string,
        UTF8.well_formed s = true -> msg = UTF8.encode s ->
        UTF8.decode msg = s).
Proof.
  intros Hd Hmsg.
  repeat match goal with |- _ /\ _ => split end.
  - (* ConfsecClientCreate *)
    intros k c m T env handle Henv Hreply.
    rewrite <- (length_map UTF8.encode T) in Hreply.
    rewrite (ConfsecClientCreate_run k c m (map JSString T)
               (map UTF8.encode T) env rest w handle (Some blk) st Henv
               (strings_of_map T) Hreply).
    unfold raises, handle_outcome. rewrite Hmsg.
    cbn [fst snd engine_state calls].
    split; [reflexivity|]. split; [reflexivity|].
    eexists. split; [reflexivity|]. split; reflexivity.
  - intros Hreply.
    destruct (ConfsecClientDestroy (JSNumber d :: rest) w)
      as [o w'] eqn:Hrun.
    wp_start Hrun Q. unfold_wrapper. handle_ok Hd.
    repeat wp_step; raises_done Q.
  - intros n Hreply.
    destruct (ConfsecClientGetDefaultCreditAmountPerRequest
                (JSNumber d :: rest) w) as [o w'] eqn:Hrun.
    wp_start Hrun Q. unfold_wrapper. handle_ok Hd.
    repeat wp_step; raises_done Q.
  - intros n Hreply.
    destruct (ConfsecClientGetMaxCandidateNodes (JSNumber d :: rest) w)
      as [o w'] eqn:Hrun.
    wp_start Hrun Q. unfold_wrapper. handle_ok Hd.
    repeat wp_step; raises_done Q.
  - (* ConfsecClientGetDefaultNodeTags *)
    intros tags count Hreply.
    rewrite (ConfsecClientGetDefaultNodeTags_run d h rest w tags count
               (Some blk) st Hd Hreply).
    unfold raises, tags_outcome. rewrite Hmsg.
    cbn [fst snd engine_state calls].
    split; [reflexivity|]. split; [reflexivity|].
    eexists. split; [reflexivity|]. split; reflexivity.
  - (* ConfsecClientSetDefaultNodeTags *)
    intros T Hreply.
    rewrite <- (length_map UTF8.encode T) in Hreply.
    rewrite (ConfsecClientSetDefaultNodeTags_run d h (map JSString T)
               (map UTF8.encode T) rest w (Some blk) st Hd
               (strings_of_map T) Hreply).
    unfold raises, void_outcome. rewrite Hmsg.
    cbn [fst snd engine_state calls].
    split; [reflexivity|]. split; [reflexivity|].
    eexists. split; [reflexivity|]. split; reflexivity.
  - intros p Hreply.
    destruct (ConfsecClientGetWalletStatus (JSNumber d :: rest) w)
      as [o w'] eqn:Hrun.
    wp_start Hrun Q. unfold_wrapper. handle_ok Hd.
    repeat wp_step; raises_done Q.
  - intros data r Hreply.
    destruct (ConfsecClientDoRequest (JSNumber d :: JSBuffer data :: rest) w)
      as [o w'] eqn:Hrun.
    wp_start Hrun Q. unfold_wrapper. handle_ok Hd.
    unfold request_of. cbn [IsString]. unfold Buffer_Data.
    destruct data as [|b data]; cbn [buffer_view length] in Hreply;
      repeat wp_step; raises_done Q.
  - intros s r Hreply.
    destruct (ConfsecClientDoRequest (JSNumber d :: JSString s :: rest) w)
      as [o w'] eqn:Hrun.
    wp_start Hrun Q. unfold_wrapper. handle_ok Hd.
    unfold request_of. cbn [IsString].
    repeat wp_step; raises_done Q.
  - intros Hreply.
    destruct (ConfsecResponseDestroy (JSNumber d :: rest) w)
      as [o w'] eqn:Hrun.
    wp_start Hrun Q. unfold_wrapper. handle_ok Hd.
    repeat wp_step; raises_done Q.
  - intros p Hreply.
    destruct (ConfsecResponseGetMetadata (JSNumber d :: rest) w)
      as [o w'] eqn:Hrun.
    wp_start Hrun Q. unfold_wrapper. handle_ok Hd.
    repeat wp_step; raises_done Q.
  - intros b Hreply.
    destruct (ConfsecResponseIsStreaming (JSNumber d :: rest) w)
      as [o w'] eqn:Hrun.
    wp_start Hrun Q. unfold_wrapper. handle_ok Hd.
    repeat wp_step; raises_done Q.
  - intros p Hreply.
    destruct (ConfsecResponseGetBody (JSNumber d :: rest) w)
      as [o w'] eqn:Hrun.
    wp_start Hrun Q. unfold_wrapper. handle_ok Hd.
    repeat wp_step; raises_done Q.
  - intros s Hreply.
    destruct (ConfsecResponseGetStream (JSNumber d :: rest) w)
      as [o w'] eqn:Hrun.
    wp_start Hrun Q. unfold_wrapper. handle_ok Hd.
    repeat wp_step; raises_done Q.
  - intros p Hreply.
    destruct (ConfsecResponseStreamGetNext (JSNumber d :: rest) w)
      as [o w'] eqn:Hrun.
    wp_start Hrun Q. unfold_wrapper. handle_ok Hd.
    repeat wp_step; raises_done Q.
  - intros Hreply.
    destruct (ConfsecResponseStreamDestroy (JSNumber d :: rest) w)
      as [o w'] eqn:Hrun.
    wp_start Hrun Q. unfold_wrapper. handle_ok Hd.
    repeat wp_step; raises_done Q.
  - intros s Hwf ->. apply decode_encode. exact Hwf.
Qed.

Lemma C4_engine_errors_surface_decoded_witness :
  (ConfsecResponseStreamGetNext [number 4]
     (scripted_world 0 None (Some (c_string "stream broke")))).1
  = Throws (JSError Napi_Error "stream broke").
Proof.
  exact (proj1
           (proj1 (proj2 (proj2 (proj2 (proj2 (proj2 (proj2 (proj2 (proj2
              (proj2 (proj2 (proj2 (proj2 (proj2 (proj2
                (C4_engine_errors_surface_decoded
                   (scripted 0 None (Some (c_string "stream broke")))
                   (scripted_world 0 None (Some (c_string "stream broke")))
                   (Double.of_Z 4) 4 [] (c_string "stream broke")
                   (UTF8.encode "stream broke") tt
                   eq_refl eq_refl)))))))))))))))
              None eq_refl)).
Defined.

(** C4 as stated fails twice over.  The text is not carried verbatim: a
    message holding the bytes [62 FF 64] reaches the caller as the three
    characters [b], U+FFFD, [d], whose UTF-8 encoding is not the engine's
    bytes.  And the failure has no kind: an error the engine reports at
    [ClientCreate] (a [ConfigurationError] in the specification) and a
    contract violation at [ClientCreate] (an [InternalError]) can reach
    the caller as the same failure object, so nothing computed from the
    failure tells the two kinds apart. *)
Lemma C4_counterexample :
  (ConfsecClientDestroy [number 7]
     (scripted_world 0 None (Some (CString.terminated b_ff_d)))).1
  = Throws (JSError Napi_Error [0x62; 0xFFFD; 0x64])
  /\ UTF8.encode [0x62; 0xFFFD; 0x64] <> b_ff_d
  /\ (ConfsecClientCreate
        [JSString "key123"; number 10; number 5; JSArray []; JSNull]
        (scripted_world 0 None
           (Some (c_string "Unexpected error creating client")))).1
     = Throws (JSError Napi_Error "Unexpected error creating client")
  /\ (ConfsecClientCreate
        [JSString "key123"; number 10; number 5; JSArray []; JSNull]
        (scripted_world 0 None None)).1
     = Throws (JSError Napi_Error "Unexpected error creating client")
  /\ ~ (exists kind_of : Outcome JSValue -> ErrorKind,
          kind_of
            (ConfsecClientCreate
               [JSString "key123"; number 10; number 5; JSArray []; JSNull]
               (scripted_world 0 None
                  (Some (c_string "Unexpected error creating client")))).1
          = ConfigurationError
          /\ kind_of
               (ConfsecClientCreate
                  [JSString "key123"; number 10; number 5; JSArray [];
                   JSNull]
                  (scripted_world 0 None None)).1
             = InternalError).
Proof.
  assert (H1 : (ConfsecClientCreate
     [JSString "key123"; number 10; number 5; JSArray []; JSNull]
     (scripted_world 0 None
        (Some (c_string "Unexpected error creating client")))).1
  = Throws (JSError Napi_Error "Unexpected error creating client"))
    by (vm_compute; reflexivity).
  assert (H2 : (ConfsecClientCreate
        [JSString "key123"; number 10; number 5; JSArray []; JSNull]
        (scripted_world 0 None None)).1
     = Throws (JSError Napi_Error "Unexpected error creating client"))
    by (vm_compute; reflexivity).
  split; [vm_compute; reflexivity|].
  split; [vm_compute; discriminate|].
  split; [exact H1|]. split; [exact H2|].
  intros [kind_of [Ha Hb]]. rewrite H1 in Ha. rewrite H2 in Hb.
  rewrite Ha in Hb. discriminate Hb.
Qed.

(** C5, evaluated where the code departs from it.  For a string, the
    request pointer is [requestStr.c_str()] and the length is the number
    of bytes of the text; but [requestStr] is a local of the [if] block,
    so at the engine call the pointer refers to a buffer that is already
    destroyed.  For a buffer the engine gets the bytes themselves and
    their number (for an empty buffer, a null pointer and zero).  The two
    forms agree on the length only, and the length counts bytes: two for
    the single character U+00E9. *)
Theorem C5_request_pointer_and_length
    (E : Engine) (s : js_string) (data : list byte) (w : World E) :
  (let '(o, w') := request_of (JSString s) w in
   o = Returns (Ptr (length (heap w)), length (UTF8.encode s))
   /\ view (heap w') (Ptr (length (heap w))) = ADangling)
  /\ (let '(o, w') := request_of (JSBuffer data) w in
      match data with
      | [] => o = Returns (nullptr, O) /\ w' = w
      | _ :: _ =>
          o = Returns (Ptr (length (heap w)), length data)
          /\ view (heap w') (Ptr (length (heap w))) = AData data
      end)
  /\ utf8_characters (UTF8.encode e_acute) = 1%nat
  /\ (request_of (JSString e_acute) (scripted_world 2 None None)).1
     = Returns (Ptr 0, 2%nat)
  /\ calls (ConfsecClientDoRequest [number 1; JSString "hello"]
              (scripted_world 2 None None)).2
     = [ {| cr_entry := EP_ClientDoRequest;
            cr_args := [ArgHandle 1; ArgPtr ADangling; ArgSize 5];
            cr_ret := RHandle 2; cr_err := None |} ]
  /\ calls (ConfsecClientDoRequest
              [number 1; JSBuffer (UTF8.encode "hello")]
              (scripted_world 2 None None)).2
     = [ {| cr_entry := EP_ClientDoRequest;
            cr_args := [ArgHandle 1;
                        ArgPtr (AData (UTF8.encode "hello"));
                        ArgSize 5];
            cr_ret := RHandle 2; cr_err := None |} ]
  /\ calls (ConfsecClientDoRequest [number 1; JSBuffer []]
              (scripted_world 2 None None)).2
     = [ {| cr_entry := EP_ClientDoRequest;
            cr_args := [ArgHandle 1; ArgPtr ANull; ArgSize 0];
            cr_ret := RHandle 2; cr_err := None |} ].
Proof.
  split; [|split; [|repeat split; vm_compute; reflexivity]].
  - unfold request_of. cbn [IsString Utf8Value].
    unfold mbind, M_bind, mret, M_ret, scoped_string, alloc, release.
    cbn [heap]. rewrite mark_released_app_r0.
    cbn [mark_released lookup list_lookup state fmap option_fmap option_map
         insert list_insert heap].
    split; [reflexivity|]. rewrite view_app_r0. reflexivity.
  - unfold request_of. cbn [IsString Buffer_Data].
    destruct data as [|b data].
    + split; reflexivity.
    + unfold mbind, M_bind, mret, M_ret, allocate, alloc. cbn [heap].
      split; [reflexivity|]. rewrite view_app_r0. reflexivity.
Qed.

(** C6, as amended.  A read of a stream whose handle is a valid number
    ends in one of three distinct ways, decided by the engine's reply: an
    error message is raised as an [Error] whose text is the message
    decoded as UTF-8; a null chunk with no error is returned as
    JavaScript [null], a value and not a failure; a chunk is returned as
    a buffer holding the bytes of the chunk up to its first zero byte,
    which are all its bytes when the chunk holds no zero byte. *)
Theorem C6_stream_get_next
    (E : Engine) (d : spec_float) (h : Z) (rest : list JSValue) (w : World E) :
  Double.to_uintptr d = Some h ->
  let reply := (Confsec_ResponseStreamGetNext E h (engine_state w)).1 in
  let outcome := (ConfsecResponseStreamGetNext (JSNumber d :: rest) w).1 in
  match reply with
  | (_, Some err) =>
      forall msg, CString.c_str err = Some msg ->
        outcome = Throws (JSError Napi_Error (UTF8.decode msg))
  | (None, None) =>
      outcome = Returns JSNull /\ forall e, outcome <> Throws e
  | (Some chunk, None) =>
      forall payload tail, chunk = payload ++ CString.NUL :: tail ->
        outcome = Returns (JSBuffer (CString.until_nul payload))
        /\ outcome <> Returns JSNull
        /\ (CString.nul_free payload = true ->
            outcome = Returns (JSBuffer payload))
  end.
Proof.
  intros Hh. cbn zeta.
  destruct (ConfsecResponseStreamGetNext (JSNumber d :: rest) w)
    as [o w'] eqn:Hrun.
  destruct (Confsec_ResponseStreamGetNext E h (engine_state w))
    as [[ret e] st] eqn:Hreply.
  cbn [fst].
  assert (Hgoal :
    match e with
    | Some err =>
        forall msg, CString.c_str err = Some msg ->
          o = Throws (JSError Napi_Error (UTF8.decode msg))
    | None =>
        match ret with
        | None => o = Returns JSNull
        | Some chunk =>
            forall bytes, CString.c_str chunk = Some bytes ->
              o = Returns (JSBuffer bytes)
        end
    end).
  { wp_start Hrun Q. unfold ConfsecResponseStreamGetNext.
    cbn [length Nat.ltb Nat.leb info_at nth IsNumber negb orb].
    apply wp_bind. unfold handle_of. apply wp_bind. apply wp_ret.
    cbn [bindQ]. rewrite Hh. apply wp_ret. cbn [bindQ].
    repeat wp_step; subst Q; cbn beta; wp_done. }
  destruct e as [err|]; [destruct ret; exact Hgoal|].
  destruct ret as [chunk|].
  - intros payload tail ->.
    rewrite (Hgoal _ (c_str_app_nul payload tail)).
    split; [reflexivity|]. split; [discriminate|].
    intros Hfree. rewrite (until_nul_nul_free payload Hfree). reflexivity.
  - rewrite Hgoal. split; [reflexivity|discriminate].
Qed.

Lemma C6_stream_get_next_witness :
  (ConfsecResponseStreamGetNext [number 3]
     (scripted_world 0 (Some (c_string "chunk")) None)).1
  = Returns (JSBuffer (UTF8.encode "chunk")).
Proof.
  exact (proj2 (proj2
           (C6_stream_get_next (scripted 0 (Some (c_string "chunk")) None)
              (Double.of_Z 3) 3 []
              (scripted_world 0 (Some (c_string "chunk")) None)
              eq_refl (UTF8.encode "chunk") [] eq_refl))
           eq_refl).
Defined.

(** C6 as stated fails for a chunk with a zero byte in it: the engine
    yields the bytes [a], NUL, [b] (and the terminator), the caller gets
    a buffer holding [a] alone. *)
Lemma C6_counterexample :
  (ConfsecResponseStreamGetNext [number 3]
     (scripted_world 0 (Some (c_string a_nul_b)) None)).1
  = Returns (JSBuffer (UTF8.encode "a"))
  /\ UTF8.encode "a" <> UTF8.encode a_nul_b.
Proof.
  split; [vm_compute; reflexivity | vm_compute; discriminate].
Qed.

(** *** Tags through the engine modelled from the specification *)

Lemma read_tag_views (ss : list (list byte)) :
  SpecEngine.read_c_strs (map tag_view ss)
  = Some (map CString.until_nul ss).
Proof.
  induction ss as [|s ss IH]; [reflexivity|].
  cbn [map SpecEngine.read_c_strs]. rewrite IH.
  unfold tag_view. cbn [SpecEngine.read_c_str].
  rewrite c_str_terminated, until_nul_idem. reflexivity.
Qed.

Lemma read_tags_terminated (ts : list (list byte)) :
  forall (pre : list (list byte)) (n : nat),
    n = length ts ->
    read_tags (map CString.terminated (pre ++ ts)) (length pre) n
    = Some (map (fun t => JSString (UTF8.decode (CString.until_nul t)))
                ts).
Proof.
  induction ts as [|t ts IH]; intros pre n ->; [reflexivity|].
  cbn [length read_tags map].
  rewrite list_lookup_fmap, lookup_app_r by lia.
  rewrite Nat.sub_diag. cbn [lookup list_lookup fmap option_fmap option_map].
  rewrite c_str_terminated.
  specialize (IH (pre ++ [t]) (length ts) eq_refl).
  rewrite length_app in IH. cbn [length] in IH.
  replace (length pre + 1)%nat with (S (length pre)) in IH by lia.
  rewrite <- app_assoc in IH. cbn [app] in IH. rewrite IH. reflexivity.
Qed.

Lemma map_until_nul_nul_free (T : list js_string) :
  Forall (fun s => UTF8.well_formed s = true /\ UTF8.nul_free s = true) T ->
  map (fun t => JSString (UTF8.decode (CString.until_nul t)))
      (map CString.until_nul (map UTF8.encode T))
  = map JSString T.
Proof.
  induction 1 as [|s T [Hwf Hfree] _ IH]; [reflexivity|].
  cbn [map]. rewrite IH, until_nul_idem.
  rewrite (until_nul_nul_free _ (encode_nul_free s Hwf Hfree)).
  rewrite (decode_encode s Hwf). reflexivity.
Qed.

(** C7, as amended.  On the engine modelled from the specification: for a
    live client handle and a sequence [T] of strings each of which is
    well-formed UTF-16 (no unpaired surrogate) and contains no NUL
    character, [SetDefaultNodeTags] succeeds and a following
    [GetDefaultNodeTags] returns exactly [T], in order and with its
    duplicates, whatever the tags were before. *)
Theorem C7_set_then_get_default_node_tags
    (B : SpecEngine.Backend) (d : spec_float) (h : Z)
    (c : SpecEngine.Client) (T : list js_string) (rest rest' : list JSValue)
    (w : World (SpecEngine.engine B)) :
  Double.to_uintptr d = Some h ->
  SpecEngine.client_at h (engine_state w) = Some c ->
  Forall (fun s => UTF8.well_formed s = true /\ UTF8.nul_free s = true) T ->
  let set_ :=
    ConfsecClientSetDefaultNodeTags
      (JSNumber d :: JSArray (map JSString T) :: rest) w in
  set_.1 = Returns JSUndefined
  /\ (ConfsecClientGetDefaultNodeTags (JSNumber d :: rest') set_.2).1
     = Returns (JSArray (map JSString T)).
Proof.
  intros Hd Hc HT. cbn zeta.
  destruct (ConfsecClientSetDefaultNodeTags
              (JSNumber d :: JSArray (map JSString T) :: rest) w)
    as [o1 w1] eqn:Hset.
  cbn [fst snd].
  assert (Hpost : o1 = Returns JSUndefined
                  /\ SpecEngine.client_at h (engine_state w1)
                     = Some {| SpecEngine.apiKey := SpecEngine.apiKey c;
                               SpecEngine.concurrentRequestsTarget :=
                                 SpecEngine.concurrentRequestsTarget c;
                               SpecEngine.maxCandidateNodes :=
                                 SpecEngine.maxCandidateNodes c;
                               SpecEngine.defaultNodeTags :=
                                 map CString.until_nul
                                     (map UTF8.encode T);
                               SpecEngine.environment :=
                                 SpecEngine.environment c |}).
  { wp_start Hset Q.
    apply wp_ConfsecClientSetDefaultNodeTags.
    rewrite Hd, strings_of_map.
    intros e st hp Hcall. subst Q. cbn beta. cbn [engine_state].
    cbn [Confsec_ClientSetDefaultNodeTags SpecEngine.engine] in Hcall.
    unfold SpecEngine.ClientSetDefaultNodeTags in Hcall.
    rewrite Hc in Hcall.
    rewrite <- (length_map tag_view), firstn_all in Hcall.
    rewrite read_tag_views in Hcall.
    unfold SpecEngine.ok in Hcall. inversion Hcall; subst e st.
    split; [reflexivity|].
    unfold SpecEngine.client_at. cbn [SpecEngine.table].
    rewrite lookup_insert_eq. reflexivity. }
  destruct Hpost as [-> Hc1]. split; [reflexivity|].
  destruct (ConfsecClientGetDefaultNodeTags (JSNumber d :: rest') w1)
    as [o2 w2] eqn:Hget.
  cbn [fst]. wp_start Hget Q.
  apply wp_ConfsecClientGetDefaultNodeTags. rewrite Hd.
  intros tags count e st hp Hcall. subst Q. cbn beta.
  cbn [Confsec_ClientGetDefaultNodeTags SpecEngine.engine] in Hcall.
  unfold SpecEngine.ClientGetDefaultNodeTags in Hcall.
  rewrite Hc1 in Hcall. cbn [SpecEngine.defaultNodeTags] in Hcall.
  unfold SpecEngine.ok in Hcall. inversion Hcall; subst tags count e st.
  unfold tags_outcome.
  pose proof (read_tags_terminated
                (map CString.until_nul (map UTF8.encode T)) [] _
                eq_refl) as Hread.
  cbn [app length] in Hread. rewrite Hread.
  rewrite (map_until_nul_nul_free T HT). reflexivity.
Qed.

Lemma C7_set_then_get_default_node_tags_witness :
  (ConfsecClientSetDefaultNodeTags
     [number 1; JSArray (map JSString [js "a"; js "b"; js "a"])] one_client).1
  = Returns JSUndefined
  /\ (ConfsecClientGetDefaultNodeTags [number 1]
        (ConfsecClientSetDefaultNodeTags
           [number 1; JSArray (map JSString [js "a"; js "b"; js "a"])]
           one_client).2).1
     = Returns (JSArray (map JSString [js "a"; js "b"; js "a"])).
Proof.
  eapply (C7_set_then_get_default_node_tags echo (Double.of_Z 1) 1 _
            [js "a"; js "b"; js "a"] [] [] one_client).
  - reflexivity.
  - vm_compute. reflexivity.
  - repeat constructor.
Defined.


(** C7 as stated fails for a string with a NUL character in it: the tag
    reaches the engine cut at the NUL, as the record of the call shows,
    so no engine could give the whole string back.  It fails as well for
    a string with an unpaired surrogate: the tag reaches the engine as
    the three bytes of U+FFFD, and U+FFFD is what comes back. *)
Lemma C7_counterexample :
  (ConfsecClientGetDefaultNodeTags [number 1]
     (ConfsecClientSetDefaultNodeTags
        [number 1; JSArray [JSString a_nul_b]] one_client).2).1
  = Returns (JSArray [JSString "a"])
  /\ JSArray [JSString "a"] <> JSArray [JSString a_nul_b]
  /\ hd_error
       (calls (ConfsecClientSetDefaultNodeTags
                 [number 1; JSArray [JSString a_nul_b]] one_client).2)
     = Some {| cr_entry := EP_ClientSetDefaultNodeTags;
               cr_args := [ArgHandle 1; ArgPtrs [AData (c_string "a")];
                           ArgSize 1];
               cr_ret := RVoid; cr_err := None |}
  /\ (ConfsecClientGetDefaultNodeTags [number 1]
        (ConfsecClientSetDefaultNodeTags
           [number 1; JSArray [JSString lone_surrogate]] one_client).2).1
     = Returns (JSArray [JSString [UTF8.replacement]])
  /\ JSArray [JSString [UTF8.replacement]]
     <> JSArray [JSString lone_surrogate]
  /\ hd_error
       (calls (ConfsecClientSetDefaultNodeTags
                 [number 1; JSArray [JSString lone_surrogate]]
                 one_client).2)
     = Some {| cr_entry := EP_ClientSetDefaultNodeTags;
               cr_args := [ArgHandle 1;
                           ArgPtrs [AData [xef; xbf; xbd; x00]];
                           ArgSize 1];
               cr_ret := RVoid; cr_err := None |}.
Proof.
  split; [vm_compute; reflexivity|].
  split; [discriminate|].
  split; [vm_compute; reflexivity|].
  split; [vm_compute; reflexivity|].
  split; [discriminate|vm_compute; reflexivity].
Qed.

(** C8.  [ConfsecClientCreate] on an environment that is null or a
    string, whatever the engine answers: for null the engine is called
    with a null pointer as environment, for a string with a pointer to
    the string's copy, so the empty string arrives as a non-null pointer
    to a lone terminator; the outcome and the engine's state are those of
    that one call.  Any other value is refused with a [TypeError] and the
    world is left as it was, the engine not called, whatever the other
    arguments are. *)
Theorem C8_environment_null_or_string
    (E : Engine) (k : js_string) (c m : spec_float) (T : list js_string)
    (rest : list JSValue) (w : World E) :
  let create env :=
    ConfsecClientCreate
      (JSString k :: JSNumber c :: JSNumber m :: JSArray (map JSString T)
         :: env :: rest) w in
  let engine env_ptr :=
    Confsec_ClientCreate E (AData (c_string k)) (Double.to_int32 c)
      (Double.to_int32 m) (map tag_view (map UTF8.encode T)) (length T)
      env_ptr (engine_state w) in
  let record env_ptr handle e :=
    {| cr_entry := EP_ClientCreate;
       cr_args := [ArgPtr (AData (c_string k)); ArgInt (Double.to_int32 c);
                   ArgInt (Double.to_int32 m);
                   ArgPtrs (map tag_view (map UTF8.encode T));
                   ArgSize (length T); ArgPtr env_ptr];
       cr_ret := RHandle handle; cr_err := e |} in
  (forall handle e st,
     engine ANull = ((handle, e), st) ->
     (create JSNull).1
     = handle_outcome "Unexpected error creating client" handle e
     /\ engine_state (create JSNull).2 = st
     /\ calls (create JSNull).2 = record ANull handle e :: calls w)
  /\ (forall s handle e st,
        engine (AData (CString.terminated
                         (CString.until_nul (UTF8.encode s))))
        = ((handle, e), st) ->
        (create (JSString s)).1
        = handle_outcome "Unexpected error creating client" handle e
        /\ engine_state (create (JSString s)).2 = st
        /\ calls (create (JSString s)).2
           = record (AData (CString.terminated
                              (CString.until_nul (UTF8.encode s))))
               handle e :: calls w)
  /\ (forall handle e st,
        engine (AData [CString.NUL]) = ((handle, e), st) ->
        (create (JSString "")).1
        = handle_outcome "Unexpected error creating client" handle e
        /\ engine_state (create (JSString "")).2 = st
        /\ calls (create (JSString "")).2
           = record (AData [CString.NUL]) handle e :: calls w)
  /\ AData [CString.NUL] <> ANull
  /\ (forall env, IsString env = false -> IsNull env = false ->
        create env
        = (Throws (JSError Napi_TypeError
                     "Environment must be a string or null"), w))
  /\ (forall info,
        IsString (info_at info 4) = false ->
        IsNull (info_at info 4) = false ->
        exists msg,
          ConfsecClientCreate info w
          = (Throws (JSError Napi_TypeError msg), w)).
Proof.
  cbn zeta.
  assert (Hcall : forall env handle e st,
            IsString env || IsNull env = true ->
            Confsec_ClientCreate E (AData (c_string k)) (Double.to_int32 c)
              (Double.to_int32 m) (map tag_view (map UTF8.encode T))
              (length T) (env_view env) (engine_state w)
            = ((handle, e), st) ->
            let run :=
              ConfsecClientCreate
                (JSString k :: JSNumber c :: JSNumber m
                   :: JSArray (map JSString T) :: env :: rest) w in
            run.1
            = handle_outcome "Unexpected error creating client" handle e
            /\ engine_state run.2 = st
            /\ calls run.2
               = {| cr_entry := EP_ClientCreate;
                    cr_args := [ArgPtr (AData (c_string k));
                                ArgInt (Double.to_int32 c);
                                ArgInt (Double.to_int32 m);
                                ArgPtrs (map tag_view (map UTF8.encode T));
                                ArgSize (length T); ArgPtr (env_view env)];
                    cr_ret := RHandle handle; cr_err := e |} :: calls w).
  { intros env handle e st Henv Hreply. cbn zeta.
    rewrite <- (length_map UTF8.encode T) in Hreply.
    rewrite (ConfsecClientCreate_run k c m (map JSString T)
               (map UTF8.encode T) env rest w handle e st Henv
               (strings_of_map T) Hreply).
    cbn [fst snd engine_state calls]. rewrite length_map.
    split; [reflexivity|]. split; reflexivity. }
  split; [intros handle e st; exact (Hcall JSNull handle e st eq_refl)|].
  split; [intros s handle e st;
          exact (Hcall (JSString s) handle e st eq_refl)|].
  split; [intros handle e st;
          exact (Hcall (JSString "") handle e st eq_refl)|].
  split; [discriminate|].
  split.
  - intros env Hs Hn. unfold ConfsecClientCreate.
    cbn [length Nat.ltb Nat.leb info_at nth IsString IsNumber IsArray negb].
    rewrite Hs, Hn. reflexivity.
  - intros info Hs Hn.
    apply (malformed_rejected E confsecClientCreate info w).
    cbn [well_formed]. rewrite Hs, Hn. cbn [orb].
    apply andb_false_r.
Qed.

Lemma C8_environment_null_or_string_witness :
  (ConfsecClientCreate
     [JSString "key"; number 1; number 1; JSArray []; JSNull]
     (fresh (E := env_probe) tt)).1
  = Returns (number 1)
  /\ (ConfsecClientCreate
        [JSString "key"; number 1; number 1; JSArray []; JSString ""]
        (fresh (E := env_probe) tt)).1
     = Returns (number 2)
  /\ ConfsecClientCreate
       [JSString "key"; number 1; number 1; JSArray []; JSBoolean true]
       (fresh (E := env_probe) tt)
     = (Throws (JSError Napi_TypeError
                  "Environment must be a string or null"),
        fresh (E := env_probe) tt).
Proof.
  pose (H := C8_environment_null_or_string env_probe "key"
               (Double.of_Z 1) (Double.of_Z 1) [] []
               (fresh (E := env_probe) tt)).
  split; [exact (proj1 (proj1 H 1 None tt eq_refl))|].
  split; [exact (proj1 (proj1 (proj2 (proj2 H)) 2 None tt eq_refl))|].
  exact (proj1 (proj2 (proj2 (proj2 (proj2 H))))
           (JSBoolean true) eq_refl eq_refl).
Defined.

(** *** Handles as doubles *)

Lemma to_uintptr_of_Z (h : Z) :
  0 <= h < 2 ^ 53 -> Double.to_uintptr (Double.of_Z h) = Some h.
Proof.
  intros Hh. destruct h as [|m|m]; [reflexivity| |lia].
  destruct (of_Z_small m) as (m' & e & Hof & Htr); [lia|].
  rewrite Hof. unfold Double.to_uintptr. rewrite Htr.
  replace (0 <=? Z.pos m) with true by (symmetry; apply Z.leb_le; lia).
  replace (Z.pos m <? 2 ^ 64) with true by (symmetry; apply Z.ltb_lt; lia).
  reflexivity.
Qed.

(** C9.  Handles cross the boundary as doubles, in both directions.
    When the engine creates a client with handle [handle],
    [ConfsecClientCreate] returns [static_cast<double>(handle)]; handing
    that number to [ConfsecClientDestroy], which reads it with
    [DoubleValue] and [static_cast<uintptr_t>], asks the engine to
    destroy [handle] itself when [handle] is below [2^53], and a
    different handle, [2^53], when [handle] is [2^53 + 1]: the round
    trip through a double is exact below [2^53] and loses the lowest bit
    of [2^53 + 1]. *)
Theorem C9_handle_round_trip
    (E : Engine) (k : js_string) (c m : spec_float) (T : list js_string)
    (env : JSValue) (rest rest' : list JSValue) (w : World E)
    (handle : Z) (st : EState E) :
  IsString env || IsNull env = true ->
  handle <> 0 ->
  Confsec_ClientCreate E (AData (c_string k)) (Double.to_int32 c)
    (Double.to_int32 m) (map tag_view (map UTF8.encode T)) (length T)
    (env_view env) (engine_state w) = ((handle, None), st) ->
  let created :=
    ConfsecClientCreate
      (JSString k :: JSNumber c :: JSNumber m :: JSArray (map JSString T)
         :: env :: rest) w in
  let destroyed :=
    ConfsecClientDestroy (JSNumber (Double.of_Z handle) :: rest')
      created.2 in
  created.1 = Returns (JSNumber (Double.of_Z handle))
  /\ engine_state created.2 = st
  /\ (0 <= handle < 2 ^ 53 ->
      Double.round_trip handle = Some handle
      /\ handle_of (JSNumber (Double.of_Z handle)) created.2
         = (Returns handle, created.2)
      /\ forall e st',
           Confsec_ClientDestroy E handle st = ((tt, e), st') ->
           destroyed.1 = void_outcome e
           /\ engine_state destroyed.2 = st'
           /\ calls destroyed.2
              = {| cr_entry := EP_ClientDestroy;
                   cr_args := [ArgHandle handle];
                   cr_ret := RVoid; cr_err := e |} :: calls created.2)
  /\ (handle = 2 ^ 53 + 1 ->
      Double.round_trip handle = Some (2 ^ 53)
      /\ handle_of (JSNumber (Double.of_Z handle)) created.2
         = (Returns (2 ^ 53), created.2)
      /\ forall e st',
           Confsec_ClientDestroy E (2 ^ 53) st = ((tt, e), st') ->
           destroyed.1 = void_outcome e
           /\ engine_state destroyed.2 = st'
           /\ calls destroyed.2
              = {| cr_entry := EP_ClientDestroy;
                   cr_args := [ArgHandle (2 ^ 53)];
                   cr_ret := RVoid; cr_err := e |} :: calls created.2).
Proof.
  intros Henv Hnz Hreply. cbn zeta.
  rewrite <- (length_map UTF8.encode T) in Hreply.
  rewrite (ConfsecClientCreate_run k c m (map JSString T)
             (map UTF8.encode T) env rest w handle None st Henv
             (strings_of_map T) Hreply).
  cbn [fst snd]. unfold handle_outcome.
  destruct (handle =? 0) eqn:Hz; [apply Z.eqb_eq in Hz; contradiction|].
  split; [reflexivity|]. split; [reflexivity|].
  assert (Hdestroy : forall (w1 : World E) (h : Z) e st',
            engine_state w1 = st ->
            Double.to_uintptr (Double.of_Z handle) = Some h ->
            Confsec_ClientDestroy E h st = ((tt, e), st') ->
            let destroyed :=
              ConfsecClientDestroy (JSNumber (Double.of_Z handle) :: rest')
                w1 in
            destroyed.1 = void_outcome e
            /\ engine_state destroyed.2 = st'
            /\ calls destroyed.2
               = {| cr_entry := EP_ClientDestroy;
                    cr_args := [ArgHandle h];
                    cr_ret := RVoid; cr_err := e |} :: calls w1).
  { intros w1 h e st' Hst Hd Hcall. cbn zeta. rewrite <- Hst in Hcall.
    destruct (ConfsecClientDestroy (JSNumber (Double.of_Z handle) :: rest')
                w1) as [o w'] eqn:Hrun.
    cbn [fst snd]. wp_start Hrun Q. unfold_wrapper. handle_ok Hd.
    repeat wp_step; subst Q; cbn beta; reply_subst;
      unfold void_outcome; cbn [engine_state calls with_heap];
      repeat match goal with
             | H : CString.c_str ?l = _ |- context [CString.c_str ?l] =>
                 rewrite H
             end;
      (split; [reflexivity|]); split; reflexivity. }
  split.
  - intros Hsmall. pose proof (to_uintptr_of_Z handle Hsmall) as Hd.
    split; [exact Hd|]. split.
    + unfold handle_of, DoubleValue, mbind, M_bind, mret, M_ret.
      rewrite Hd. reflexivity.
    + intros e st' Hcall.
      apply (Hdestroy _ handle e st'); [reflexivity|exact Hd|exact Hcall].
  - intros ->.
    assert (Hd : Double.to_uintptr (Double.of_Z (2 ^ 53 + 1))
                 = Some (2 ^ 53)) by (vm_compute; reflexivity).
    split; [exact Hd|]. split.
    + unfold handle_of, DoubleValue, mbind, M_bind, mret, M_ret.
      rewrite Hd. reflexivity.
    + intros e st' Hcall.
      apply (Hdestroy _ (2 ^ 53) e st'); [reflexivity|exact Hd|exact Hcall].
Qed.

Lemma C9_handle_round_trip_witness :
  (ConfsecClientCreate
     [JSString "key"; number 10; number 5; JSArray []; JSNull]
     (scripted_world 9007199254740991 None None)).1
  = Returns (number 9007199254740991)
  /\ calls (ConfsecClientDestroy [number 9007199254740991]
             (ConfsecClientCreate
                [JSString "key"; number 10; number 5; JSArray []; JSNull]
                (scripted_world 9007199254740991 None None)).2).2
     = {| cr_entry := EP_ClientDestroy;
          cr_args := [ArgHandle 9007199254740991];
          cr_ret := RVoid; cr_err := None |}
       :: calls (ConfsecClientCreate
                   [JSString "key"; number 10; number 5; JSArray []; JSNull]
                   (scripted_world 9007199254740991 None None)).2.
Proof.
  pose (H := C9_handle_round_trip
               (scripted 9007199254740991 None None) "key"
               (Double.of_Z 10) (Double.of_Z 5) [] JSNull [] []
               (scripted_world 9007199254740991 None None)
               9007199254740991 tt eq_refl ltac:(discriminate) eq_refl).
  split; [exact (proj1 H)|].
  exact (proj2 (proj2 (proj2 (proj2 (proj1 (proj2 (proj2 H)) ltac:(lia)))
                         None tt eq_refl))).
Defined.

(** C10.  Every export checks the number and the kinds of its arguments
    before anything else.  On malformed input (too few arguments, a handle
    that is not a number, tags that are not an array, a request that is
    neither a string nor a buffer, an environment that is neither a string
    nor null) it raises a [TypeError] and leaves the world as it was: the
    engine is not called, so its state is unchanged. *)
Theorem C10_malformed_input_rejected_locally
    (E : Engine) (name : Export) (info : list JSValue) (w : World E) :
  well_formed name info = false ->
  exists msg, Init name info w = (Throws (JSError Napi_TypeError msg), w).
Proof.
  intros H. exact (malformed_rejected E name info w H).
Qed.

Lemma C10_malformed_input_rejected_locally_witness :
  exists msg,
    Init confsecClientDoRequest [number 1; JSObject]
      (scripted_world 1 None None)
    = (Throws (JSError Napi_TypeError msg), scripted_world 1 None None).
Proof.
  apply (C10_malformed_input_rejected_locally (scripted 1 None None)
           confsecClientDoRequest [number 1; JSObject]
           (scripted_world 1 None None)).
  reflexivity.
Defined.

(** * Part IV: further properties of the wrappers *)

(** *** The helpers [JSArrayToCStringArray] and [FreeCStringArray] *)

(** X1.  [JSArrayToCStringArray] on an array of strings returns one
    pointer per element, in the order of the array: each points to a live
    [new char[]] block holding the element's text up to its first zero
    byte, followed by a terminator.  The [std::string] temporary of every
    iteration is gone when the function returns. *)
Theorem X1_array_elements_copied_in_order
    (E : Engine) (T : list js_string) (w : World E) :
  let run := (ptrs ← JSArrayToCStringArray (map JSString T);
              views_of ptrs) w in
  run.1 = Returns (map (fun s => AData (CString.terminated
                                   (CString.until_nul (UTF8.encode s))))
                       T)
  /\ heap run.2 = heap w ++ tag_blocks Live (map UTF8.encode T).
Proof.
  cbn zeta.
  pose proof (JSArrayToCStringArray_run (map JSString T) w) as Hrun.
  rewrite strings_of_map in Hrun.
  rewrite (run_bind_returns _ _ _ _ _ Hrun).
  rewrite (views_of_run (map UTF8.encode T) (heap w) [])
    by (cbn [heap with_heap]; rewrite app_nil_r; reflexivity).
  cbn [fst snd heap with_heap]. rewrite map_map. split; reflexivity.
Qed.

(** X2.  [FreeCStringArray] undoes [JSArrayToCStringArray]: applied to
    the vector made from an array of strings it releases every copy with
    [delete[]], the function that matches [new char[]], so that nothing
    the pair allocated stays live and no block that existed before is
    touched. *)
Theorem X2_array_copies_all_deleted
    (E : Engine) (T : list js_string) (w : World E) :
  (ptrs ← JSArrayToCStringArray (map JSString T); FreeCStringArray ptrs) w
  = (Returns tt,
     with_heap (heap w ++ tag_blocks (Released DeleteArray)
                            (map UTF8.encode T)) w)
  /\ all_released (tag_blocks (Released DeleteArray)
                     (map UTF8.encode T)).
Proof.
  split; [|apply all_released_tag_blocks].
  pose proof (JSArrayToCStringArray_run (map JSString T) w) as Hrun.
  rewrite strings_of_map in Hrun.
  rewrite (run_bind_returns _ _ _ _ _ Hrun).
  rewrite (FreeCStringArray_run (map UTF8.encode T) (heap w) [])
    by (cbn [heap with_heap]; rewrite app_nil_r; reflexivity).
  unfold with_heap. cbn [heap engine_state calls]. rewrite app_nil_r.
  reflexivity.
Qed.

(** *** Arguments *)

(** X5.  Every export looks only at the arguments it names: arguments
    passed after those of a well-formed call change nothing, neither the
    outcome nor the world. *)
Theorem X5_surplus_arguments_ignored
    (E : Engine) (name : Export) (info surplus : list JSValue)
    (w : World E) :
  well_formed name info = true ->
  Init name (info ++ surplus) w = Init name info w.
Proof.
  destruct name; cbn [well_formed Init]; intros Hwf;
    destruct info as [|v0 info]; try discriminate Hwf;
    try reflexivity;
    destruct info as [|v1 info]; try discriminate Hwf;
    try reflexivity;
    destruct info as [|v2 [|v3 [|v4 info]]]; try discriminate Hwf;
    reflexivity.
Qed.

Lemma X5_surplus_arguments_ignored_witness :
  Init confsecResponseGetBody ([number 2] ++ [JSString "x"; JSObject])
    (scripted_world 0 (Some (c_string "hello")) None)
  = Init confsecResponseGetBody [number 2]
      (scripted_world 0 (Some (c_string "hello")) None).
Proof.
  apply (X5_surplus_arguments_ignored
           (scripted 0 (Some (c_string "hello")) None)
           confsecResponseGetBody [number 2] [JSString "x"; JSObject]
           (scripted_world 0 (Some (c_string "hello")) None)).
  reflexivity.
Defined.

(** X6.  No export checks the range of a handle.  When the first
    argument of a handle-taking export is a number whose integer part does
    not fit [uintptr_t] (NaN, an infinity, -1, [2^64]), the conversion
    [static_cast<uintptr_t>] is undefined behaviour in C++: the run of the
    wrapper is undefined from there on, for every such export. *)
Theorem X6_handle_out_of_range_is_undefined
    (E : Engine) (name : Export) (info : list JSValue) (w : World E) :
  well_formed name info = true ->
  handle_out_of_range name info = true ->
  (Init name info w).1 = UndefinedBehaviour.
Proof.
  intros Hwf Hrange.
  destruct name; cbn [handle_out_of_range] in Hrange;
    try discriminate Hrange; cbn [well_formed] in Hwf; cbn [Init];
    destruct info as [|v0 info]; try discriminate Hwf;
    cbn [info_at nth] in Hrange; destruct v0; try discriminate Hrange;
    destruct (Double.to_uintptr d) eqn:Hd; try discriminate Hrange.
  all: try (unfold ConfsecClientDestroy,
           ConfsecClientGetDefaultCreditAmountPerRequest,
           ConfsecClientGetMaxCandidateNodes, ConfsecClientGetDefaultNodeTags,
           ConfsecClientGetWalletStatus, ConfsecResponseDestroy,
           ConfsecResponseGetMetadata, ConfsecResponseIsStreaming,
           ConfsecResponseGetBody, ConfsecResponseGetStream,
           ConfsecResponseStreamGetNext, ConfsecResponseStreamDestroy;
         cbn [length Nat.ltb Nat.leb info_at nth IsNumber negb orb];
         unfold handle_of, DoubleValue, mbind, M_bind, mret, M_ret;
         rewrite Hd; reflexivity).
  - destruct info as [|v1 info]; try discriminate Hwf.
    cbn [length Nat.leb info_at nth IsNumber andb] in Hwf.
    unfold ConfsecClientSetDefaultNodeTags.
    cbn [length Nat.ltb Nat.leb info_at nth IsNumber negb orb].
    rewrite Hwf. cbn [negb].
    unfold handle_of, DoubleValue, mbind, M_bind, mret, M_ret.
    rewrite Hd. reflexivity.
  - destruct info as [|v1 info]; try discriminate Hwf.
    cbn [length Nat.leb info_at nth IsNumber andb] in Hwf.
    unfold ConfsecClientDoRequest.
    cbn [length Nat.ltb Nat.leb info_at nth IsNumber negb orb].
    rewrite <- negb_orb, Hwf. cbn [negb].
    unfold handle_of, DoubleValue, mbind, M_bind, mret, M_ret.
    rewrite Hd. reflexivity.
Qed.

Lemma X6_handle_out_of_range_is_undefined_witness :
  (Init confsecClientDestroy [number (-1)] (scripted_world 0 None None)).1
  = UndefinedBehaviour
  /\ (Init confsecResponseGetBody [JSNumber S754_nan]
        (scripted_world 0 None None)).1
     = UndefinedBehaviour
  /\ (Init confsecClientDoRequest [number (2 ^ 64); JSString "hello"]
        (scripted_world 0 None None)).1
     = UndefinedBehaviour.
Proof.
  split; [|split];
    apply (X6_handle_out_of_range_is_undefined (scripted 0 None None));
    vm_compute; reflexivity.
Defined.

(** *** One call, with the handle *)





(** *** Complete runs *)

(** X8.  [ConfsecClientCreate] on well-typed arguments, whatever the
    engine answers.  The engine receives the API key as a pointer to the
    key's own buffer, the two numbers reduced to [int], the tags as
    pointers to their copies with the length of the array as count, and
    the environment as null or a pointer to its copy; every pointer is to
    a live block at the time of the call.  When the wrapper returns, the
    key's buffer, every tag copy and the environment copy have been
    released by the function that matches their allocation, on the
    success path and on both failure paths alike. *)
Theorem X8_create_marshals_and_releases
    (E : Engine) (k : js_string) (c m : spec_float) (T : list js_string)
    (env : JSValue) (rest : list JSValue) (w : World E)
    (handle : Z) (e : option (list byte)) (st : EState E) :
  IsString env || IsNull env = true ->
  let ss := map UTF8.encode T in
  let own :=
    {| content := c_string k; allocator := ByStdString;
       state := Released Destructor |}
    :: tag_blocks (Released DeleteArray) ss ++ env_blocks env in
  Confsec_ClientCreate E (AData (c_string k)) (Double.to_int32 c)
    (Double.to_int32 m) (map tag_view ss) (length T) (env_view env)
    (engine_state w) = ((handle, e), st) ->
  ConfsecClientCreate
    (JSString k :: JSNumber c :: JSNumber m :: JSArray (map JSString T)
       :: env :: rest) w
  = (handle_outcome "Unexpected error creating client" handle e,
     after_call w st (own ++ err_blocks e)
       {| cr_entry := EP_ClientCreate;
          cr_args := [ArgPtr (AData (c_string k));
                      ArgInt (Double.to_int32 c);
                      ArgInt (Double.to_int32 m);
                      ArgPtrs (map tag_view ss);
                      ArgSize (length T);
                      ArgPtr (env_view env)];
          cr_ret := RHandle handle; cr_err := e |})
  /\ all_released own.
Proof.
  intros Henv. cbn zeta. intros Hreply. split.
  - rewrite <- (length_map UTF8.encode T) in Hreply.
    rewrite (ConfsecClientCreate_run k c m (map JSString T)
               (map UTF8.encode T) env rest w handle e st Henv
               (strings_of_map T) Hreply).
    unfold after_call. rewrite length_map.
    cbn [app]. rewrite <- app_assoc. reflexivity.
  - apply (all_released_app [_]).
    + unfold all_released. constructor; [reflexivity|constructor].
    + apply all_released_app;
        [apply all_released_tag_blocks|apply all_released_env_blocks].
Qed.

Lemma X8_create_marshals_and_releases_witness :
  calls (ConfsecClientCreate
           [JSString "key"; number 10; number 5;
            JSArray [JSString "a"; JSString "b"]; JSString "prod"]
           (scripted_world 7 None None)).2
  = [ {| cr_entry := EP_ClientCreate;
         cr_args := [ArgPtr (AData (c_string "key")); ArgInt 10; ArgInt 5;
                     ArgPtrs [AData (c_string "a"); AData (c_string "b")];
                     ArgSize 2; ArgPtr (AData (c_string "prod"))];
         cr_ret := RHandle 7; cr_err := None |} ].
Proof.
  exact (f_equal (fun r => calls r.2)
           (proj1 (X8_create_marshals_and_releases (scripted 7 None None)
                     "key" (Double.of_Z 10) (Double.of_Z 5)
                     [js "a"; js "b"] (JSString "prod") []
                     (scripted_world 7 None None) 7 None tt
                     eq_refl eq_refl))).
Defined.



(** X10.  [ConfsecClientSetDefaultNodeTags] on a valid handle and an
    array of strings, whatever the engine answers: the engine receives the
    handle, the tags in the order of the array (duplicates included) as
    pointers to live copies, and the length of the array; when the
    wrapper returns, every copy has been released with [delete[]], also
    when the engine reports an error. *)
Theorem X10_set_tags_marshals_and_releases
    (E : Engine) (d : spec_float) (h : Z) (T : list js_string)
    (rest : list JSValue) (w : World E) (e : option (list byte))
    (st : EState E) :
  Double.to_uintptr d = Some h ->
  let ss := map UTF8.encode T in
  Confsec_ClientSetDefaultNodeTags E h (map tag_view ss) (length T)
    (engine_state w) = ((tt, e), st) ->
  ConfsecClientSetDefaultNodeTags
    (JSNumber d :: JSArray (map JSString T) :: rest) w
  = (void_outcome e,
     after_call w st
       (tag_blocks (Released DeleteArray) ss ++ err_blocks e)
       {| cr_entry := EP_ClientSetDefaultNodeTags;
          cr_args := [ArgHandle h; ArgPtrs (map tag_view ss);
                      ArgSize (length T)];
          cr_ret := RVoid; cr_err := e |})
  /\ all_released (tag_blocks (Released DeleteArray) ss).
Proof.
  intros Hd. cbn zeta. intros Hreply.
  split; [|apply all_released_tag_blocks].
  rewrite <- (length_map UTF8.encode T) in Hreply.
  rewrite (ConfsecClientSetDefaultNodeTags_run d h (map JSString T)
             (map UTF8.encode T) rest w e st Hd
             (strings_of_map T) Hreply).
  unfold after_call. rewrite length_map. reflexivity.
Qed.

Lemma X10_set_tags_marshals_and_releases_witness :
  (ConfsecClientSetDefaultNodeTags
     [number 1; JSArray [JSString "b"; JSString "a"; JSString "b"]]
     (scripted_world 0 None (Some (c_string "no such client")))).1
  = Throws (JSError Napi_Error "no such client")
  /\ heap (ConfsecClientSetDefaultNodeTags
             [number 1; JSArray [JSString "b"; JSString "a"; JSString "b"]]
             (scripted_world 0 None (Some (c_string "no such client")))).2
     = tag_blocks (Released DeleteArray)
         (map UTF8.encode [js "b"; js "a"; js "b"])
       ++ [released NativeFree (engine_block (c_string "no such client"))]
  /\ calls (ConfsecClientSetDefaultNodeTags
              [number 1; JSArray [JSString "b"; JSString "a"; JSString "b"]]
              (scripted_world 0 None (Some (c_string "no such client")))).2
     = [ {| cr_entry := EP_ClientSetDefaultNodeTags;
            cr_args := [ArgHandle 1;
                        ArgPtrs [AData (c_string "b"); AData (c_string "a");
                                 AData (c_string "b")];
                        ArgSize 3];
            cr_ret := RVoid;
            cr_err := Some (c_string "no such client") |} ].
Proof.
  pose (H := proj1 (X10_set_tags_marshals_and_releases
                      (scripted 0 None (Some (c_string "no such client")))
                      (Double.of_Z 1) 1 [js "b"; js "a"; js "b"] []
                      (scripted_world 0 None
                         (Some (c_string "no such client")))
                      (Some (c_string "no such client")) tt
                      eq_refl eq_refl)).
  exact (conj (f_equal fst H)
           (conj (f_equal (fun r => heap r.2) H)
                 (f_equal (fun r => calls r.2) H))).
Defined.

(** X11.  [ConfsecClientGetDefaultNodeTags] trusts the count the engine
    reports.  When the engine returns an array of NUL-terminated strings
    and a count, the result is the array of the first [count] strings in
    the engine's order (the empty array for a count of zero), each read
    up to its first zero byte and decoded as UTF-8; when the count
    exceeds the number of entries of the array, the loop reads past its
    end, which is undefined. *)
Theorem X11_get_tags_reads_count_entries
    (E : Engine) (d : spec_float) (h : Z) (rest : list JSValue)
    (w : World E) (ts : list (list byte)) (count : nat) (st : EState E) :
  Double.to_uintptr d = Some h ->
  Confsec_ClientGetDefaultNodeTags E h (engine_state w)
  = (((map CString.terminated ts, count), None), st) ->
  let outcome := (ConfsecClientGetDefaultNodeTags (JSNumber d :: rest) w).1 in
  ((count <= length ts)%nat ->
   outcome
   = Returns (JSArray
                (map (fun t => JSString (UTF8.decode
                                           (CString.until_nul t)))
                     (take count ts))))
  /\ ((length ts < count)%nat -> outcome = UndefinedBehaviour).
Proof.
  intros Hd Hreply. cbn zeta.
  rewrite (ConfsecClientGetDefaultNodeTags_run d h rest w _ _ _ _ Hd Hreply).
  cbn [fst tags_outcome]. split; intros Hcount.
  - rewrite (read_tags_take ts count 0) by lia. rewrite drop_0. reflexivity.
  - rewrite read_tags_overrun; [reflexivity| |lia].
    rewrite length_map. lia.
Qed.

Lemma X11_get_tags_reads_count_entries_witness :
  (ConfsecClientGetDefaultNodeTags [number 1] one_client).1
  = Returns (JSArray [JSString "tag1"]).
Proof.
  apply (proj1 (X11_get_tags_reads_count_entries (SpecEngine.engine echo)
                  (Double.of_Z 1) 1 [] one_client
                  [UTF8.encode "tag1"] 1
                  (engine_state one_client) eq_refl eq_refl)).
  cbn [length]. lia.
Defined.

(** *** Payloads *)

(** X12.  The four wrappers that receive a string from the engine
    ([ConfsecClientGetWalletStatus], [ConfsecResponseGetMetadata],
    [ConfsecResponseGetBody], [ConfsecResponseStreamGetNext]) on the
    success path: the result is built from the C string at the returned
    pointer (for the wallet status a JavaScript string, the bytes decoded
    as UTF-8; for the other three a buffer of the bytes), and the engine's
    block is then released exactly once, with [Confsec_Free]; nothing
    else in memory changes. *)
Theorem X12_payload_copied_then_released
    (E : Engine) (d : spec_float) (h : Z) (rest : list JSValue)
    (w : World E) (block s : list byte) (st : EState E) :
  Double.to_uintptr d = Some h ->
  CString.c_str block = Some s ->
  let after entry :=
    after_call w st [released ConfsecFree (engine_block block)]
      {| cr_entry := entry; cr_args := [ArgHandle h];
         cr_ret := RStr (Some block); cr_err := None |} in
  (Confsec_ClientGetWalletStatus E h (engine_state w)
   = ((Some block, None), st) ->
   ConfsecClientGetWalletStatus (JSNumber d :: rest) w
   = (Returns (JSString (UTF8.decode s)),
      after EP_ClientGetWalletStatus))
  /\ (Confsec_ResponseGetMetadata E h (engine_state w)
      = ((Some block, None), st) ->
      ConfsecResponseGetMetadata (JSNumber d :: rest) w
      = (Returns (JSBuffer s), after EP_ResponseGetMetadata))
  /\ (Confsec_ResponseGetBody E h (engine_state w)
      = ((Some block, None), st) ->
      ConfsecResponseGetBody (JSNumber d :: rest) w
      = (Returns (JSBuffer s), after EP_ResponseGetBody))
  /\ (Confsec_ResponseStreamGetNext E h (engine_state w)
      = ((Some block, None), st) ->
      ConfsecResponseStreamGetNext (JSNumber d :: rest) w
      = (Returns (JSBuffer s), after EP_ResponseStreamGetNext)).
Proof.
  intros Hd Hs. cbn zeta.
  repeat split; intros Hreply.
  - destruct (ConfsecClientGetWalletStatus (JSNumber d :: rest) w)
      as [o w'] eqn:Hrun.
    wp_start Hrun Q. unfold_wrapper. handle_ok Hd.
    repeat wp_step; subst Q; cbn beta; wp_done; reflexivity.
  - destruct (ConfsecResponseGetMetadata (JSNumber d :: rest) w)
      as [o w'] eqn:Hrun.
    wp_start Hrun Q. unfold_wrapper. handle_ok Hd.
    repeat wp_step; subst Q; cbn beta; wp_done; reflexivity.
  - destruct (ConfsecResponseGetBody (JSNumber d :: rest) w)
      as [o w'] eqn:Hrun.
    wp_start Hrun Q. unfold_wrapper. handle_ok Hd.
    repeat wp_step; subst Q; cbn beta; wp_done; reflexivity.
  - destruct (ConfsecResponseStreamGetNext (JSNumber d :: rest) w)
      as [o w'] eqn:Hrun.
    wp_start Hrun Q. unfold_wrapper. handle_ok Hd.
    repeat wp_step; subst Q; cbn beta; wp_done; reflexivity.
Qed.

Lemma X12_payload_copied_then_released_witness :
  (ConfsecClientGetWalletStatus [number 1]
     (scripted_world 0 (Some (c_string "funded")) None)).1
  = Returns (JSString "funded")
  /\ heap (ConfsecClientGetWalletStatus [number 1]
             (scripted_world 0 (Some (c_string "funded")) None)).2
     = [ {| content := c_string "funded"; allocator := ByEngine;
            state := Released ConfsecFree |} ].
Proof.
  pose (H := proj1 (X12_payload_copied_then_released
                      (scripted 0 (Some (c_string "funded")) None)
                      (Double.of_Z 1) 1 []
                      (scripted_world 0 (Some (c_string "funded")) None)
                      (c_string "funded") (UTF8.encode "funded") tt
                      eq_refl eq_refl) eq_refl).
  exact (conj (f_equal fst H) (f_equal (fun r => heap r.2) H)).
Defined.

(** X13.  The same four wrappers when the engine sets an error message
    and also returns a payload: [HANDLE_ERROR] leaves the wrapper before
    the payload is looked at, so the caller gets the engine's error, the
    message is released with [free], and the payload block is never
    released. *)
Theorem X13_payload_not_released_on_error
    (E : Engine) (d : spec_float) (h : Z) (rest : list JSValue)
    (w : World E) (block err msg : list byte) (st : EState E) :
  Double.to_uintptr d = Some h ->
  CString.c_str err = Some msg ->
  let after entry :=
    after_call w st
      [released NativeFree (engine_block err); engine_block block]
      {| cr_entry := entry; cr_args := [ArgHandle h];
         cr_ret := RStr (Some block); cr_err := Some err |} in
  let failure := Throws (JSError Napi_Error (UTF8.decode msg)) in
  (Confsec_ClientGetWalletStatus E h (engine_state w)
   = ((Some block, Some err), st) ->
   ConfsecClientGetWalletStatus (JSNumber d :: rest) w
   = (failure, after EP_ClientGetWalletStatus))
  /\ (Confsec_ResponseGetMetadata E h (engine_state w)
      = ((Some block, Some err), st) ->
      ConfsecResponseGetMetadata (JSNumber d :: rest) w
      = (failure, after EP_ResponseGetMetadata))
  /\ (Confsec_ResponseGetBody E h (engine_state w)
      = ((Some block, Some err), st) ->
      ConfsecResponseGetBody (JSNumber d :: rest) w
      = (failure, after EP_ResponseGetBody))
  /\ (Confsec_ResponseStreamGetNext E h (engine_state w)
      = ((Some block, Some err), st) ->
      ConfsecResponseStreamGetNext (JSNumber d :: rest) w
      = (failure, after EP_ResponseStreamGetNext)).
Proof.
  intros Hd Hs. cbn zeta.
  repeat split; intros Hreply.
  - destruct (ConfsecClientGetWalletStatus (JSNumber d :: rest) w)
      as [o w'] eqn:Hrun.
    wp_start Hrun Q. unfold_wrapper. handle_ok Hd.
    repeat wp_step; subst Q; cbn beta; wp_done; reflexivity.
  - destruct (ConfsecResponseGetMetadata (JSNumber d :: rest) w)
      as [o w'] eqn:Hrun.
    wp_start Hrun Q. unfold_wrapper. handle_ok Hd.
    repeat wp_step; subst Q; cbn beta; wp_done; reflexivity.
  - destruct (ConfsecResponseGetBody (JSNumber d :: rest) w)
      as [o w'] eqn:Hrun.
    wp_start Hrun Q. unfold_wrapper. handle_ok Hd.
    repeat wp_step; subst Q; cbn beta; wp_done; reflexivity.
  - destruct (ConfsecResponseStreamGetNext (JSNumber d :: rest) w)
      as [o w'] eqn:Hrun.
    wp_start Hrun Q. unfold_wrapper. handle_ok Hd.
    repeat wp_step; subst Q; cbn beta; wp_done; reflexivity.
Qed.

Lemma X13_payload_not_released_on_error_witness :
  (ConfsecResponseGetBody [number 2]
     (scripted_world 0 (Some (c_string "partial"))
        (Some (c_string "read failed")))).1
  = Throws (JSError Napi_Error "read failed")
  /\ heap (ConfsecResponseGetBody [number 2]
             (scripted_world 0 (Some (c_string "partial"))
                (Some (c_string "read failed")))).2
     = [ {| content := c_string "read failed"; allocator := ByEngine;
            state := Released NativeFree |};
         {| content := c_string "partial"; allocator := ByEngine;
            state := Live |} ].
Proof.
  pose (H := proj1 (proj2 (proj2
               (X13_payload_not_released_on_error
                  (scripted 0 (Some (c_string "partial"))
                     (Some (c_string "read failed")))
                  (Double.of_Z 2) 2 []
                  (scripted_world 0 (Some (c_string "partial"))
                     (Some (c_string "read failed")))
                  (c_string "partial") (c_string "read failed")
                  (UTF8.encode "read failed") tt
                  eq_refl eq_refl))) eq_refl).
  exact (conj (f_equal fst H) (f_equal (fun r => heap r.2) H)).
Defined.

(** *** Results that are not strings *)

(** X14.  [ConfsecClientGetMaxCandidateNodes] and
    [ConfsecClientGetDefaultCreditAmountPerRequest] return the engine's
    integer as a number, or raise the engine's error; they allocate
    nothing.  The number is the integer itself whenever its magnitude is
    below [2^53], which covers every [int]; a [long] credit amount of
    [2^53 + 1] comes back as [2^53]. *)
Theorem X14_integer_getters
    (E : Engine) (d : spec_float) (h : Z) (rest : list JSValue)
    (w : World E) (n : Z) (e : option (list byte)) (st : EState E) :
  Double.to_uintptr d = Some h ->
  let after entry :=
    after_call w st (err_blocks e)
      {| cr_entry := entry; cr_args := [ArgHandle h];
         cr_ret := RInt n; cr_err := e |} in
  (Confsec_ClientGetMaxCandidateNodes E h (engine_state w) = ((n, e), st) ->
   ConfsecClientGetMaxCandidateNodes (JSNumber d :: rest) w
   = (value_outcome (JSNumber (Double.of_Z n)) e,
      after EP_ClientGetMaxCandidateNodes))
  /\ (Confsec_ClientGetDefaultCreditAmountPerRequest E h (engine_state w)
      = ((n, e), st) ->
      ConfsecClientGetDefaultCreditAmountPerRequest (JSNumber d :: rest) w
      = (value_outcome (JSNumber (Double.of_Z n)) e,
         after EP_ClientGetDefaultCreditAmountPerRequest))
  /\ (- 2 ^ 53 < n < 2 ^ 53 -> Double.trunc (Double.of_Z n) = Some n)
  /\ Double.trunc (Double.of_Z (2 ^ 53 + 1)) = Some (2 ^ 53).
Proof.
  intros Hd. cbn zeta.
  split; [|split; [|split; [apply trunc_of_Z|vm_compute; reflexivity]]];
    intros Hreply.
  - destruct (ConfsecClientGetMaxCandidateNodes (JSNumber d :: rest) w)
      as [o w'] eqn:Hrun.
    wp_start Hrun Q. unfold_wrapper. handle_ok Hd.
    repeat wp_step; run_done Q.
  - destruct (ConfsecClientGetDefaultCreditAmountPerRequest
                (JSNumber d :: rest) w) as [o w'] eqn:Hrun.
    wp_start Hrun Q. unfold_wrapper. handle_ok Hd.
    repeat wp_step; run_done Q.
Qed.

Lemma X14_integer_getters_witness :
  (ConfsecClientGetMaxCandidateNodes [number 1]
     (scripted_world 0 None None)).1
  = Returns (number 0).
Proof.
  exact (f_equal fst
           (proj1 (X14_integer_getters (scripted 0 None None)
                     (Double.of_Z 1) 1 [] (scripted_world 0 None None)
                     0 None tt eq_refl) eq_refl)).
Defined.

(** X15.  The three destroy wrappers pass the handle to the engine and
    return [undefined], or raise the engine's error; they release nothing
    but the error message and never touch the resource themselves. *)
Theorem X15_destroy_wrappers
    (E : Engine) (d : spec_float) (h : Z) (rest : list JSValue)
    (w : World E) (e : option (list byte)) (st : EState E) :
  Double.to_uintptr d = Some h ->
  let after entry :=
    after_call w st (err_blocks e)
      {| cr_entry := entry; cr_args := [ArgHandle h];
         cr_ret := RVoid; cr_err := e |} in
  (Confsec_ClientDestroy E h (engine_state w) = ((tt, e), st) ->
   ConfsecClientDestroy (JSNumber d :: rest) w
   = (void_outcome e, after EP_ClientDestroy))
  /\ (Confsec_ResponseDestroy E h (engine_state w) = ((tt, e), st) ->
      ConfsecResponseDestroy (JSNumber d :: rest) w
      = (void_outcome e, after EP_ResponseDestroy))
  /\ (Confsec_ResponseStreamDestroy E h (engine_state w) = ((tt, e), st) ->
      ConfsecResponseStreamDestroy (JSNumber d :: rest) w
      = (void_outcome e, after EP_ResponseStreamDestroy)).
Proof.
  intros Hd. cbn zeta. repeat split; intros Hreply.
  - destruct (ConfsecClientDestroy (JSNumber d :: rest) w)
      as [o w'] eqn:Hrun.
    wp_start Hrun Q. unfold_wrapper. handle_ok Hd.
    repeat wp_step; run_done Q.
  - destruct (ConfsecResponseDestroy (JSNumber d :: rest) w)
      as [o w'] eqn:Hrun.
    wp_start Hrun Q. unfold_wrapper. handle_ok Hd.
    repeat wp_step; run_done Q.
  - destruct (ConfsecResponseStreamDestroy (JSNumber d :: rest) w)
      as [o w'] eqn:Hrun.
    wp_start Hrun Q. unfold_wrapper. handle_ok Hd.
    repeat wp_step; run_done Q.
Qed.

Lemma X15_destroy_wrappers_witness :
  (ConfsecResponseStreamDestroy [number 3] (scripted_world 0 None None)).1
  = Returns JSUndefined.
Proof.
  exact (f_equal fst
           (proj2 (proj2 (X15_destroy_wrappers (scripted 0 None None)
                            (Double.of_Z 3) 3 [] (scripted_world 0 None None)
                            None tt eq_refl)) eq_refl)).
Defined.

(** X16.  [ConfsecResponseIsStreaming] returns the engine's flag as a
    boolean, and [ConfsecResponseGetStream] the engine's stream handle as
    a number (an [Error] for a zero handle), or they raise the engine's
    error; neither allocates. *)
Theorem X16_response_inspection
    (E : Engine) (d : spec_float) (h : Z) (rest : list JSValue)
    (w : World E) (e : option (list byte)) (st : EState E) :
  Double.to_uintptr d = Some h ->
  (forall b : bool,
     Confsec_ResponseIsStreaming E h (engine_state w) = ((b, e), st) ->
     ConfsecResponseIsStreaming (JSNumber d :: rest) w
     = (value_outcome (JSBoolean b) e,
        after_call w st (err_blocks e)
          {| cr_entry := EP_ResponseIsStreaming; cr_args := [ArgHandle h];
             cr_ret := RBool b; cr_err := e |}))
  /\ (forall s : Z,
        Confsec_ResponseGetStream E h (engine_state w) = ((s, e), st) ->
        ConfsecResponseGetStream (JSNumber d :: rest) w
        = (handle_outcome "Unexpected error getting response stream" s e,
           after_call w st (err_blocks e)
             {| cr_entry := EP_ResponseGetStream; cr_args := [ArgHandle h];
                cr_ret := RHandle s; cr_err := e |})).
Proof.
  intros Hd. split; intros r Hreply.
  - destruct (ConfsecResponseIsStreaming (JSNumber d :: rest) w)
      as [o w'] eqn:Hrun.
    wp_start Hrun Q. unfold_wrapper. handle_ok Hd.
    repeat wp_step; run_done Q.
  - destruct (ConfsecResponseGetStream (JSNumber d :: rest) w)
      as [o w'] eqn:Hrun.
    wp_start Hrun Q. unfold_wrapper. handle_ok Hd.
    repeat wp_step; run_done Q.
Qed.

Lemma X16_response_inspection_witness :
  (ConfsecResponseIsStreaming [number 2] (scripted_world 0 None None)).1
  = Returns (JSBoolean false).
Proof.
  exact (f_equal fst
           (proj1 (X16_response_inspection (scripted 0 None None)
                     (Double.of_Z 2) 2 [] (scripted_world 0 None None)
                     None tt eq_refl) false eq_refl)).
Defined.



(** *** Memory and defined behaviour, for every export *)

Ltac released_done Q :=
  subst Q; cbn beta; cbn [heap with_heap];
  first [ exists []; split; [rewrite app_nil_r; reflexivity|constructor]
        | eexists; split;
          [ repeat rewrite <- app_assoc; reflexivity
          | unfold all_released;
            repeat (constructor; [intros; first [discriminate|reflexivity]|]);
            constructor ] ].

(** X18.  Whatever the export, the arguments, the engine's answer and the
    outcome: a call leaves every block that existed before it as it was,
    and every block it allocated for itself (a [new char[]] copy, the
    buffer of a [std::string] local) has been released, by [delete[]] or
    by the destructor respectively, by the time it returns.  The one
    condition is that the tags are strings. *)
Theorem X18_own_memory_released
    (E : Engine) (name : Export) (info : list JSValue) (w w' : World E)
    (o : Outcome JSValue) :
  Init name info w = (o, w') ->
  forallb IsString (tags_argument name info) = true ->
  exists ext, heap w' = heap w ++ ext /\ all_released ext.
Proof.
  intros Hrun Htags.
  destruct name; cbn [Init] in Hrun;
    try (wp_start Hrun Q; unfold_wrapper; repeat wp_step; released_done Q).
  - (* ConfsecClientCreate *)
    destruct (well_formed confsecClientCreate info) eqn:Hwf.
    2:{ destruct (malformed_rejected E _ info w Hwf) as [m Hm].
        cbn [Init] in Hm. rewrite Hm in Hrun. inversion Hrun; subst.
        exists []. split; [rewrite app_nil_r; reflexivity|constructor]. }
    destruct (create_shape info Hwf)
      as (k & c & m & tags & env & rest & -> & Henv).
    cbn [tags_argument info_at nth] in Htags.
    destruct (strings_of_all tags Htags) as [ss Hss].
    destruct (Confsec_ClientCreate E (AData (c_string k)) (Double.to_int32 c)
                (Double.to_int32 m) (map tag_view ss) (length ss)
                (env_view env) (engine_state w)) as [[handle e] st] eqn:Hreply.
    rewrite (ConfsecClientCreate_run k c m tags ss env rest w handle e st
               Henv Hss Hreply) in Hrun.
    inversion Hrun; subst o w'. cbn [heap].
    eexists; split; [reflexivity|].
    apply (all_released_app [_]).
    + unfold all_released. constructor; [reflexivity|constructor].
    + apply all_released_app; [apply all_released_tag_blocks|].
      apply all_released_app;
        [apply all_released_env_blocks|apply all_released_err_blocks].
  - (* ConfsecClientGetDefaultNodeTags *)
    destruct (well_formed confsecClientGetDefaultNodeTags info) eqn:Hwf.
    2:{ destruct (malformed_rejected E _ info w Hwf) as [m Hm].
        cbn [Init] in Hm. rewrite Hm in Hrun. inversion Hrun; subst.
        exists []. split; [rewrite app_nil_r; reflexivity|constructor]. }
    destruct (handle_shape info Hwf) as (d & rest & ->).
    destruct (Double.to_uintptr d) as [h|] eqn:Hd.
    2:{ wp_start Hrun Q. apply wp_ConfsecClientGetDefaultNodeTags.
        rewrite Hd. released_done Q. }
    destruct (Confsec_ClientGetDefaultNodeTags E h (engine_state w))
      as [[[tags count] e] st] eqn:Hreply.
    rewrite (ConfsecClientGetDefaultNodeTags_run d h rest w tags count e st
               Hd Hreply) in Hrun.
    inversion Hrun; subst o w'. cbn [heap].
    eexists; split; [reflexivity|].
    apply all_released_app; [apply all_released_err_blocks|].
    unfold all_released. apply Forall_forall. intros b Hb.
    apply list_elem_of_fmap in Hb. destruct Hb as (t & -> & _).
    discriminate.
  - (* ConfsecClientSetDefaultNodeTags *)
    destruct (well_formed confsecClientSetDefaultNodeTags info) eqn:Hwf.
    2:{ destruct (malformed_rejected E _ info w Hwf) as [m Hm].
        cbn [Init] in Hm. rewrite Hm in Hrun. inversion Hrun; subst.
        exists []. split; [rewrite app_nil_r; reflexivity|constructor]. }
    destruct (set_tags_shape info Hwf) as (d & tags & rest & ->).
    cbn [tags_argument info_at nth] in Htags.
    destruct (strings_of_all tags Htags) as [ss Hss].
    destruct (Double.to_uintptr d) as [h|] eqn:Hd.
    2:{ wp_start Hrun Q. apply wp_ConfsecClientSetDefaultNodeTags.
        rewrite Hd. released_done Q. }
    destruct (Confsec_ClientSetDefaultNodeTags E h (map tag_view ss)
                (length ss) (engine_state w)) as [[[] e] st] eqn:Hreply.
    rewrite (ConfsecClientSetDefaultNodeTags_run d h tags ss rest w e st
               Hd Hss Hreply) in Hrun.
    inversion Hrun; subst o w'. cbn [heap].
    eexists; split; [reflexivity|].
    apply all_released_app;
      [apply all_released_tag_blocks|apply all_released_err_blocks].
Qed.

Lemma X18_own_memory_released_witness :
  exists ext,
    heap (Init confsecClientCreate
            [JSString "key"; number 10; number 5;
             JSArray [JSString "a"]; JSString "prod"]
            (scripted_world 7 None None)).2
    = heap (scripted_world 7 None None) ++ ext
    /\ all_released ext.
Proof.
  apply (X18_own_memory_released (scripted 7 None None) confsecClientCreate
           [JSString "key"; number 10; number 5;
            JSArray [JSString "a"]; JSString "prod"]
           (scripted_world 7 None None) _ _ (surjective_pairing _)).
  reflexivity.
Defined.





(** *** The macro [HANDLE_ERROR] *)

(** X20.  [HANDLE_ERROR] with no error message set does nothing.  With
    a message set, whatever else the memory holds, it raises an [Error]
    whose text is the message read as a C string and decoded as UTF-8
    (a byte that is not part of a well-formed sequence becomes U+FFFD),
    releases the message with the C library's [free], touches no other
    block, and leaves the wrapper: what follows it is not run. *)
Theorem X20_HANDLE_ERROR
    (E : Engine) (w : World E) (pre post : list Block) (b : Block)
    (msg : list byte) (k : unit -> M E JSValue) :
  heap w = pre ++ b :: post ->
  state b = Live ->
  CString.c_str (content b) = Some msg ->
  (HANDLE_ERROR (Ptr (length pre)) ≫= k) w
  = (Throws (JSError Napi_Error (UTF8.decode msg)),
     with_heap (pre ++ released NativeFree b :: post) w)
  /\ (HANDLE_ERROR nullptr ≫= k) w = k tt w.
Proof.
  intros Hw Hb Hmsg. split; [|reflexivity].
  apply run_bind_throws.
  unfold HANDLE_ERROR, mbind, M_bind, load.
  rewrite (view_at _ pre post b (heap w) Hw eq_refl Hb), Hmsg.
  cbn [defined]. unfold mret, M_ret, free.
  rewrite (release_at NativeFree _ pre post b w Hw eq_refl Hb).
  reflexivity.
Qed.

Lemma X20_HANDLE_ERROR_witness :
  (HANDLE_ERROR (Ptr 1) ≫= fun _ => mret JSUndefined)
    (with_heap [engine_block (c_string "body");
                engine_block (c_string "timeout")]
       (scripted_world 0 None None))
  = (Throws (JSError Napi_Error "timeout"),
     with_heap [engine_block (c_string "body");
                released NativeFree (engine_block (c_string "timeout"))]
       (scripted_world 0 None None))
  /\ (HANDLE_ERROR (Ptr 0) ≫= fun _ => mret JSUndefined)
       (with_heap [engine_block (CString.terminated b_ff_d)]
          (scripted_world 0 None None))
     = (Throws (JSError Napi_Error [0x62; 0xFFFD; 0x64]),
        with_heap [released NativeFree
                     (engine_block (CString.terminated b_ff_d))]
          (scripted_world 0 None None)).
Proof.
  split.
  - apply (proj1 (X20_HANDLE_ERROR (scripted 0 None None)
                    (with_heap [engine_block (c_string "body");
                                engine_block (c_string "timeout")]
                       (scripted_world 0 None None))
                    [engine_block (c_string "body")] []
                    (engine_block (c_string "timeout"))
                    (UTF8.encode "timeout")
                    (fun _ => mret JSUndefined)
                    eq_refl eq_refl eq_refl)).
  - apply (proj1 (X20_HANDLE_ERROR (scripted 0 None None)
                    (with_heap [engine_block (CString.terminated b_ff_d)]
                       (scripted_world 0 None None))
                    [] []
                    (engine_block (CString.terminated b_ff_d))
                    b_ff_d
                    (fun _ => mret JSUndefined)
                    eq_refl eq_refl eq_refl)).
Defined.
